(** * Portenta_H7_ISR_Timer: the software timer multiplexer

    A shallow embedding of [Portenta_H7_ISR_Timer-Impl.h] and the properties
    of the slot scheduler it implements: registration into the lowest free
    slot, the two-phase [run] (scan, then dispatch), catch-up after missed
    ticks, automatic removal after the last run, and the bounds checks of
    the accessors. *)

From Stdlib Require Import ZArith Lia Bool List.
From stdpp Require Import base list relations.
Import ListNotations.

Local Open Scope Z_scope.

(** ** Data model *)

(** Modelled from the spec: the struct [timer_t] is declared in
    [Portenta_H7_ISR_Timer.h], which is not among the sources.  The fields
    are the ones the implementation reads and writes.  Unsigned integers are
    [Z] with the wrap-around written where the code computes; a pointer is a
    [Z] whose value [0] is [NULL]. *)
Record timer_t := mk_timer {
  prev_millis : Z;  (* unsigned long: clock value of the last serviced period *)
  callback : Z;     (* void*: [NULL] marks a free slot *)
  param : Z;        (* void* *)
  hasParam : bool;
  delay : Z;        (* unsigned long *)
  maxNumRuns : Z;   (* unsigned *)
  numRuns : Z;      (* unsigned *)
  enabled : bool;
  toBeCalled : Z    (* unsigned: deferred call mark *)
}.

(** The scheduler object: the slot array, a list of [MAX_NUMBER_TIMERS]
    slots, and the counter of slots in use.  The counter is an [int]; the
    guards of the code keep it between [-1] and the capacity, and the model
    adds and subtracts on it without wrapping. *)
Record ISR_Timer := mk_sched {
  timer : list timer_t;
  numTimers : Z     (* int: [-1] before the first [init] *)
}.

Definition NULL : Z := 0.

(** What [memset (&timer[i], 0, sizeof (timer_t))] leaves in a slot. *)
Definition zero_timer : timer_t :=
  mk_timer 0 NULL NULL false 0 0 0 false 0.

#[global] Instance timer_t_inhabited : Inhabited timer_t := populate zero_timer.

(** Field assignments [t.x = v]. *)
Definition set_prev_millis (v : Z) (t : timer_t) : timer_t :=
  mk_timer v (callback t) (param t) (hasParam t) (delay t) (maxNumRuns t)
           (numRuns t) (enabled t) (toBeCalled t).
Definition set_callback (v : Z) (t : timer_t) : timer_t :=
  mk_timer (prev_millis t) v (param t) (hasParam t) (delay t) (maxNumRuns t)
           (numRuns t) (enabled t) (toBeCalled t).
Definition set_param (v : Z) (t : timer_t) : timer_t :=
  mk_timer (prev_millis t) (callback t) v (hasParam t) (delay t) (maxNumRuns t)
           (numRuns t) (enabled t) (toBeCalled t).
Definition set_hasParam (v : bool) (t : timer_t) : timer_t :=
  mk_timer (prev_millis t) (callback t) (param t) v (delay t) (maxNumRuns t)
           (numRuns t) (enabled t) (toBeCalled t).
Definition set_delay (v : Z) (t : timer_t) : timer_t :=
  mk_timer (prev_millis t) (callback t) (param t) (hasParam t) v (maxNumRuns t)
           (numRuns t) (enabled t) (toBeCalled t).
Definition set_maxNumRuns (v : Z) (t : timer_t) : timer_t :=
  mk_timer (prev_millis t) (callback t) (param t) (hasParam t) (delay t) v
           (numRuns t) (enabled t) (toBeCalled t).
Definition set_numRuns (v : Z) (t : timer_t) : timer_t :=
  mk_timer (prev_millis t) (callback t) (param t) (hasParam t) (delay t)
           (maxNumRuns t) v (enabled t) (toBeCalled t).
Definition set_enabled (v : bool) (t : timer_t) : timer_t :=
  mk_timer (prev_millis t) (callback t) (param t) (hasParam t) (delay t)
           (maxNumRuns t) (numRuns t) v (toBeCalled t).
Definition set_toBeCalled (v : Z) (t : timer_t) : timer_t :=
  mk_timer (prev_millis t) (callback t) (param t) (hasParam t) (delay t)
           (maxNumRuns t) (numRuns t) (enabled t) v.

(** [timer[i]] read, and [timer[i]] updated in place. *)
Definition slot (i : nat) (s : ISR_Timer) : timer_t := timer s !!! i.
Definition upd (i : nat) (f : timer_t -> timer_t) (s : ISR_Timer) : ISR_Timer :=
  mk_sched (alter f i (timer s)) (numTimers s).
Definition set_numTimers (v : Z) (s : ISR_Timer) : ISR_Timer :=
  mk_sched (timer s) v.

(** The object as the constructor leaves it: [numTimers (-1)], and the slot
    array holding whatever the memory of the object holds. *)
Definition Portenta_H7_ISR_Timer (mem : list timer_t) : ISR_Timer :=
  mk_sched mem (-1).

(** ** Undefined behaviour and the record of dispatched callbacks *)

Inductive fault := DivByZero | NullCall.

Inductive result (A : Type) :=
| Ok (a : A)
| Fault (e : fault).
Arguments Ok {A} a.
Arguments Fault {A} e.

Definition bind {A B} (r : result A) (k : A -> result B) : result B :=
  match r with
  | Ok a => k a
  | Fault e => Fault e
  end.

Notation "'let*' x ':=' r 'in' k" := (bind r (fun x => k))
  (at level 10, x name, r at level 100, k at level 200).

(** One callback invocation made by [run]: the slot, the function pointer
    called and the argument passed ([None] for the zero-argument form). *)
Record call := mk_call {
  call_slot : nat;
  call_fn : Z;
  call_arg : option Z
}.

(** [for (uint8_t i = first; i < first + n; i++) body], for a body that cannot
    fail and for one that can.  The scheduler's loops all run [i] from [0] to
    [MAX_NUMBER_TIMERS - 1]. *)
Fixpoint for_range {S : Type} (body : nat -> S -> S) (i n : nat) (s : S) : S :=
  match n with
  | O => s
  | Datatypes.S n' => for_range body (Datatypes.S i) n' (body i s)
  end.

Fixpoint for_result {S : Type} (body : nat -> S -> result S) (i n : nat) (s : S)
  : result S :=
  match n with
  | O => Ok s
  | Datatypes.S n' => let* s' := body i s in for_result body (Datatypes.S i) n' s'
  end.

(** ** The scheduler *)

Section Scheduler.

Set Default Proof Using "Type".

(** Constants of [Portenta_H7_ISR_Timer.h], which is not among the sources:
    they are parameters of the development.  The loops count the slots with
    a [uint8_t] and end, so the capacity is one such a counter reaches (255 at
    most); the model runs them over the slots [0] to [MAX_NUMBER_TIMERS - 1]. *)
Variable MAX_NUMBER_TIMERS : nat.
Variable TIMER_RUN_FOREVER : Z.
Variable TIMER_DEFCALL_DONTRUN : Z.
Variable TIMER_DEFCALL_RUNONLY : Z.
Variable TIMER_DEFCALL_RUNANDDEL : Z.

(** Widths, in bits, of [unsigned long] and of [unsigned]. *)
Variable ULONG_BITS : nat.
Variable UINT_BITS : nat.

(** The world outside the scheduler: [millis ()] reads its clock, and calling
    the function at address [f] (with an argument, or with none) changes it
    and, when the callback uses the scheduler, the scheduler as well.  The
    clock does not advance while one scheduler operation executes, except
    across a callback. *)
Variable World : Type.
Variable millis : World -> Z.
Variable invoke : Z -> option Z -> World -> ISR_Timer -> World * ISR_Timer.

(** Modelled from the spec: [TIMER_RUN_ONCE] is defined in the header that is
    not among the sources; the spec gives the sentinel [RUN_ONCE = 1]. *)
Definition TIMER_RUN_ONCE : Z := 1.

(** Arithmetic of [unsigned long] and of [unsigned]. *)
Definition wrapL (z : Z) : Z := z mod 2 ^ Z.of_nat ULONG_BITS.
Definition wrapU (z : Z) : Z := z mod 2 ^ Z.of_nat UINT_BITS.

(** [memset (&timer[i], 0, sizeof (timer_t))] *)
Definition memset_slot (i : nat) (s : ISR_Timer) : ISR_Timer :=
  upd i (fun _ => zero_timer) s.

Definition init (now : Z) (s : ISR_Timer) : ISR_Timer :=
  let current_millis := now in
  let s := for_range
             (fun i s => upd i (set_prev_millis current_millis) (memset_slot i s))
             0 MAX_NUMBER_TIMERS s in
  set_numTimers 0 s.

(** The body of the first loop of [run], on the slot it visits. *)
Definition scan_slot (current_millis : Z) (t : timer_t) : result timer_t :=
  let t := set_toBeCalled TIMER_DEFCALL_DONTRUN t in
  if negb (callback t =? NULL) then
    let elapsed := wrapL (current_millis - prev_millis t) in
    if delay t <=? elapsed then
      if delay t =? 0 then Fault DivByZero else
      let skipTimes := elapsed / delay t in
      let t := set_prev_millis
                 (wrapL (prev_millis t + wrapL (delay t * skipTimes))) t in
      if enabled t then
        if maxNumRuns t =? TIMER_RUN_FOREVER then
          Ok (set_toBeCalled TIMER_DEFCALL_RUNONLY t)
        else if numRuns t <? maxNumRuns t then
          let t := set_toBeCalled TIMER_DEFCALL_RUNONLY t in
          let t := set_numRuns (wrapU (numRuns t + 1)) t in
          if maxNumRuns t <=? numRuns t then
            Ok (set_toBeCalled TIMER_DEFCALL_RUNANDDEL t)
          else Ok t
        else Ok t
      else Ok t
    else Ok t
  else Ok t.

Definition scan (current_millis : Z) (s : ISR_Timer) : result ISR_Timer :=
  for_result
    (fun i s => let* t := scan_slot current_millis (slot i s) in
                Ok (upd i (fun _ => t) s))
    0 MAX_NUMBER_TIMERS s.

Definition deleteTimer (now : Z) (timerId : Z) (s : ISR_Timer) : ISR_Timer :=
  if Z.of_nat MAX_NUMBER_TIMERS <=? timerId then s
  else if numTimers s =? 0 then s
  else
    let i := Z.to_nat timerId in
    if negb (callback (slot i s) =? NULL) then
      let s := memset_slot i s in
      let s := upd i (set_prev_millis now) s in
      set_numTimers (numTimers s - 1) s
    else s.

(** The argument [run] passes to the callback of a slot: [timer[i].param]
    for a callback that takes one, none otherwise. *)
Definition arg_of (t : timer_t) : option Z :=
  if hasParam t then Some (param t) else None.

(** The body of the second loop of [run].  Every field is read from the
    object as it is at that moment: after the callbacks of the lower slots,
    and, for the test that deletes the timer, after the slot's own callback. *)
Definition dispatch_slot (i : nat) (st : World * ISR_Timer * list call)
  : result (World * ISR_Timer * list call) :=
  let '(w, s, tr) := st in
  if toBeCalled (slot i s) =? TIMER_DEFCALL_DONTRUN then Ok st
  else if callback (slot i s) =? NULL then Fault NullCall
  else
    let arg := arg_of (slot i s) in
    let '(w1, s1) := invoke (callback (slot i s)) arg w s in
    let tr1 := tr ++ [mk_call i (callback (slot i s)) arg] in
    if toBeCalled (slot i s1) =? TIMER_DEFCALL_RUNANDDEL then
      Ok (w1, deleteTimer (millis w1) (Z.of_nat i) s1, tr1)
    else Ok (w1, s1, tr1).

Definition dispatch (st : World * ISR_Timer * list call)
  : result (World * ISR_Timer * list call) :=
  for_result dispatch_slot 0 MAX_NUMBER_TIMERS st.

(** [run]: the world and the scheduler after the tick, and the callbacks it
    invoked, in order. *)
Definition run (w : World) (s : ISR_Timer)
  : result (World * ISR_Timer * list call) :=
  let current_millis := millis w in
  let* s1 := scan current_millis s in
  dispatch (w, s1, []).

(** The loop of [findFirstFreeSlot], from index [i], [n] slots to go. *)
Fixpoint first_free_from (i n : nat) (s : ISR_Timer) : Z :=
  match n with
  | O => -1
  | S n' => if callback (slot i s) =? NULL then Z.of_nat i
            else first_free_from (S i) n' s
  end.

Definition findFirstFreeSlot (s : ISR_Timer) : Z :=
  if Z.of_nat MAX_NUMBER_TIMERS <=? numTimers s then -1
  else first_free_from 0 MAX_NUMBER_TIMERS s.

Definition setupTimer (now : Z) (d f p : Z) (h : bool) (n : Z) (s : ISR_Timer)
  : ISR_Timer * Z :=
  let s := if numTimers s <? 0 then init now s else s in
  let freeTimer := findFirstFreeSlot s in
  if freeTimer <? 0 then (s, -1)
  else if f =? NULL then (s, -1)
  else
    let i := Z.to_nat freeTimer in
    let s := upd i (set_delay d) s in
    let s := upd i (set_callback f) s in
    let s := upd i (set_param p) s in
    let s := upd i (set_hasParam h) s in
    let s := upd i (set_maxNumRuns n) s in
    let s := upd i (set_enabled true) s in
    let s := upd i (set_prev_millis now) s in
    (set_numTimers (numTimers s + 1) s, freeTimer).

Definition setTimer (now d f n : Z) (s : ISR_Timer) : ISR_Timer * Z :=
  setupTimer now d f NULL false n s.
Definition setTimer_p (now d f p n : Z) (s : ISR_Timer) : ISR_Timer * Z :=
  setupTimer now d f p true n s.
Definition setInterval (now d f : Z) (s : ISR_Timer) : ISR_Timer * Z :=
  setupTimer now d f NULL false TIMER_RUN_FOREVER s.
Definition setInterval_p (now d f p : Z) (s : ISR_Timer) : ISR_Timer * Z :=
  setupTimer now d f p true TIMER_RUN_FOREVER s.
Definition setTimeout (now d f : Z) (s : ISR_Timer) : ISR_Timer * Z :=
  setupTimer now d f NULL false TIMER_RUN_ONCE s.
Definition setTimeout_p (now d f p : Z) (s : ISR_Timer) : ISR_Timer * Z :=
  setupTimer now d f p true TIMER_RUN_ONCE s.

(** The slot numbers the accessors take are [unsigned]: never negative.  The
    statements that depend on it say [0 <= id]. *)
Definition changeInterval (now : Z) (numTimer d : Z) (s : ISR_Timer)
  : ISR_Timer * bool :=
  if Z.of_nat MAX_NUMBER_TIMERS <=? numTimer then (s, false)
  else
    let i := Z.to_nat numTimer in
    if negb (callback (slot i s) =? NULL) then
      let s := upd i (set_delay d) s in
      let s := upd i (set_prev_millis now) s in
      (s, true)
    else (s, false).

Definition restartTimer (now : Z) (numTimer : Z) (s : ISR_Timer) : ISR_Timer :=
  if Z.of_nat MAX_NUMBER_TIMERS <=? numTimer then s
  else upd (Z.to_nat numTimer) (set_prev_millis now) s.

Definition isEnabled (numTimer : Z) (s : ISR_Timer) : bool :=
  if Z.of_nat MAX_NUMBER_TIMERS <=? numTimer then false
  else enabled (slot (Z.to_nat numTimer) s).

Definition enable (numTimer : Z) (s : ISR_Timer) : ISR_Timer :=
  if Z.of_nat MAX_NUMBER_TIMERS <=? numTimer then s
  else upd (Z.to_nat numTimer) (set_enabled true) s.

Definition disable (numTimer : Z) (s : ISR_Timer) : ISR_Timer :=
  if Z.of_nat MAX_NUMBER_TIMERS <=? numTimer then s
  else upd (Z.to_nat numTimer) (set_enabled false) s.

Definition enableAll (s : ISR_Timer) : ISR_Timer :=
  for_range
    (fun i s =>
       if negb (callback (slot i s) =? NULL)
          && (numRuns (slot i s) =? TIMER_RUN_FOREVER)
       then upd i (set_enabled true) s else s)
    0 MAX_NUMBER_TIMERS s.

Definition disableAll (s : ISR_Timer) : ISR_Timer :=
  for_range
    (fun i s =>
       if negb (callback (slot i s) =? NULL)
          && (numRuns (slot i s) =? TIMER_RUN_FOREVER)
       then upd i (set_enabled false) s else s)
    0 MAX_NUMBER_TIMERS s.

Definition toggle (numTimer : Z) (s : ISR_Timer) : ISR_Timer :=
  if Z.of_nat MAX_NUMBER_TIMERS <=? numTimer then s
  else
    let i := Z.to_nat numTimer in
    upd i (set_enabled (negb (enabled (slot i s)))) s.

(** [return numTimers;] from a function returning [unsigned]: the [int] is
    converted. *)
Definition getNumTimers (s : ISR_Timer) : Z := wrapU (numTimers s).

(** ** Callers of the scheduler *)

(** The operations that change the object, as a caller (the application, or a
    callback) may invoke them.  The [set...] registration functions all go
    through [setupTimer]. *)
Inductive api_call :=
| CallInit
| CallSetupTimer (d f p : Z) (h : bool) (n : Z)
| CallChangeInterval (numTimer d : Z)
| CallDeleteTimer (timerId : Z)
| CallRestartTimer (numTimer : Z)
| CallEnable (numTimer : Z)
| CallDisable (numTimer : Z)
| CallToggle (numTimer : Z)
| CallEnableAll
| CallDisableAll.

Definition exec_call (now : Z) (c : api_call) (s : ISR_Timer) : ISR_Timer :=
  match c with
  | CallInit => init now s
  | CallSetupTimer d f p h n => fst (setupTimer now d f p h n s)
  | CallChangeInterval numTimer d => fst (changeInterval now numTimer d s)
  | CallDeleteTimer timerId => deleteTimer now timerId s
  | CallRestartTimer numTimer => restartTimer now numTimer s
  | CallEnable numTimer => enable numTimer s
  | CallDisable numTimer => disable numTimer s
  | CallToggle numTimer => toggle numTimer s
  | CallEnableAll => enableAll s
  | CallDisableAll => disableAll s
  end.

Definition api_step (s s' : ISR_Timer) : Prop :=
  exists now c, s' = exec_call now c s.

(** A callback reaches the scheduler, a private object, through its public
    operations only ([run] is not re-entered). *)
Definition callbacks_use_api : Prop :=
  forall f a w s, rtc api_step s (snd (invoke f a w s)).

(** The callbacks leave the scheduler alone. *)
Definition callbacks_keep_scheduler : Prop :=
  forall f a w s, snd (invoke f a w s) = s.

(** The states a program reaches once [init] has run. *)
Inductive reachable : ISR_Timer -> Prop :=
| reachable_init now mem :
    length mem = MAX_NUMBER_TIMERS ->
    reachable (init now (Portenta_H7_ISR_Timer mem))
| reachable_call now c s :
    reachable s -> reachable (exec_call now c s)
| reachable_run w s w' s' tr :
    reachable s -> run w s = Ok (w', s', tr) -> reachable s'.

(** The states in which a program registers a timer: the reachable ones, and
    the object as constructed, on which [setupTimer] runs [init] itself. *)
Definition registrable (s : ISR_Timer) : Prop :=
  reachable s \/
  exists mem, length mem = MAX_NUMBER_TIMERS /\ s = Portenta_H7_ISR_Timer mem.

(** A registration request: the clock at the call and the arguments. *)
Record request := mk_request {
  rq_now : Z;
  rq_d : Z;
  rq_f : Z;
  rq_p : Z;
  rq_h : bool;
  rq_n : Z
}.

Definition register (r : request) (s : ISR_Timer) : ISR_Timer * Z :=
  setupTimer (rq_now r) (rq_d r) (rq_f r) (rq_p r) (rq_h r) (rq_n r) s.

(** Registrations in a row; the returned slot numbers in call order. *)
Fixpoint register_all (rs : list request) (s : ISR_Timer) : ISR_Timer * list Z :=
  match rs with
  | [] => (s, [])
  | r :: rs' =>
      let '(s1, id) := register r s in
      let '(s2, ids) := register_all rs' s1 in
      (s2, id :: ids)
  end.

(** Ticks in a row, with no other call in between: the world at each tick
    is given; the result is the final object and all the invocations made. *)
Fixpoint run_ticks (ws : list World) (s : ISR_Timer)
  : result (ISR_Timer * list call) :=
  match ws with
  | [] => Ok (s, [])
  | w :: ws' =>
      let* r := run w s in
      let* r' := run_ticks ws' (snd (fst r)) in
      Ok (fst r', snd r ++ snd r')
  end.

(** What a program does with the object from some moment on: ticks, and
    calls of the public operations in between. *)
Inductive event :=
| Tick (w : World)
| Call (now : Z) (c : api_call).

(** The events in order; the result is the final object and all the
    invocations that the ticks made. *)
Fixpoint run_events (es : list event) (s : ISR_Timer)
  : result (ISR_Timer * list call) :=
  match es with
  | [] => Ok (s, [])
  | Tick w :: es' =>
      let* r := run w s in
      let* r' := run_events es' (snd (fst r)) in
      Ok (fst r', snd r ++ snd r')
  | Call now c :: es' => run_events es' (exec_call now c s)
  end.

(** The clock at each tick of the events. *)
Fixpoint tick_clocks (es : list event) : list Z :=
  match es with
  | [] => []
  | Tick w :: es' => millis w :: tick_clocks es'
  | Call _ _ :: es' => tick_clocks es'
  end.

(** ** Predicates on states *)

Definition in_use (t : timer_t) : bool := negb (callback t =? NULL).

Fixpoint count_in_use (l : list timer_t) : nat :=
  match l with
  | [] => O
  | t :: l' => if in_use t then S (count_in_use l') else count_in_use l'
  end.

(** The array has its declared size, and [numTimers] counts the slots in use. *)
Definition consistent (s : ISR_Timer) : Prop :=
  length (timer s) = MAX_NUMBER_TIMERS /\
  numTimers s = Z.of_nat (count_in_use (timer s)).

(** Every timer in use has a period that [run] can divide by. *)
Definition periods_nonzero (s : ISR_Timer) : Prop :=
  forall i, (i < MAX_NUMBER_TIMERS)%nat ->
            in_use (slot i s) = true -> delay (slot i s) <> 0.

(** The invocations a trace holds for slot [i]. *)
Definition calls_of (i : nat) (tr : list call) : nat :=
  length (List.filter (fun c => Nat.eqb (call_slot c) i) tr).

(** Follows the spec's words, for one timer of period [P] seen on its own:
    it is due at a tick when the time elapsed since the baseline [base] is at
    least [P], and the baseline then advances by [P] times the number of whole
    periods elapsed.  The number of ticks of [nows] at which it is due. *)
Fixpoint due_ticks (P base : Z) (nows : list Z) : nat :=
  match nows with
  | [] => O
  | now :: rest =>
      let elapsed := wrapL (now - base) in
      if P <=? elapsed
      then S (due_ticks P (wrapL (base + P * (elapsed / P))) rest)
      else due_ticks P base rest
  end.

(** ** Definitions used in the statements and the proofs *)

(** What the first loop of [run] leaves in a slot it finds due. *)
Definition serviced (current_millis : Z) (t : timer_t) : timer_t :=
  let elapsed := wrapL (current_millis - prev_millis t) in
  let prev := wrapL (prev_millis t + wrapL (delay t * (elapsed / delay t))) in
  let runs := wrapU (numRuns t + 1) in
  if negb (enabled t) then
    set_prev_millis prev (set_toBeCalled TIMER_DEFCALL_DONTRUN t)
  else if maxNumRuns t =? TIMER_RUN_FOREVER then
    set_toBeCalled TIMER_DEFCALL_RUNONLY (set_prev_millis prev t)
  else if numRuns t <? maxNumRuns t then
    set_toBeCalled
      (if maxNumRuns t <=? runs then TIMER_DEFCALL_RUNANDDEL
       else TIMER_DEFCALL_RUNONLY)
      (set_numRuns runs (set_prev_millis prev t))
  else set_prev_millis prev (set_toBeCalled TIMER_DEFCALL_DONTRUN t).

(** What the loop of [enableAll] ([b] true) or [disableAll] ([b] false)
    does to a slot. *)
Definition flag_slot (b : bool) (t : timer_t) : timer_t :=
  if negb (callback t =? NULL) && (numRuns t =? TIMER_RUN_FOREVER)
  then set_enabled b t else t.

(** A slot after [memset] and the stamp of the clock. *)
Definition cleared (now : Z) : timer_t := set_prev_millis now zero_timer.

(** The assignments [setupTimer] makes to the slot it takes. *)
Definition filled (now d f p : Z) (h : bool) (n : Z) (t : timer_t) : timer_t :=
  set_prev_millis now
    (set_enabled true
       (set_maxNumRuns n
          (set_hasParam h (set_param p (set_callback f (set_delay d t)))))).

(** The first [k] slots are taken and the others are free. *)
Definition filled_up_to (k : nat) (s : ISR_Timer) : Prop :=
  consistent s /\ numTimers s = Z.of_nat k /\
  forall j, (j < MAX_NUMBER_TIMERS)%nat ->
            (callback (slot j s) <> NULL <-> (j < k)%nat).

(** The changes the public operations make to one slot: none, the [memset]
    and stamp of [init] and [deleteTimer], a new [prev_millis], a new
    [delay], a new [enabled], the assignments of a registration, and any
    sequence of these. *)
Inductive slot_step : timer_t -> timer_t -> Prop :=
| slot_step_same t : slot_step t t
| slot_step_cleared now t : slot_step t (cleared now)
| slot_step_prev_millis v t : slot_step t (set_prev_millis v t)
| slot_step_delay v t : slot_step t (set_delay v t)
| slot_step_enabled v t : slot_step t (set_enabled v t)
| slot_step_filled now d f p h n t :
    f <> NULL -> slot_step t (filled now d f p h n t)
| slot_step_trans t1 t2 t3 :
    slot_step t1 t2 -> slot_step t2 t3 -> slot_step t1 t3.

(** A mark is only on a slot that has a callback. *)
Definition marks_in_use (s : ISR_Timer) : Prop :=
  forall j, toBeCalled (slot j s) <> TIMER_DEFCALL_DONTRUN ->
            callback (slot j s) <> NULL.

(** What the second loop of [run] does with a slot that the first loop left
    as [t1], when no callback touches the object: the slot [t2] it leaves and
    the number of invocations it makes. *)
Definition dispatched_slot (t1 t2 : timer_t) (calls : nat) : Prop :=
  if toBeCalled t1 =? TIMER_DEFCALL_DONTRUN then t2 = t1 /\ calls = 0%nat
  else if toBeCalled t1 =? TIMER_DEFCALL_RUNANDDEL
       then (exists now, t2 = cleared now) /\ calls = 1%nat
       else t2 = t1 /\ calls = 1%nat.

(** The calls of a trace are the ones the slots of [s1] ask for. *)
Definition calls_from (s1 : ISR_Timer) (tr : list call) : Prop :=
  Forall (fun c => c = mk_call (call_slot c)
                               (callback (slot (call_slot c) s1))
                               (arg_of (slot (call_slot c) s1))) tr.

(** A timer that is registered, enabled and has made [k] of its [n] runs. *)
Definition running (f : Z) (a : option Z) (d n k base : Z) (t : timer_t) : Prop :=
  callback t = f /\ arg_of t = a /\ delay t = d /\ maxNumRuns t = n /\
  numRuns t = k /\ prev_millis t = base /\ enabled t = true.

(** The marks are three different values. *)
Definition marks_distinct : Prop :=
  TIMER_DEFCALL_RUNONLY <> TIMER_DEFCALL_DONTRUN /\
  TIMER_DEFCALL_RUNANDDEL <> TIMER_DEFCALL_DONTRUN /\
  TIMER_DEFCALL_RUNONLY <> TIMER_DEFCALL_RUNANDDEL.

(** The callbacks leave slot [i] as it is. *)
Definition callbacks_leave_slot (i : nat) : Prop :=
  forall f a w s, slot i (snd (invoke f a w s)) = slot i s.

(** The callbacks leave no timer in use with a period of zero. *)
Definition callbacks_keep_periods : Prop :=
  forall f a w s, periods_nonzero s -> periods_nonzero (snd (invoke f a w s)).

(** Along the events that start from [s], the calls made between the ticks
    leave slot [i] as it is and leave no timer in use with a period of
    zero. *)
Fixpoint calls_leave_slot (i : nat) (es : list event) (s : ISR_Timer) : Prop :=
  match es with
  | [] => True
  | Tick w :: es' =>
      match run w s with
      | Ok r => calls_leave_slot i es' (snd (fst r))
      | Fault _ => True
      end
  | Call now c :: es' =>
      slot i (exec_call now c s) = slot i s /\
      periods_nonzero (exec_call now c s) /\
      calls_leave_slot i es' (exec_call now c s)
  end.

(** Every call of the trace made for slot [i] is the call of [f] with
    argument [a]. *)
Definition calls_are (i : nat) (f : Z) (a : option Z) (tr : list call) : Prop :=
  Forall (fun c => call_slot c = i -> c = mk_call i f a) tr.

(** [setupTimer] does not write [numRuns]: it relies on the zero that
    [init] and [deleteTimer] leave in a free slot. *)
Definition fresh_free_slots (s : ISR_Timer) : Prop :=
  forall j, callback (slot j s) = NULL -> numRuns (slot j s) = 0.

(** The calls that initialise the object: [init], and a registration,
    which runs [init] when [numTimers] is negative. *)
Definition initialises (c : api_call) : bool :=
  match c with
  | CallInit | CallSetupTimer _ _ _ _ _ => true
  | _ => false
  end.

(** The states of an object in static storage, whose slots the loader has
    zeroed, as long as neither [init] nor a registration was called. *)
Inductive never_initialised : ISR_Timer -> Prop :=
| never_initialised_new mem :
    length mem = MAX_NUMBER_TIMERS ->
    Forall (fun t => callback t = NULL) mem ->
    never_initialised (Portenta_H7_ISR_Timer mem)
| never_initialised_call now c s :
    never_initialised s -> initialises c = false ->
    never_initialised (exec_call now c s)
| never_initialised_run w s w' s' tr :
    never_initialised s -> run w s = Ok (w', s', tr) ->
    never_initialised s'.

Definition untouched (s : ISR_Timer) : Prop :=
  numTimers s = -1 /\ length (timer s) = MAX_NUMBER_TIMERS /\
  forall j, callback (slot j s) = NULL.

(** ** Definitions for the further properties *)

(** A slot whose clock stamp is moved by [k] milliseconds. *)
Definition shift_clock (k : Z) (t : timer_t) : timer_t :=
  set_prev_millis (wrapL (prev_millis t + k)) t.

Definition result_map {A B : Type} (g : A -> B) (r : result A) : result B :=
  match r with
  | Ok a => Ok (g a)
  | Fault e => Fault e
  end.

(** ** A board for the examples

    Sixteen slots and 32-bit integers.  The clock is the whole world, and a
    callback takes one millisecond. *)

(** The function at address [2] calls [disable (0)]; the others leave the
    scheduler alone. *)
Definition example_invoke (f : Z) (a : option Z) (w : Z) (s : ISR_Timer)
  : Z * ISR_Timer :=
  if f =? 2 then (w + 1, upd 0 (set_enabled false) s) else (w + 1, s).

Definition quiet_invoke (f : Z) (a : option Z) (w : Z) (s : ISR_Timer)
  : Z * ISR_Timer := (w + 1, s).

(** Every function removes the timer of slot 0. *)
Definition self_deleting_invoke (f : Z) (a : option Z) (w : Z) (s : ISR_Timer)
  : Z * ISR_Timer :=
  (w + 1,
   if 16 <=? 0 then s
   else if numTimers s =? 0 then s
   else if negb (callback (slot 0 s) =? NULL)
        then set_numTimers (numTimers s - 1)
               (upd 0 (set_prev_millis w) (upd 0 (fun _ => zero_timer) s))
        else s).

(** Slot 0 holds a timer of period 10, last serviced at 100. *)
Definition example_timer (en : bool) : timer_t :=
  mk_timer 100 1 0 false 10 0 0 en 0.

Definition example_state (en : bool) : ISR_Timer :=
  mk_sched (example_timer en :: repeat zero_timer 15) 1.

(** The object right after [init] at time 0. *)
Definition empty_state : ISR_Timer :=
  mk_sched (repeat (mk_timer 0 0 0 false 0 0 0 false 0) 16) 0.

(** ** Slots and loops *)

Lemma slot_upd_eq i f s :
  (i < length (timer s))%nat -> slot i (upd i f s) = f (slot i s).
Proof. intros Hi. unfold slot, upd. simpl. by apply list_lookup_total_alter_eq. Qed.

Lemma slot_upd_ne i j f s : i <> j -> slot j (upd i f s) = slot j s.
Proof. intros Hij. unfold slot, upd. simpl. by apply list_lookup_total_alter_ne. Qed.

Lemma slot_upd i j f s :
  slot j (upd i f s) =
  if decide (i = j /\ (i < length (timer s))%nat) then f (slot i s) else slot j s.
Proof. unfold slot, upd. simpl. apply list_lookup_total_alter. Qed.

Lemma length_upd i f s : length (timer (upd i f s)) = length (timer s).
Proof. unfold upd. simpl. apply length_alter. Qed.

Lemma numTimers_upd i f s : numTimers (upd i f s) = numTimers s.
Proof. reflexivity. Qed.

Lemma upd_upd i f g s : upd i g (upd i f s) = upd i (fun t => g (f t)) s.
Proof. unfold upd. simpl. f_equal. apply list_alter_alter_eq. Qed.

Lemma upd_ext i f g s : f (slot i s) = g (slot i s) -> upd i f s = upd i g s.
Proof.
  intros Hfg. unfold upd. f_equal. apply list_alter_ext; [|done].
  intros x Hx. apply list_lookup_alt in Hx as [_ <-]. exact Hfg.
Qed.

Lemma upd_same i f s : f (slot i s) = slot i s -> upd i f s = s.
Proof.
  intros Hf. rewrite (upd_ext i f (fun t => t)) by exact Hf.
  destruct s as [l k]. unfold upd. simpl. f_equal. by apply list_alter_id.
Qed.

Lemma slot_beyond j s : (length (timer s) <= j)%nat -> slot j s = zero_timer.
Proof.
  intros Hj. unfold slot. rewrite list_lookup_total_alt.
  by rewrite lookup_ge_None_2.
Qed.

Lemma for_range_ext {S : Type} (b1 b2 : nat -> S -> S) n :
  (forall i s, b1 i s = b2 i s) ->
  forall i s, for_range b1 i n s = for_range b2 i n s.
Proof.
  intros Hb. induction n as [|n IH]; intros i s; simpl; [done|].
  by rewrite Hb, IH.
Qed.

(** A loop that rewrites each slot from its own content. *)
Lemma for_range_upd (g : nat -> timer_t -> timer_t) n : forall i s,
  let s' := for_range (fun i s => upd i (g i) s) i n s in
  numTimers s' = numTimers s /\
  length (timer s') = length (timer s) /\
  forall j, slot j s' =
            if decide ((i <= j < i + n)%nat /\ (j < length (timer s))%nat)
            then g j (slot j s) else slot j s.
Proof.
  induction n as [|n IH]; intros i s; simpl.
  - repeat split. intros j. case_decide; [lia|done].
  - destruct (IH (S i) (upd i (g i) s)) as (Hn & Hl & Hs).
    rewrite Hn, Hl, length_upd, numTimers_upd. repeat split.
    intros j. rewrite Hs, length_upd. rewrite !slot_upd.
    repeat case_decide; try done; try lia.
    all: destruct_and?; subst; try lia; try done.
    all: exfalso; naive_solver lia.
Qed.

(** A loop that rewrites each slot from its own content, and may fail. *)
Lemma for_result_upd (F : timer_t -> result timer_t) n : forall i s,
  match for_result (fun i s => let* t := F (slot i s) in Ok (upd i (fun _ => t) s))
                   i n s with
  | Ok s' =>
      numTimers s' = numTimers s /\
      length (timer s') = length (timer s) /\
      forall j, if decide ((i <= j < i + n)%nat /\ (j < length (timer s))%nat)
                then F (slot j s) = Ok (slot j s')
                else slot j s' = slot j s
  | Fault e => exists j, (i <= j < i + n)%nat /\ F (slot j s) = Fault e
  end.
Proof.
  induction n as [|n IH]; intros i s; simpl.
  - repeat split. intros j. case_decide; [lia|done].
  - destruct (F (slot i s)) as [t|e] eqn:HF; simpl.
    + specialize (IH (S i) (upd i (fun _ => t) s)).
      destruct (for_result _ (S i) n _) as [s'|e].
      * destruct IH as (Hn & Hl & Hs). rewrite Hn, Hl, length_upd, numTimers_upd.
        repeat split. intros j. specialize (Hs j). rewrite length_upd in Hs.
        rewrite slot_upd in Hs.
        repeat case_decide; try done; try lia.
        all: destruct_and?; subst; try lia; try congruence.
        all: try (exfalso; naive_solver lia).
      * destruct IH as (j & Hj & HF'). rewrite slot_upd in HF'.
        case_decide; [lia|]. exists j. split; [lia|done].
    + exists i. split; [lia|done].
Qed.

(** ** The scan phase of [run] *)

Lemma wrapL_range z : 0 <= wrapL z < 2 ^ Z.of_nat ULONG_BITS.
Proof. unfold wrapL. apply Z.mod_pos_bound. apply Z.pow_pos_nonneg; lia. Qed.

Lemma wrapU_range z : 0 <= wrapU z < 2 ^ Z.of_nat UINT_BITS.
Proof. unfold wrapU. apply Z.mod_pos_bound. apply Z.pow_pos_nonneg; lia. Qed.

Lemma wrapL_small z : 0 <= z < 2 ^ Z.of_nat ULONG_BITS -> wrapL z = z.
Proof. intros H. unfold wrapL. by apply Z.mod_small. Qed.

Lemma wrapU_small z : 0 <= z < 2 ^ Z.of_nat UINT_BITS -> wrapU z = z.
Proof. intros H. unfold wrapU. by apply Z.mod_small. Qed.

(** Whole periods fit in the elapsed time, so their product does not wrap. *)
Lemma periods_fit P e :
  0 < P -> P <= e -> e < 2 ^ Z.of_nat ULONG_BITS ->
  0 < P * (e / P) <= e /\ wrapL (P * (e / P)) = P * (e / P).
Proof.
  intros HP HPe He.
  assert (P * (e / P) <= e) by (apply Z.mul_div_le; lia).
  assert (1 <= e / P) by (apply Z.div_le_lower_bound; lia).
  split; [nia|]. apply wrapL_small. nia.
Qed.

Lemma scan_slot_free now t :
  callback t = NULL ->
  scan_slot now t = Ok (set_toBeCalled TIMER_DEFCALL_DONTRUN t).
Proof.
  intros Hc. unfold scan_slot. simpl. rewrite Hc. reflexivity.
Qed.

Lemma scan_slot_early now t :
  wrapL (now - prev_millis t) < delay t ->
  scan_slot now t = Ok (set_toBeCalled TIMER_DEFCALL_DONTRUN t).
Proof.
  intros He. unfold scan_slot. simpl.
  destruct (callback t =? NULL); simpl; [done|].
  destruct (Z.leb_spec (delay t) (wrapL (now - prev_millis t))); [lia|done].
Qed.

Lemma scan_slot_due now t :
  callback t <> NULL -> delay t <> 0 ->
  delay t <= wrapL (now - prev_millis t) ->
  scan_slot now t = Ok (serviced now t).
Proof.
  intros Hc Hd He. unfold scan_slot, serviced. simpl.
  destruct (Z.eqb_spec (callback t) NULL) as [|_]; [done|]. simpl.
  destruct (Z.leb_spec (delay t) (wrapL (now - prev_millis t))) as [_|]; [|lia].
  destruct (Z.eqb_spec (delay t) 0) as [|_]; [done|].
  destruct (enabled t); simpl; [|done].
  destruct (maxNumRuns t =? TIMER_RUN_FOREVER); [done|].
  destruct (numRuns t <? maxNumRuns t); [|done].
  destruct (maxNumRuns t <=? wrapU (numRuns t + 1)); done.
Qed.

Lemma scan_slot_zero_period now t :
  callback t <> NULL -> delay t = 0 -> scan_slot now t = Fault DivByZero.
Proof.
  intros Hc Hd. unfold scan_slot. simpl.
  destruct (Z.eqb_spec (callback t) NULL) as [|_]; [done|]. simpl.
  rewrite Hd. pose proof (wrapL_range (now - prev_millis t)).
  destruct (Z.leb_spec 0 (wrapL (now - prev_millis t))); [done|lia].
Qed.

Lemma scan_slot_fault now t e :
  scan_slot now t = Fault e ->
  e = DivByZero /\ callback t <> NULL /\ delay t = 0.
Proof.
  destruct (Z.eq_dec (callback t) NULL) as [Hc|Hc].
  { rewrite scan_slot_free by done. done. }
  destruct (Z.eq_dec (delay t) 0) as [Hd|Hd].
  { rewrite scan_slot_zero_period by done. intros [= <-]. done. }
  destruct (Z.lt_ge_cases (wrapL (now - prev_millis t)) (delay t)).
  - rewrite scan_slot_early by done. done.
  - rewrite scan_slot_due by done. done.
Qed.

(** The scan, slot by slot. *)
Lemma scan_slots now s :
  match scan now s with
  | Ok s' =>
      numTimers s' = numTimers s /\
      length (timer s') = length (timer s) /\
      forall j, if decide ((j < MAX_NUMBER_TIMERS)%nat /\ (j < length (timer s))%nat)
                then scan_slot now (slot j s) = Ok (slot j s')
                else slot j s' = slot j s
  | Fault e => exists j, (j < MAX_NUMBER_TIMERS)%nat /\ scan_slot now (slot j s) = Fault e
  end.
Proof.
  unfold scan.
  pose proof (for_result_upd (scan_slot now) MAX_NUMBER_TIMERS 0 s) as H.
  destruct (for_result _ 0 MAX_NUMBER_TIMERS s) as [s'|e].
  - destruct H as (Hn & Hl & Hs). repeat split; [done..|].
    intros j. specialize (Hs j). repeat case_decide; try done; exfalso; lia.
  - destruct H as (j & Hj & HF). exists j. split; [lia|done].
Qed.

Lemma scan_ok now s :
  periods_nonzero s -> exists s', scan now s = Ok s'.
Proof.
  intros Hp. pose proof (scan_slots now s) as H.
  destruct (scan now s) as [s'|e]; [by exists s'|].
  destruct H as (j & Hj & HF). apply scan_slot_fault in HF as (_ & Hc & Hd).
  exfalso. apply (Hp j Hj); [|done]. unfold in_use.
  by destruct (Z.eqb_spec (callback (slot j s)) NULL).
Qed.

Lemma scan_slot_at now s s' j :
  scan now s = Ok s' ->
  length (timer s) = MAX_NUMBER_TIMERS -> (j < MAX_NUMBER_TIMERS)%nat ->
  scan_slot now (slot j s) = Ok (slot j s').
Proof.
  intros Hs Hl Hj. pose proof (scan_slots now s) as H. rewrite Hs in H.
  destruct H as (_ & _ & H). specialize (H j). case_decide; [done|lia].
Qed.

(** ** Accessors and bounds checks *)

(** C7.  [changeInterval] returns [false] and leaves the object as it is when
    the id is out of range or the slot has no callback; otherwise it stores
    the new period in [delay], resets [prev_millis] to the current clock,
    changes no other field of the slot, no other slot and not [numTimers], and
    returns [true]. *)
Theorem changeInterval_spec now id d s :
  0 <= id ->
  length (timer s) = MAX_NUMBER_TIMERS ->
  (Z.of_nat MAX_NUMBER_TIMERS <= id \/ callback (slot (Z.to_nat id) s) = NULL ->
   changeInterval now id d s = (s, false)) /\
  (id < Z.of_nat MAX_NUMBER_TIMERS -> callback (slot (Z.to_nat id) s) <> NULL ->
   exists s',
     changeInterval now id d s = (s', true) /\
     slot (Z.to_nat id) s' = set_prev_millis now (set_delay d (slot (Z.to_nat id) s)) /\
     (forall j, j <> Z.to_nat id -> slot j s' = slot j s) /\
     length (timer s') = length (timer s) /\
     numTimers s' = numTimers s).
Proof.
  intros Hid Hl. unfold changeInterval. split.
  - intros [Hge|Hc].
    + destruct (Z.leb_spec (Z.of_nat MAX_NUMBER_TIMERS) id); [done|lia].
    + destruct (Z.of_nat MAX_NUMBER_TIMERS <=? id); [done|].
      rewrite Hc. reflexivity.
  - intros Hlt Hc.
    destruct (Z.leb_spec (Z.of_nat MAX_NUMBER_TIMERS) id); [lia|].
    destruct (Z.eqb_spec (callback (slot (Z.to_nat id) s)) NULL) as [|_]; [done|].
    simpl. eexists. split; [reflexivity|].
    rewrite upd_upd. repeat split.
    + rewrite slot_upd_eq by lia. reflexivity.
    + intros j Hj. by rewrite slot_upd_ne.
    + apply length_upd.
Qed.

(** C8.  With an id at or beyond the capacity, [isEnabled] answers [false]
    and [enable], [disable], [toggle], [restartTimer] and [deleteTimer]
    return the object unchanged; [deleteTimer] on a slot that is already free
    changes nothing either, [numTimers] included. *)
Theorem out_of_range_is_no_op now id s :
  (Z.of_nat MAX_NUMBER_TIMERS <= id ->
   isEnabled id s = false /\
   enable id s = s /\
   disable id s = s /\
   toggle id s = s /\
   restartTimer now id s = s /\
   deleteTimer now id s = s) /\
  (callback (slot (Z.to_nat id) s) = NULL ->
   deleteTimer now id s = s /\
   numTimers (deleteTimer now id s) = numTimers s).
Proof.
  split.
  - intros Hge.
    unfold isEnabled, enable, disable, toggle, restartTimer, deleteTimer.
    destruct (Z.leb_spec (Z.of_nat MAX_NUMBER_TIMERS) id); [done|lia].
  - intros Hc.
    assert (deleteTimer now id s = s) as ->; [|done].
    unfold deleteTimer.
    destruct (Z.of_nat MAX_NUMBER_TIMERS <=? id); [done|].
    destruct (numTimers s =? 0); [done|].
    rewrite Hc. reflexivity.
Qed.

(** [enableAll] and [disableAll] as loops that rewrite each slot. *)
Lemma flag_all_as_loop b s :
  (if b : bool then enableAll s else disableAll s) =
  for_range (fun i s => upd i (flag_slot b) s) 0 MAX_NUMBER_TIMERS s.
Proof.
  destruct b; unfold enableAll, disableAll; apply for_range_ext; intros i s0;
    unfold flag_slot;
    destruct (negb (callback (slot i s0) =? NULL)
              && (numRuns (slot i s0) =? TIMER_RUN_FOREVER)) eqn:E.
  all: try (apply upd_ext; by rewrite E).
  all: symmetry; apply upd_same; by rewrite E.
Qed.

Lemma flag_all_slots b s :
  let s' := if b : bool then enableAll s else disableAll s in
  numTimers s' = numTimers s /\
  length (timer s') = length (timer s) /\
  forall j, (j < MAX_NUMBER_TIMERS)%nat -> slot j s' = flag_slot b (slot j s).
Proof.
  cbv zeta. rewrite flag_all_as_loop.
  destruct (for_range_upd (fun _ => flag_slot b) MAX_NUMBER_TIMERS 0 s)
    as (Hn & Hl & Hs).
  repeat split; [done..|]. intros j Hj. rewrite Hs.
  case_decide as Hd; [done|]. by rewrite slot_beyond by lia.
Qed.

(** C4.  [enableAll] sets [enabled] to [true], and [disableAll] to [false],
    in exactly the slots that have a callback and whose [numRuns] (the counter
    of completed runs, not [maxNumRuns]) equals [TIMER_RUN_FOREVER]; every
    other slot, every other field and [numTimers] stay as they are. *)
Theorem enableAll_disableAll_on_numRuns s j :
  (j < MAX_NUMBER_TIMERS)%nat ->
  let chosen := negb (callback (slot j s) =? NULL)
              && (numRuns (slot j s) =? TIMER_RUN_FOREVER) in
  slot j (enableAll s) = (if chosen then set_enabled true (slot j s) else slot j s) /\
  slot j (disableAll s) = (if chosen then set_enabled false (slot j s) else slot j s) /\
  numTimers (enableAll s) = numTimers s /\
  numTimers (disableAll s) = numTimers s.
Proof.
  intros Hj.
  destruct (flag_all_slots true s) as (Hn1 & _ & Hs1).
  destruct (flag_all_slots false s) as (Hn2 & _ & Hs2).
  cbv zeta. rewrite Hs1, Hs2 by done. done.
Qed.

(** ** Counting the slots in use *)

Lemma in_use_true t : in_use t = true <-> callback t <> NULL.
Proof. unfold in_use. destruct (Z.eqb_spec (callback t) NULL); simpl; split; congruence. Qed.

Lemma in_use_false t : in_use t = false <-> callback t = NULL.
Proof. unfold in_use. destruct (Z.eqb_spec (callback t) NULL); simpl; split; congruence. Qed.

Lemma count_in_use_le l : (count_in_use l <= length l)%nat.
Proof. induction l as [|t l IH]; simpl; [lia|]. destruct (in_use t); lia. Qed.

Lemma count_in_use_ext l l' :
  length l = length l' ->
  (forall j, (j < length l)%nat -> in_use (l !!! j) = in_use (l' !!! j)) ->
  count_in_use l = count_in_use l'.
Proof.
  revert l'. induction l as [|t l IH]; intros [|t' l'] Hlen H; simpl in *; try lia.
  rewrite (IH l') by (try lia; intros j Hj; apply (H (S j)); lia).
  specialize (H O ltac:(lia)). simpl in H. by rewrite H.
Qed.

Lemma count_in_use_full l :
  (forall j, (j < length l)%nat -> in_use (l !!! j) = true) ->
  count_in_use l = length l.
Proof.
  induction l as [|t l IH]; intros H; simpl in *; [done|].
  pose proof (H O ltac:(lia)) as H0. simpl in H0. rewrite H0. f_equal. apply IH.
  intros j Hj. apply (H (S j)). lia.
Qed.

Lemma count_in_use_none l :
  (forall j, (j < length l)%nat -> in_use (l !!! j) = false) ->
  count_in_use l = O.
Proof.
  induction l as [|t l IH]; intros H; simpl in *; [done|].
  pose proof (H O ltac:(lia)) as H0. simpl in H0. rewrite H0. apply IH.
  intros j Hj. apply (H (S j)). lia.
Qed.

Lemma count_in_use_alter f i l :
  (i < length l)%nat ->
  Z.of_nat (count_in_use (alter f i l)) =
  Z.of_nat (count_in_use l) - Z.b2z (in_use (l !!! i)) + Z.b2z (in_use (f (l !!! i))).
Proof.
  revert i. induction l as [|t l IH]; intros [|i] Hi; simpl in *; try lia.
  - destruct (in_use t), (in_use (f t)); simpl; lia.
  - specialize (IH i ltac:(lia)).
    change (list_alter f i l) with (alter f i l).
    destruct (in_use t); lia.
Qed.

(** A slot in use somewhere means a positive count. *)
Lemma count_in_use_pos l i :
  (i < length l)%nat -> in_use (l !!! i) = true -> (0 < count_in_use l)%nat.
Proof.
  revert i. induction l as [|t l IH]; intros [|i] Hi Hu; simpl in *; try lia.
  - rewrite Hu. lia.
  - specialize (IH i ltac:(lia) Hu). destruct (in_use t); lia.
Qed.

Lemma consistent_bounds s :
  consistent s -> 0 <= numTimers s <= Z.of_nat MAX_NUMBER_TIMERS.
Proof.
  intros [Hl Hn]. pose proof (count_in_use_le (timer s)). lia.
Qed.

(** Rewriting a slot without touching its callback keeps the count. *)
Lemma consistent_upd i f s :
  (forall t, callback (f t) = callback t) ->
  consistent s -> consistent (upd i f s).
Proof.
  intros Hf [Hl Hn]. split; [by rewrite length_upd|].
  rewrite numTimers_upd, Hn. f_equal. symmetry.
  apply count_in_use_ext; unfold upd; simpl; [by rewrite length_alter|].
  intros j Hj. rewrite length_alter in Hj.
  rewrite list_lookup_total_alter. case_decide as Hd; [|done].
  destruct Hd as [-> _]. unfold in_use. by rewrite Hf.
Qed.

Lemma consistent_same_callbacks s s' :
  length (timer s') = length (timer s) ->
  numTimers s' = numTimers s ->
  (forall j, (j < MAX_NUMBER_TIMERS)%nat ->
             callback (slot j s') = callback (slot j s)) ->
  consistent s -> consistent s'.
Proof.
  intros Hlen Hnum Hcb [Hl Hn]. split; [lia|].
  rewrite Hnum, Hn. f_equal. apply count_in_use_ext; [done|].
  intros j Hj. unfold in_use. fold (slot j s) (slot j s').
  rewrite Hcb by lia. done.
Qed.

(** ** Initialisation, registration and removal, slot by slot *)

Lemma init_slots now s :
  numTimers (init now s) = 0 /\
  length (timer (init now s)) = length (timer s) /\
  forall j, (j < MAX_NUMBER_TIMERS)%nat -> (j < length (timer s))%nat ->
            slot j (init now s) = cleared now.
Proof.
  unfold init. cbv zeta.
  rewrite (for_range_ext _ (fun i s => upd i (fun _ => cleared now) s)).
  2:{ intros i s0. unfold memset_slot. by rewrite upd_upd. }
  destruct (for_range_upd (fun _ _ => cleared now) MAX_NUMBER_TIMERS 0 s)
    as (Hn & Hl & Hs).
  repeat split; [done|].
  intros j Hj Hj'. unfold set_numTimers, slot in *. simpl. rewrite Hs.
  case_decide; [done|lia].
Qed.

Lemma consistent_init now s :
  length (timer s) = MAX_NUMBER_TIMERS -> consistent (init now s).
Proof.
  intros Hl. destruct (init_slots now s) as (Hn & Hlen & Hs).
  split; [lia|]. rewrite Hn. rewrite count_in_use_none; [done|].
  intros j Hj. fold (slot j (init now s)). rewrite Hs by lia. done.
Qed.

Lemma first_free_from_spec n : forall i s,
  (first_free_from i n s = -1 /\
   forall j, (i <= j < i + n)%nat -> callback (slot j s) <> NULL) \/
  (exists k, first_free_from i n s = Z.of_nat k /\ (i <= k < i + n)%nat /\
             callback (slot k s) = NULL /\
             forall j, (i <= j < k)%nat -> callback (slot j s) <> NULL).
Proof.
  induction n as [|n IH]; intros i s; simpl.
  - left. split; [done|]. intros j Hj. lia.
  - destruct (Z.eqb_spec (callback (slot i s)) NULL) as [Hc|Hc].
    + right. exists i. repeat split; [lia..|done|]. intros j Hj. lia.
    + destruct (IH (S i) s) as [[Hr Hall]|(k & Hr & Hk & Hc' & Hlow)].
      * left. split; [done|]. intros j Hj.
        destruct (decide (j = i)) as [->|]; [done|]. apply Hall. lia.
      * right. exists k. repeat split; [done|lia..|done|]. intros j Hj.
        destruct (decide (j = i)) as [->|]; [done|]. apply Hlow. lia.
Qed.

(** In a consistent object that is not full, the search finds the lowest
    free slot. *)
Lemma findFirstFreeSlot_finds s :
  consistent s -> numTimers s < Z.of_nat MAX_NUMBER_TIMERS ->
  exists k, findFirstFreeSlot s = Z.of_nat k /\ (k < MAX_NUMBER_TIMERS)%nat /\
            callback (slot k s) = NULL /\
            forall j, (j < k)%nat -> callback (slot j s) <> NULL.
Proof.
  intros [Hl Hn] Hlt. unfold findFirstFreeSlot.
  destruct (Z.leb_spec (Z.of_nat MAX_NUMBER_TIMERS) (numTimers s)); [lia|].
  destruct (first_free_from_spec MAX_NUMBER_TIMERS 0 s)
    as [[_ Hall]|(k & Hr & Hk & Hc & Hlow)].
  - exfalso. rewrite (count_in_use_full (timer s)) in Hn; [lia|].
    intros j Hj. apply in_use_true. apply (Hall j). lia.
  - exists k. repeat split; [done|lia|done|]. intros j Hj. apply Hlow. lia.
Qed.

Lemma findFirstFreeSlot_full s :
  Z.of_nat MAX_NUMBER_TIMERS <= numTimers s -> findFirstFreeSlot s = -1.
Proof.
  intros H. unfold findFirstFreeSlot.
  destruct (Z.leb_spec (Z.of_nat MAX_NUMBER_TIMERS) (numTimers s)); [done|lia].
Qed.

Lemma findFirstFreeSlot_range s :
  findFirstFreeSlot s = -1 \/
  exists k, findFirstFreeSlot s = Z.of_nat k /\ (k < MAX_NUMBER_TIMERS)%nat /\
            callback (slot k s) = NULL.
Proof.
  unfold findFirstFreeSlot.
  destruct (Z.of_nat MAX_NUMBER_TIMERS <=? numTimers s); [by left|].
  destruct (first_free_from_spec MAX_NUMBER_TIMERS 0 s)
    as [[Hr _]|(k & Hr & Hk & Hc & _)]; [by left|].
  right. exists k. repeat split; [done|lia|done].
Qed.

(** [setupTimer] on an initialised object: either it fails and returns the
    object, or it fills the slot the search returned. *)
Lemma setupTimer_initialised now d f p h n s :
  0 <= numTimers s ->
  (setupTimer now d f p h n s = (s, -1) /\
   (findFirstFreeSlot s = -1 \/ f = NULL)) \/
  (exists k, findFirstFreeSlot s = Z.of_nat k /\ f <> NULL /\
             setupTimer now d f p h n s =
             (set_numTimers (numTimers s + 1) (upd k (filled now d f p h n) s),
              Z.of_nat k)).
Proof.
  intros Hn. unfold setupTimer.
  destruct (Z.ltb_spec (numTimers s) 0); [lia|]. cbv zeta.
  destruct (findFirstFreeSlot_range s) as [Hr|(k & Hr & Hk & Hc)]; rewrite Hr.
  - left. simpl. by auto.
  - destruct (Z.ltb_spec (Z.of_nat k) 0); [lia|].
    destruct (Z.eqb_spec f NULL) as [Hf|Hf]; [left; by auto|].
    right. exists k. repeat split; [done|]. rewrite Nat2Z.id.
    rewrite !upd_upd. reflexivity.
Qed.

Lemma deleteTimer_in_use now i s :
  (i < MAX_NUMBER_TIMERS)%nat -> numTimers s <> 0 ->
  callback (slot i s) <> NULL ->
  deleteTimer now (Z.of_nat i) s =
  set_numTimers (numTimers s - 1) (upd i (fun _ => cleared now) s).
Proof.
  intros Hi Hn Hc. unfold deleteTimer.
  destruct (Z.leb_spec (Z.of_nat MAX_NUMBER_TIMERS) (Z.of_nat i)); [lia|].
  destruct (Z.eqb_spec (numTimers s) 0); [done|]. rewrite Nat2Z.id.
  destruct (Z.eqb_spec (callback (slot i s)) NULL); [done|]. simpl.
  unfold memset_slot. rewrite upd_upd. reflexivity.
Qed.

Lemma deleteTimer_cases now id s :
  deleteTimer now id s = s \/
  (numTimers s <> 0 /\ callback (slot (Z.to_nat id) s) <> NULL /\
   deleteTimer now id s =
   set_numTimers (numTimers s - 1) (upd (Z.to_nat id) (fun _ => cleared now) s)).
Proof.
  unfold deleteTimer.
  destruct (Z.of_nat MAX_NUMBER_TIMERS <=? id); [by left|].
  destruct (Z.eqb_spec (numTimers s) 0); [by left|].
  destruct (Z.eqb_spec (callback (slot (Z.to_nat id) s)) NULL); [by left|].
  right. repeat split; [done..|]. simpl.
  unfold memset_slot. rewrite upd_upd. reflexivity.
Qed.

Lemma slot_in_use_in_range i s :
  callback (slot i s) <> NULL -> (i < length (timer s))%nat.
Proof.
  intros Hc. destruct (Nat.lt_ge_cases i (length (timer s))); [done|].
  by rewrite slot_beyond in Hc.
Qed.

(** ** Registration *)

Lemma callback_filled now d f p h n t : callback (filled now d f p h n t) = f.
Proof. reflexivity. Qed.

Lemma consistent_fill now d f p h n k s :
  consistent s -> (k < MAX_NUMBER_TIMERS)%nat ->
  callback (slot k s) = NULL -> f <> NULL ->
  consistent (set_numTimers (numTimers s + 1) (upd k (filled now d f p h n) s)).
Proof.
  intros [Hl Hn] Hk Hc Hf. split; simpl; [by rewrite length_alter|].
  rewrite count_in_use_alter by lia. fold (slot k s).
  assert (in_use (slot k s) = false) as -> by by apply in_use_false.
  assert (in_use (filled now d f p h n (slot k s)) = true) as ->
    by by apply in_use_true.
  simpl. lia.
Qed.

Lemma consistent_setupTimer now d f p h n s :
  consistent s -> consistent (fst (setupTimer now d f p h n s)).
Proof.
  intros Hcons. pose proof (consistent_bounds s Hcons) as Hb.
  destruct (setupTimer_initialised now d f p h n s) as [[-> _]|(k & Hk & Hf & ->)];
    [lia|done|]. simpl.
  destruct (findFirstFreeSlot_range s) as [Hr|(k' & Hr & Hk' & Hc)]; [lia|].
  assert (k' = k) as -> by lia. by apply consistent_fill.
Qed.

Lemma filled_up_to_init now mem :
  length mem = MAX_NUMBER_TIMERS ->
  filled_up_to 0 (init now (Portenta_H7_ISR_Timer mem)).
Proof.
  intros Hl. destruct (init_slots now (Portenta_H7_ISR_Timer mem)) as (Hn & _ & Hs).
  split; [by apply consistent_init|]. split; [done|].
  intros j Hj. rewrite Hs by (simpl; lia). simpl. split; [done|lia].
Qed.

Lemma register_next r k s :
  filled_up_to k s -> (k < MAX_NUMBER_TIMERS)%nat -> rq_f r <> NULL ->
  exists s', register r s = (s', Z.of_nat k) /\ filled_up_to (S k) s'.
Proof.
  intros (Hcons & Hn & Hused) Hk Hf. unfold register.
  destruct (findFirstFreeSlot_finds s Hcons) as (k' & Hr & Hk' & Hc & Hlow); [lia|].
  assert (k' = k) as ->.
  { destruct (Nat.lt_trichotomy k' k) as [Hlt|[->|Hgt]]; [|done|].
    - exfalso. by apply (Hused k' Hk').
    - exfalso. apply (Hlow k Hgt). destruct (Z.eq_dec (callback (slot k s)) NULL); [done|].
      exfalso. assert (k < k)%nat by by apply Hused. lia. }
  destruct (setupTimer_initialised (rq_now r) (rq_d r) (rq_f r) (rq_p r) (rq_h r)
                                   (rq_n r) s) as [[_ [Hno|Hno]]|(k' & Hr' & _ & ->)];
    [lia|lia|done|].
  assert (k' = k) as -> by lia. eexists. split; [reflexivity|].
  destruct Hcons as [Hl Hcnt].
  split; [apply consistent_fill; done|]. split; [simpl; lia|].
  intros j Hj. change (slot j (set_numTimers ?v ?s)) with (slot j s).
  rewrite slot_upd. case_decide as Hd.
  - destruct Hd as [-> _]. rewrite callback_filled. split; [lia|done].
  - assert (j <> k) by (intros ->; apply Hd; split; [done|lia]).
    rewrite Hused by done. lia.
Qed.

Lemma register_full r k s :
  filled_up_to k s -> k = MAX_NUMBER_TIMERS -> register r s = (s, -1).
Proof.
  intros (Hcons & Hn & _) ->. unfold register.
  destruct (setupTimer_initialised (rq_now r) (rq_d r) (rq_f r) (rq_p r) (rq_h r)
                                   (rq_n r) s) as [[-> _]|(k' & Hr' & _ & _)];
    [lia|done|].
  rewrite findFirstFreeSlot_full in Hr' by lia. lia.
Qed.

Lemma register_all_next rs : forall k s,
  filled_up_to k s -> (k + length rs <= MAX_NUMBER_TIMERS)%nat ->
  Forall (fun r => rq_f r <> NULL) rs ->
  snd (register_all rs s) = map Z.of_nat (seq k (length rs)) /\
  filled_up_to (k + length rs) (fst (register_all rs s)).
Proof.
  induction rs as [|r rs IH]; intros k s Hk Hlen Hf; simpl in *.
  - rewrite Nat.add_0_r. done.
  - apply Forall_cons_1 in Hf as [Hr Hrs].
    destruct (register_next r k s Hk) as (s1 & -> & Hk1); [lia|done|].
    destruct (IH (S k) s1 Hk1) as [Hids Hfin]; [lia|done|].
    destruct (register_all rs s1) as [s2 ids]. simpl in *.
    rewrite Hids. split; [done|]. by replace (k + S (length rs))%nat
      with (S k + length rs)%nat by lia.
Qed.

(** C3.  From an initialised, empty object of capacity [MAX_NUMBER_TIMERS],
    registrations with non-null callbacks succeed one after the other and
    return [0], [1], ...: distinct numbers, each the lowest free slot at the
    time, since the slots below it are taken and it is free in the object it
    is applied to.  After [MAX_NUMBER_TIMERS] of them any further
    registration returns [-1] and the object unchanged. *)
Theorem registration_up_to_capacity now0 mem rs :
  length mem = MAX_NUMBER_TIMERS ->
  (length rs <= MAX_NUMBER_TIMERS)%nat ->
  Forall (fun r => rq_f r <> NULL) rs ->
  let s0 := init now0 (Portenta_H7_ISR_Timer mem) in
  let s := fst (register_all rs s0) in
  snd (register_all rs s0) = map Z.of_nat (seq 0 (length rs)) /\
  NoDup (snd (register_all rs s0)) /\
  numTimers s = Z.of_nat (length rs) /\
  (forall j, (j < MAX_NUMBER_TIMERS)%nat ->
             (callback (slot j s) <> NULL <-> (j < length rs)%nat)) /\
  (length rs = MAX_NUMBER_TIMERS -> forall r, register r s = (s, -1)).
Proof.
  intros Hmem Hlen Hf s0 s.
  destruct (register_all_next rs 0 s0) as [Hids Hfin];
    [by apply filled_up_to_init|lia|done|].
  simpl in Hfin. fold s in Hfin. split; [done|]. split.
  { rewrite Hids. apply NoDup_fmap_2; [apply Nat2Z.inj'|apply NoDup_seq]. }
  destruct Hfin as (Hcons & Hn & Hused). repeat split; [done|apply Hused; done..|].
  intros Hfull r. by apply (register_full r (length rs)).
Qed.

(** ** The count of slots in use is kept by every operation *)

Lemma for_result_inv {S : Type} (P : S -> Prop) (body : nat -> S -> result S) n :
  (forall i s s', P s -> body i s = Ok s' -> P s') ->
  forall i s s', P s -> for_result body i n s = Ok s' -> P s'.
Proof.
  intros Hbody. induction n as [|n IH]; intros i s s' HP; simpl.
  - by intros [= <-].
  - destruct (body i s) as [s1|e] eqn:Hb; simpl; [|done].
    apply IH. by apply (Hbody i s).
Qed.

Lemma for_result_ind {S : Type} (P : nat -> S -> Prop)
      (body : nat -> S -> result S) n :
  forall i s s',
    (forall j s s', (i <= j < i + n)%nat -> P j s -> body j s = Ok s' ->
                    P (Datatypes.S j) s') ->
    P i s -> for_result body i n s = Ok s' -> P (i + n)%nat s'.
Proof.
  induction n as [|n IH]; intros i s s' Hbody HP; simpl.
  - intros [= <-]. by rewrite Nat.add_0_r.
  - destruct (body i s) as [s1|e] eqn:Hb; simpl; [|done].
    intros Hrest. replace (i + Datatypes.S n)%nat with (Datatypes.S i + n)%nat by lia.
    apply (IH (Datatypes.S i) s1 s'); [|by apply (Hbody i s); [lia|..]|done].
    intros j s2 s3 Hj. apply Hbody. lia.
Qed.

Lemma scan_slot_fields now t t' :
  scan_slot now t = Ok t' ->
  callback t' = callback t /\ param t' = param t /\ hasParam t' = hasParam t /\
  delay t' = delay t /\ maxNumRuns t' = maxNumRuns t /\ enabled t' = enabled t.
Proof.
  unfold scan_slot. simpl.
  repeat (match goal with
          | |- context [if ?c then _ else _] => destruct c eqn:?
          end; simpl);
    intros [= <-]; done.
Qed.

Lemma consistent_scan now s s' :
  scan now s = Ok s' -> consistent s -> consistent s'.
Proof.
  intros Hs Hcons. pose proof (scan_slots now s) as H. rewrite Hs in H.
  destruct H as (Hn & Hl & Hslots).
  apply (consistent_same_callbacks s s'); [done..| |done].
  intros j Hj. specialize (Hslots j). destruct Hcons as [Hlen _].
  case_decide; [|lia]. by apply scan_slot_fields in Hslots as (-> & _).
Qed.

Lemma consistent_deleteTimer now id s :
  consistent s -> consistent (deleteTimer now id s).
Proof.
  intros Hcons. destruct (deleteTimer_cases now id s) as [->|(Hn & Hc & ->)]; [done|].
  pose proof (slot_in_use_in_range _ _ Hc) as Hi.
  destruct Hcons as [Hl Hcnt]. split; simpl; [by rewrite length_alter|].
  rewrite count_in_use_alter by done. fold (slot (Z.to_nat id) s).
  assert (in_use (slot (Z.to_nat id) s) = true) as -> by by apply in_use_true.
  simpl. lia.
Qed.

Lemma consistent_changeInterval now id d s :
  consistent s -> consistent (fst (changeInterval now id d s)).
Proof.
  intros Hcons. unfold changeInterval.
  destruct (Z.of_nat MAX_NUMBER_TIMERS <=? id); [done|].
  destruct (negb _); [|done]. simpl.
  by repeat apply consistent_upd.
Qed.

Lemma consistent_flag_all b s :
  consistent s -> consistent (if b : bool then enableAll s else disableAll s).
Proof.
  intros Hcons. destruct (flag_all_slots b s) as (Hn & Hl & Hs).
  apply (consistent_same_callbacks s); [done..| |done].
  intros j Hj. rewrite Hs by done. unfold flag_slot. by destruct (_ && _).
Qed.

Lemma consistent_exec_call now c s :
  consistent s -> consistent (exec_call now c s).
Proof.
  intros Hcons. destruct c; simpl.
  - apply consistent_init. by destruct Hcons.
  - by apply consistent_setupTimer.
  - by apply consistent_changeInterval.
  - by apply consistent_deleteTimer.
  - unfold restartTimer. destruct (_ <=? _); [done|]. by apply consistent_upd.
  - unfold enable. destruct (_ <=? _); [done|]. by apply consistent_upd.
  - unfold disable. destruct (_ <=? _); [done|]. by apply consistent_upd.
  - unfold toggle. destruct (_ <=? _); [done|]. by apply consistent_upd.
  - by apply (consistent_flag_all true).
  - by apply (consistent_flag_all false).
Qed.

Lemma consistent_api_steps s s' :
  rtc api_step s s' -> consistent s -> consistent s'.
Proof.
  induction 1 as [|s s1 s2 (now & c & ->) _ IH]; [done|].
  intros Hcons. apply IH. by apply consistent_exec_call.
Qed.

Lemma consistent_dispatch_slot i w s tr w' s' tr' :
  callbacks_use_api ->
  dispatch_slot i (w, s, tr) = Ok (w', s', tr') ->
  consistent s -> consistent s'.
Proof.
  intros Hapi. unfold dispatch_slot.
  destruct (toBeCalled (slot i s) =? TIMER_DEFCALL_DONTRUN); [by intros [= <- <- <-]|].
  destruct (callback (slot i s) =? NULL); [done|].
  set (arg := arg_of (slot i s)).
  pose proof (Hapi (callback (slot i s)) arg w s) as Hrtc.
  destruct (invoke (callback (slot i s)) arg w s) as [w1 s1]. simpl in Hrtc.
  intros Hd Hcons. pose proof (consistent_api_steps _ _ Hrtc Hcons) as Hc1.
  destruct (toBeCalled (slot i s1) =? TIMER_DEFCALL_RUNANDDEL);
    injection Hd as <- <- <-; [by apply consistent_deleteTimer|done].
Qed.

Lemma consistent_run w s w' s' tr :
  callbacks_use_api ->
  run w s = Ok (w', s', tr) -> consistent s -> consistent s'.
Proof.
  intros Hapi. unfold run. cbv zeta.
  destruct (scan (millis w) s) as [s1|e] eqn:Hscan; simpl; [|done].
  intros Hd Hcons. pose proof (consistent_scan _ _ _ Hscan Hcons) as Hc1.
  unfold dispatch in Hd.
  apply (for_result_inv (fun st => consistent (snd (fst st))) dispatch_slot
           MAX_NUMBER_TIMERS) in Hd; [done| |done].
  intros i [[w2 s2] tr2] [[w3 s3] tr3] HP Hb. simpl in *.
  by apply (consistent_dispatch_slot i w2 s2 tr2 w3 s3 tr3).
Qed.

(** C6.  In every state reached from [init] by registrations, ticks, removals,
    restarts, interval changes, enabling, disabling and toggling, one at a
    time or all at once (the callbacks a tick invokes using the object through
    these operations too), [numTimers] is the number of slots whose callback
    is not [NULL], and it never exceeds [MAX_NUMBER_TIMERS]. *)
Theorem numTimers_counts_slots_in_use s :
  callbacks_use_api ->
  reachable s ->
  numTimers s = Z.of_nat (count_in_use (timer s)) /\
  numTimers s <= Z.of_nat MAX_NUMBER_TIMERS.
Proof.
  intros Hapi Hreach.
  assert (Hcons : consistent s).
  { induction Hreach as [now mem Hl|now c s _ IH|w s w' s' tr _ IH Hrun].
    - by apply consistent_init.
    - by apply consistent_exec_call.
    - by apply (consistent_run w s w' s' tr). }
  split; [by destruct Hcons|]. by apply consistent_bounds.
Qed.

(** ** Division by a zero period *)

Lemma scan_zero_period now s i :
  length (timer s) = MAX_NUMBER_TIMERS -> (i < MAX_NUMBER_TIMERS)%nat ->
  callback (slot i s) <> NULL -> delay (slot i s) = 0 ->
  scan now s = Fault DivByZero.
Proof.
  intros Hl Hi Hc Hd. pose proof (scan_slots now s) as H.
  destruct (scan now s) as [s'|e] eqn:Hs.
  - pose proof (scan_slot_at now s s' i Hs Hl Hi) as Hok.
    by rewrite scan_slot_zero_period in Hok.
  - destruct H as (j & _ & HF). by apply scan_slot_fault in HF as (-> & _).
Qed.

Lemma scan_defined_iff now s :
  length (timer s) = MAX_NUMBER_TIMERS ->
  (exists s', scan now s = Ok s') <-> periods_nonzero s.
Proof.
  intros Hl. split; [|apply scan_ok].
  intros [s' Hs] i Hi Hu Hd. apply in_use_true in Hu.
  by rewrite (scan_zero_period now s i) in Hs.
Qed.

(** C9.  The division [elapsed / delay] of the scan has a divisor other than
    zero exactly when every slot in use has a period other than zero, and
    registration does not see to it: [setupTimer] takes a period of [0] with a
    callback that is not [NULL], returns the slot it filled, and the next
    [run] divides by zero. *)
Theorem zero_period_is_accepted_then_divides now f p h n s w :
  consistent s ->
  numTimers s < Z.of_nat MAX_NUMBER_TIMERS ->
  f <> NULL ->
  (exists k s',
     setupTimer now 0 f p h n s = (s', Z.of_nat k) /\
     (k < MAX_NUMBER_TIMERS)%nat /\
     callback (slot k s') = f /\
     delay (slot k s') = 0 /\
     run w s' = Fault DivByZero) /\
  (forall now' s'',
     length (timer s'') = MAX_NUMBER_TIMERS ->
     ((exists r, scan now' s'' = Ok r) <-> periods_nonzero s'')) /\
  (forall w' s'' i,
     length (timer s'') = MAX_NUMBER_TIMERS -> (i < MAX_NUMBER_TIMERS)%nat ->
     callback (slot i s'') <> NULL -> delay (slot i s'') = 0 ->
     run w' s'' = Fault DivByZero).
Proof.
  intros Hcons Hn Hf.
  split; [|split; [intros now' s''; apply scan_defined_iff|]].
  2:{ intros w' s'' i Hl Hi Hc Hd. unfold run. cbv zeta.
      by rewrite (scan_zero_period _ _ i). }
  pose proof (consistent_bounds s Hcons) as Hb.
  destruct (findFirstFreeSlot_finds s Hcons Hn) as (k & Hr & Hk & Hc & _).
  destruct (setupTimer_initialised now 0 f p h n s) as [[_ [Hno|Hno]]|(k' & Hr' & _ & Hs)];
    [lia|lia|done|].
  assert (k' = k) as -> by lia.
  destruct Hcons as [Hl _].
  eexists k, _. split; [exact Hs|]. split; [done|].
  change (slot k (set_numTimers ?v ?s)) with (slot k s).
  rewrite slot_upd_eq by lia. split; [done|]. split; [done|].
  unfold run. cbv zeta. rewrite (scan_zero_period _ _ k); try done.
  - simpl. by rewrite length_alter.
  - change (slot k (set_numTimers ?v ?s)) with (slot k s).
    rewrite slot_upd_eq by lia. done.
  - change (slot k (set_numTimers ?v ?s)) with (slot k s).
    rewrite slot_upd_eq by lia. done.
Qed.

(** ** What a caller can do to a slot *)

Lemma slot_step_upd i j f s :
  (forall t, slot_step t (f t)) -> slot_step (slot j s) (slot j (upd i f s)).
Proof.
  intros Hf. rewrite slot_upd. case_decide as Hd; [|constructor].
  destruct Hd as [-> _]. apply Hf.
Qed.

Lemma slot_step_init now s j : slot_step (slot j s) (slot j (init now s)).
Proof.
  unfold init. cbv zeta.
  rewrite (for_range_ext _ (fun i s => upd i (fun _ => cleared now) s)).
  2:{ intros i s0. unfold memset_slot. by rewrite upd_upd. }
  destruct (for_range_upd (fun _ _ => cleared now) MAX_NUMBER_TIMERS 0 s)
    as (_ & _ & Hs).
  change (slot j (set_numTimers ?v ?s)) with (slot j s). rewrite Hs.
  case_decide; constructor.
Qed.

Lemma slot_step_setupTimer now d f p h n s j :
  slot_step (slot j s) (slot j (fst (setupTimer now d f p h n s))).
Proof.
  unfold setupTimer.
  set (s0 := if numTimers s <? 0 then init now s else s).
  assert (H0 : slot_step (slot j s) (slot j s0)).
  { unfold s0. destruct (numTimers s <? 0); [apply slot_step_init|constructor]. }
  cbv zeta. destruct (findFirstFreeSlot s0 <? 0); [done|].
  destruct (Z.eqb_spec f NULL) as [|Hf]; [done|]. simpl.
  change (slot j (set_numTimers ?v ?s)) with (slot j s).
  rewrite !upd_upd. eapply slot_step_trans; [exact H0|].
  apply slot_step_upd. intros t. by apply (slot_step_filled now d f p h n).
Qed.

Lemma slot_step_deleteTimer now id s j :
  slot_step (slot j s) (slot j (deleteTimer now id s)).
Proof.
  destruct (deleteTimer_cases now id s) as [->|(_ & _ & ->)]; [constructor|].
  change (slot j (set_numTimers ?v ?s)) with (slot j s).
  apply slot_step_upd. intros t. constructor.
Qed.

Lemma slot_step_flag_all b s j :
  slot_step (slot j s) (slot j (if b : bool then enableAll s else disableAll s)).
Proof.
  rewrite flag_all_as_loop.
  destruct (for_range_upd (fun _ => flag_slot b) MAX_NUMBER_TIMERS 0 s)
    as (_ & _ & Hs).
  rewrite Hs. case_decide; [|constructor].
  unfold flag_slot. destruct (_ && _); constructor.
Qed.

Lemma slot_step_exec_call now c s j :
  slot_step (slot j s) (slot j (exec_call now c s)).
Proof.
  destruct c; simpl.
  - apply slot_step_init.
  - apply slot_step_setupTimer.
  - unfold changeInterval. destruct (_ <=? _); [constructor|].
    destruct (negb _); [|constructor]. simpl. rewrite upd_upd.
    apply slot_step_upd. intros t.
    eapply slot_step_trans; constructor.
  - apply slot_step_deleteTimer.
  - unfold restartTimer. destruct (_ <=? _); [constructor|].
    apply slot_step_upd. intros t. constructor.
  - unfold enable. destruct (_ <=? _); [constructor|].
    apply slot_step_upd. intros t. constructor.
  - unfold disable. destruct (_ <=? _); [constructor|].
    apply slot_step_upd. intros t. constructor.
  - unfold toggle. destruct (_ <=? _); [constructor|].
    apply slot_step_upd. intros t. constructor.
  - apply (slot_step_flag_all true).
  - apply (slot_step_flag_all false).
Qed.

Lemma slot_step_api_steps s s' j :
  rtc api_step s s' -> slot_step (slot j s) (slot j s').
Proof.
  induction 1 as [|s s1 s2 (now & c & ->) _ IH]; [constructor|].
  eapply slot_step_trans; [apply slot_step_exec_call|exact IH].
Qed.

(** With [TIMER_DEFCALL_DONTRUN] the zero that [memset] writes, no caller
    turns an unmarked slot into a marked one, nor leaves a mark on a slot
    without a callback. *)
Lemma slot_step_unmarked t t' :
  TIMER_DEFCALL_DONTRUN = 0 ->
  slot_step t t' ->
  toBeCalled t = TIMER_DEFCALL_DONTRUN -> toBeCalled t' = TIMER_DEFCALL_DONTRUN.
Proof. intros H0. induction 1; simpl; auto. Qed.

Lemma slot_step_marked_in_use t t' :
  TIMER_DEFCALL_DONTRUN = 0 ->
  slot_step t t' ->
  (toBeCalled t <> TIMER_DEFCALL_DONTRUN -> callback t <> NULL) ->
  (toBeCalled t' <> TIMER_DEFCALL_DONTRUN -> callback t' <> NULL).
Proof. intros H0. induction 1; simpl; auto. Qed.

(** ** The dispatch phase of [run] *)

Lemma for_result_total {S : Type} (P : nat -> S -> Prop)
      (body : nat -> S -> result S) n :
  forall i s,
    (forall j s, (i <= j < i + n)%nat -> P j s ->
                 exists s', body j s = Ok s' /\ P (Datatypes.S j) s') ->
    P i s -> exists s', for_result body i n s = Ok s' /\ P (i + n)%nat s'.
Proof.
  induction n as [|n IH]; intros i s Hbody HP; simpl.
  - exists s. by rewrite Nat.add_0_r.
  - destruct (Hbody i s) as (s1 & -> & HP1); [lia|done|]. simpl.
    replace (i + Datatypes.S n)%nat with (Datatypes.S i + n)%nat by lia.
    apply IH; [|done]. intros j s2 Hj. apply Hbody. lia.
Qed.

Lemma calls_of_app i tr tr' :
  calls_of i (tr ++ tr') = (calls_of i tr + calls_of i tr')%nat.
Proof. unfold calls_of. by rewrite List.filter_app, length_app. Qed.

Lemma calls_of_one i j f a :
  calls_of i [mk_call j f a] = if Nat.eqb j i then 1%nat else 0%nat.
Proof. unfold calls_of. simpl. by destruct (Nat.eqb j i). Qed.

Lemma dispatch_slot_skip i w s tr :
  toBeCalled (slot i s) = TIMER_DEFCALL_DONTRUN ->
  dispatch_slot i (w, s, tr) = Ok (w, s, tr).
Proof. intros Hm. unfold dispatch_slot. rewrite Hm, Z.eqb_refl. done. Qed.

Lemma dispatch_slot_call i w s tr :
  toBeCalled (slot i s) <> TIMER_DEFCALL_DONTRUN ->
  callback (slot i s) <> NULL ->
  let arg := arg_of (slot i s) in
  let r := invoke (callback (slot i s)) arg w s in
  dispatch_slot i (w, s, tr) =
  Ok (fst r,
      if toBeCalled (slot i (snd r)) =? TIMER_DEFCALL_RUNANDDEL
      then deleteTimer (millis (fst r)) (Z.of_nat i) (snd r) else snd r,
      tr ++ [mk_call i (callback (slot i s)) arg]).
Proof.
  intros Hm Hc. unfold dispatch_slot.
  destruct (Z.eqb_spec (toBeCalled (slot i s)) TIMER_DEFCALL_DONTRUN); [done|].
  destruct (Z.eqb_spec (callback (slot i s)) NULL); [done|]. cbv zeta.
  destruct (invoke _ _ w s) as [w1 s1]. simpl.
  by destruct (toBeCalled (slot i s1) =? TIMER_DEFCALL_RUNANDDEL).
Qed.

(** A dispatch step adds to the trace at most one call, for its own slot. *)
Lemma dispatch_slot_trace j w s tr w' s' tr' :
  dispatch_slot j (w, s, tr) = Ok (w', s', tr') ->
  tr' = tr \/ exists f a, tr' = tr ++ [mk_call j f a].
Proof.
  unfold dispatch_slot.
  destruct (_ =? TIMER_DEFCALL_DONTRUN); [intros [= <- <- <-]; by left|].
  destruct (_ =? NULL); [done|].
  destruct (invoke _ _ w s) as [w1 s1].
  destruct (_ =? TIMER_DEFCALL_RUNANDDEL); intros [= <- <- <-]; right; eauto.
Qed.

(** One tick invokes the callback of a slot once at most. *)
Lemma run_calls_at_most_once w s w' s' tr i :
  run w s = Ok (w', s', tr) -> (calls_of i tr <= 1)%nat.
Proof.
  unfold run. cbv zeta. destruct (scan (millis w) s) as [s1|e]; simpl; [|done].
  unfold dispatch. intros Hd.
  apply (for_result_ind
           (fun j st => (calls_of i (snd st) <= if Nat.ltb i j then 1 else 0)%nat)
           dispatch_slot MAX_NUMBER_TIMERS 0) in Hd.
  - simpl in Hd. destruct (Nat.ltb i _); lia.
  - intros j [[w2 s2] tr2] [[w3 s3] tr3] _ HP Hb. simpl in *.
    apply dispatch_slot_trace in Hb as [->|(f & a & ->)].
    + destruct (Nat.ltb_spec i j), (Nat.ltb_spec i (S j)); lia.
    + rewrite calls_of_app, calls_of_one.
      destruct (Nat.eqb_spec j i), (Nat.ltb_spec i j), (Nat.ltb_spec i (S j)); lia.
  - simpl. unfold calls_of. simpl. lia.
Qed.

(** C1.  In the scan phase of [run], a slot in use whose elapsed time,
    the wrapping difference [millis () - prev_millis], has reached [delay]
    gets [prev_millis] advanced by exactly [delay * (elapsed / delay)], with
    the division of integers (the product does not wrap; the sum wraps as
    [unsigned long] does), and is marked at most once: the mark is one of the
    three deferred-call values, the run counter grows by one at most, and the
    tick invokes the callback of the slot once at most, however many periods
    have elapsed. *)
Theorem scan_advances_by_whole_periods now s i :
  length (timer s) = MAX_NUMBER_TIMERS ->
  periods_nonzero s ->
  (i < MAX_NUMBER_TIMERS)%nat ->
  callback (slot i s) <> NULL ->
  0 <= delay (slot i s) ->
  delay (slot i s) <= wrapL (now - prev_millis (slot i s)) ->
  exists s',
    scan now s = Ok s' /\
    let t := slot i s in
    let t' := slot i s' in
    let elapsed := wrapL (now - prev_millis t) in
    prev_millis t' = wrapL (prev_millis t + delay t * (elapsed / delay t)) /\
    wrapL (prev_millis t' - prev_millis t) = delay t * (elapsed / delay t) /\
    ((toBeCalled t' = TIMER_DEFCALL_DONTRUN /\ numRuns t' = numRuns t) \/
     (toBeCalled t' = TIMER_DEFCALL_RUNONLY /\
      (numRuns t' = numRuns t \/ numRuns t' = wrapU (numRuns t + 1))) \/
     (toBeCalled t' = TIMER_DEFCALL_RUNANDDEL /\
      numRuns t' = wrapU (numRuns t + 1))) /\
    (forall w w' s2 tr, run w s = Ok (w', s2, tr) -> (calls_of i tr <= 1)%nat).
Proof.
  intros Hl Hp Hi Hc Hd0 He.
  destruct (scan_ok now s Hp) as [s' Hs]. exists s'. split; [done|].
  pose proof (scan_slot_at now s s' i Hs Hl Hi) as Hslot.
  assert (Hd : delay (slot i s) <> 0).
  { apply Hp; [done|]. unfold in_use.
    by destruct (Z.eqb_spec (callback (slot i s)) NULL). }
  rewrite scan_slot_due in Hslot by done. injection Hslot as <-.
  set (t := slot i s) in *. cbv zeta.
  set (e := wrapL (now - prev_millis t)) in *.
  pose proof (wrapL_range (now - prev_millis t)) as Hr. fold e in Hr.
  destruct (periods_fit (delay t) e) as [Hfit Hw]; [lia..|].
  assert (Hprev : prev_millis (serviced now t) =
                  wrapL (prev_millis t + delay t * (e / delay t))).
  { unfold serviced. fold e. rewrite Hw.
    destruct (enabled t); simpl; [|done].
    destruct (maxNumRuns t =? TIMER_RUN_FOREVER); [done|].
    destruct (numRuns t <? maxNumRuns t); done. }
  split; [done|]. split.
  { rewrite Hprev. unfold wrapL. rewrite Zminus_mod_idemp_l.
    replace (prev_millis t + delay t * (e / delay t) - prev_millis t)
      with (delay t * (e / delay t)) by lia.
    apply Z.mod_small. lia. }
  split.
  2:{ intros w w' s2 tr Hrun. exact (run_calls_at_most_once w s w' s2 tr i Hrun). }
  unfold serviced. fold e.
  destruct (enabled t); simpl; [|by left].
  destruct (maxNumRuns t =? TIMER_RUN_FOREVER); simpl; [right; left; by auto|].
  destruct (numRuns t <? maxNumRuns t); simpl; [|by left].
  destruct (maxNumRuns t <=? wrapU (numRuns t + 1)); simpl.
  - right; right; by auto.
  - right; left; by auto.
Qed.

Lemma scan_slot_mark now t t' :
  scan_slot now t = Ok t' ->
  toBeCalled t' <> TIMER_DEFCALL_DONTRUN -> callback t' <> NULL.
Proof.
  intros H Hm. pose proof (scan_slot_fields _ _ _ H) as (Hc & _). rewrite Hc.
  intros Hnull. rewrite scan_slot_free in H by done. injection H as <-. done.
Qed.

Lemma marks_in_use_scan now s s' :
  TIMER_DEFCALL_DONTRUN = 0 ->
  length (timer s) = MAX_NUMBER_TIMERS ->
  scan now s = Ok s' -> marks_in_use s'.
Proof.
  intros H0 Hl Hs j. pose proof (scan_slots now s) as H. rewrite Hs in H.
  destruct H as (_ & Hlen & Hslots). specialize (Hslots j).
  case_decide as Hd.
  - exact (scan_slot_mark _ _ _ Hslots).
  - rewrite slot_beyond by lia. simpl. by rewrite H0.
Qed.

Lemma marks_in_use_slot_steps s s' :
  TIMER_DEFCALL_DONTRUN = 0 ->
  (forall j, slot_step (slot j s) (slot j s')) ->
  marks_in_use s -> marks_in_use s'.
Proof.
  intros H0 Hstep Hm j. by apply (slot_step_marked_in_use _ _ H0 (Hstep j)), Hm.
Qed.

(** The slot-wise effect of one dispatch step, when the callbacks go through
    the public operations. *)
Lemma slot_step_dispatch_slot i w s tr w' s' tr' j :
  callbacks_use_api ->
  dispatch_slot i (w, s, tr) = Ok (w', s', tr') ->
  slot_step (slot j s) (slot j s').
Proof.
  intros Hapi. unfold dispatch_slot.
  destruct (toBeCalled (slot i s) =? TIMER_DEFCALL_DONTRUN);
    [intros [= <- <- <-]; constructor|].
  destruct (callback (slot i s) =? NULL); [done|].
  set (arg := arg_of (slot i s)).
  pose proof (Hapi (callback (slot i s)) arg w s) as Hrtc.
  destruct (invoke (callback (slot i s)) arg w s) as [w1 s1]. simpl in Hrtc.
  apply (slot_step_api_steps _ _ j) in Hrtc.
  destruct (toBeCalled (slot i s1) =? TIMER_DEFCALL_RUNANDDEL);
    intros [= <- <- <-]; [|done].
  eapply slot_step_trans; [exact Hrtc|apply slot_step_deleteTimer].
Qed.

(** With every period other than zero and callbacks that go through the
    public operations, a tick runs to its end. *)
Lemma run_defined w s :
  callbacks_use_api ->
  TIMER_DEFCALL_DONTRUN = 0 ->
  length (timer s) = MAX_NUMBER_TIMERS ->
  periods_nonzero s ->
  exists w' s' tr, run w s = Ok (w', s', tr).
Proof.
  intros Hapi H0 Hl Hp. unfold run. cbv zeta.
  destruct (scan_ok (millis w) s Hp) as [s1 Hs]. rewrite Hs. simpl.
  pose proof (marks_in_use_scan _ _ _ H0 Hl Hs) as Hm.
  destruct (for_result_total (fun _ st => marks_in_use (snd (fst st)))
              dispatch_slot MAX_NUMBER_TIMERS 0 (w, s1, []))
    as ([[w' s'] tr] & Hd & _); [|done|by exists w', s', tr].
  intros j [[w2 s2] tr2] _ HP. simpl in HP.
  destruct (dispatch_slot j (w2, s2, tr2)) as [[[w3 s3] tr3]|e] eqn:Hb.
  - eexists. split; [done|]. simpl.
    apply (marks_in_use_slot_steps s2); [done| |done].
    intros k. by apply (slot_step_dispatch_slot j w2 s2 tr2 w3 s3 tr3).
  - exfalso. revert Hb. unfold dispatch_slot.
    destruct (Z.eqb_spec (toBeCalled (slot j s2)) TIMER_DEFCALL_DONTRUN); [done|].
    destruct (Z.eqb_spec (callback (slot j s2)) NULL) as [Hc|Hc].
    { by apply HP in Hc. }
    destruct (invoke _ _ w2 s2) as [w1 s1'].
    by destruct (_ =? TIMER_DEFCALL_RUNANDDEL).
Qed.

Lemma dispatch_slot_defined j w s tr :
  marks_in_use s -> exists r, dispatch_slot j (w, s, tr) = Ok r.
Proof.
  intros Hm.
  destruct (Z.eq_dec (toBeCalled (slot j s)) TIMER_DEFCALL_DONTRUN) as [Hd|Hd].
  - rewrite dispatch_slot_skip by done. eauto.
  - rewrite dispatch_slot_call by auto. eauto.
Qed.

(** The time left over after the scan has advanced [prev_millis] is less
    than one period. *)
Lemma residual_elapsed now prev P :
  0 < P -> P <= wrapL (now - prev) ->
  let e := wrapL (now - prev) in
  wrapL (now - wrapL (prev + wrapL (P * (e / P)))) = e mod P.
Proof.
  intros HP He e. fold e in He.
  pose proof (wrapL_range (now - prev)) as Hr. fold e in Hr.
  destruct (periods_fit P e) as [Hfit ->]; [lia..|].
  unfold wrapL at 1 2. rewrite Zminus_mod_idemp_r.
  replace (now - (prev + P * (e / P))) with ((now - prev) - P * (e / P)) by lia.
  rewrite <- Zminus_mod_idemp_l. fold (wrapL (now - prev)). fold e.
  rewrite Z.mod_small by lia. rewrite (Z.mod_eq e P) by lia. done.
Qed.

(** An unmarked slot is not dispatched, whatever the callbacks of the other
    slots do through the public operations. *)
Lemma dispatch_unmarked w s i :
  callbacks_use_api ->
  TIMER_DEFCALL_DONTRUN = 0 ->
  marks_in_use s ->
  toBeCalled (slot i s) = TIMER_DEFCALL_DONTRUN ->
  exists w' s' tr, dispatch (w, s, []) = Ok (w', s', tr) /\ calls_of i tr = 0%nat.
Proof.
  intros Hapi H0 Hm Hi. unfold dispatch.
  destruct (for_result_total
              (fun _ st => marks_in_use (snd (fst st)) /\
                           toBeCalled (slot i (snd (fst st))) = TIMER_DEFCALL_DONTRUN /\
                           calls_of i (snd st) = 0%nat)
              dispatch_slot MAX_NUMBER_TIMERS 0 (w, s, []))
    as ([[w' s'] tr] & Hd & _ & _ & Htr); [|done|by exists w', s', tr].
  intros j [[w2 s2] tr2] _ (HP & Hi2 & Htr2). simpl in *.
  destruct (dispatch_slot_defined j w2 s2 tr2 HP) as [[[w3 s3] tr3] Hb].
  eexists. split; [exact Hb|]. simpl.
  assert (Hstep : forall k, slot_step (slot k s2) (slot k s3)).
  { intros k. by apply (slot_step_dispatch_slot j w2 s2 tr2 w3 s3 tr3). }
  split; [by apply (marks_in_use_slot_steps s2)|].
  split; [by apply (slot_step_unmarked _ _ H0 (Hstep i))|].
  destruct (decide (j = i)) as [->|Hji].
  - rewrite dispatch_slot_skip in Hb by done. by injection Hb as <- <- <-.
  - apply dispatch_slot_trace in Hb as [->|(f & a & ->)]; [done|].
    rewrite calls_of_app, calls_of_one, Htr2.
    by destruct (Nat.eqb_spec j i).
Qed.

(** C5.  A timer in use that is disabled is not dispatched by a tick.  The
    scan leaves its mark at [TIMER_DEFCALL_DONTRUN] and its [numRuns] as it
    was; when its elapsed time has reached [delay], [prev_millis] is advanced
    by [delay * skipTimes] all the same, so that less than one period is left
    over; the tick does not invoke its callback, and once enabled again a tick
    invokes it once at most. *)
Theorem disabled_timer_is_not_dispatched w s i :
  callbacks_use_api ->
  TIMER_DEFCALL_DONTRUN = 0 ->
  length (timer s) = MAX_NUMBER_TIMERS ->
  periods_nonzero s ->
  (i < MAX_NUMBER_TIMERS)%nat ->
  callback (slot i s) <> NULL ->
  0 <= delay (slot i s) ->
  enabled (slot i s) = false ->
  let t := slot i s in
  let now := millis w in
  let elapsed := wrapL (now - prev_millis t) in
  (exists s1,
     scan now s = Ok s1 /\
     toBeCalled (slot i s1) = TIMER_DEFCALL_DONTRUN /\
     numRuns (slot i s1) = numRuns t /\
     enabled (slot i s1) = false /\
     (delay t <= elapsed ->
      prev_millis (slot i s1) =
        wrapL (prev_millis t + delay t * (elapsed / delay t)) /\
      wrapL (now - prev_millis (slot i s1)) = elapsed mod delay t /\
      wrapL (now - prev_millis (slot i s1)) < delay t) /\
     (elapsed < delay t -> prev_millis (slot i s1) = prev_millis t)) /\
  (exists w' s' tr,
     run w s = Ok (w', s', tr) /\
     calls_of i tr = 0%nat /\
     forall w2 w3 s3 tr3,
       run w2 (enable (Z.of_nat i) s') = Ok (w3, s3, tr3) ->
       (calls_of i tr3 <= 1)%nat).
Proof.
  intros Hapi H0 Hl Hp Hi Hc Hd0 Hen t now elapsed.
  change (0 <= delay t) in Hd0. change (callback t <> NULL) in Hc.
  destruct (scan_ok now s Hp) as [s1 Hs].
  pose proof (scan_slot_at now s s1 i Hs Hl Hi) as Hslot. fold t in Hslot.
  assert (Hd : delay t <> 0).
  { apply Hp; [done|]. by apply in_use_true. }
  assert (Hmark : toBeCalled (slot i s1) = TIMER_DEFCALL_DONTRUN /\
                  numRuns (slot i s1) = numRuns t /\
                  enabled (slot i s1) = false /\
                  (delay t <= elapsed ->
                   prev_millis (slot i s1) =
                     wrapL (prev_millis t + wrapL (delay t * (elapsed / delay t)))) /\
                  (elapsed < delay t -> prev_millis (slot i s1) = prev_millis t)).
  { destruct (Z.lt_ge_cases elapsed (delay t)) as [Hlt|Hge].
    - rewrite scan_slot_early in Hslot by done. injection Hslot as <-.
      simpl. repeat split; try done; lia.
    - rewrite scan_slot_due in Hslot by done. injection Hslot as <-.
      assert (Hen' : enabled t = false) by exact Hen.
      unfold serviced. rewrite Hen'. simpl.
      repeat split; try done; lia. }
  destruct Hmark as (Hm & Hruns & Hen1 & Hdue & Hearly).
  split.
  - exists s1. do 4 (split; [done|]). split; [|done].
    intros Hge. rewrite (Hdue Hge).
    assert (Hres : wrapL (now - wrapL (prev_millis t
                                        + wrapL (delay t * (elapsed / delay t))))
                   = elapsed mod delay t)
      by (apply residual_elapsed; [lia|done]).
    destruct (periods_fit (delay t) elapsed) as [_ Hw];
      [lia|done|apply wrapL_range|].
    split; [by rewrite Hw|]. split; [done|].
    rewrite Hres. apply Z.mod_pos_bound. lia.
  - pose proof (marks_in_use_scan _ _ _ H0 Hl Hs) as Hmarks.
    destruct (dispatch_unmarked w s1 i Hapi H0 Hmarks Hm) as (w' & s' & tr & Hdisp & Htr).
    exists w', s', tr. unfold run. cbv zeta. fold now. rewrite Hs. simpl.
    repeat split; [done..|].
    intros w2 w3 s3 tr3 Hrun.
    exact (run_calls_at_most_once w2 (enable (Z.of_nat i) s') w3 s3 tr3 i Hrun).
Qed.

(** ** Ticks whose callbacks leave the scheduler alone *)

Lemma dispatch_keeping w s1 :
  callbacks_keep_scheduler ->
  consistent s1 ->
  (forall m, (m < MAX_NUMBER_TIMERS)%nat ->
             toBeCalled (slot m s1) <> TIMER_DEFCALL_DONTRUN ->
             callback (slot m s1) <> NULL) ->
  exists w' s' tr,
    dispatch (w, s1, []) = Ok (w', s', tr) /\
    consistent s' /\
    calls_from s1 tr /\
    forall m, (m < MAX_NUMBER_TIMERS)%nat ->
              dispatched_slot (slot m s1) (slot m s') (calls_of m tr).
Proof.
  intros Hkeep Hcons Hmarks. unfold dispatch.
  destruct (for_result_total
    (fun j st =>
       let s2 := snd (fst st) in
       let tr2 := snd st in
       consistent s2 /\
       calls_from s1 tr2 /\
       (forall m, (j <= m)%nat -> slot m s2 = slot m s1 /\ calls_of m tr2 = 0%nat) /\
       (forall m, (m < j)%nat ->
                  dispatched_slot (slot m s1) (slot m s2) (calls_of m tr2)))
    dispatch_slot MAX_NUMBER_TIMERS 0 (w, s1, []))
    as ([[w' s'] tr] & Hd & Hc' & Hfrom & _ & Hlow).
  - intros j [[w2 s2] tr2] Hj (Hc2 & Hfrom & Hhigh & Hlow). cbn [fst snd] in *.
    destruct (Hhigh j ltac:(lia)) as [Hslot Hcalls].
    destruct (Z.eq_dec (toBeCalled (slot j s1)) TIMER_DEFCALL_DONTRUN) as [Hm|Hm].
    + (* not marked: skipped *)
      rewrite dispatch_slot_skip by by rewrite Hslot.
      eexists. split; [done|]. cbn [fst snd].
      split; [done|]. split; [done|]. split.
      * intros m Hmj. apply Hhigh. lia.
      * intros m Hmj. destruct (decide (m = j)) as [->|]; [|apply Hlow; lia].
        unfold dispatched_slot. rewrite Hm, Z.eqb_refl. done.
    + (* marked: the callback is invoked *)
      assert (Hcb : callback (slot j s1) <> NULL) by (apply Hmarks; [lia|done]).
      rewrite dispatch_slot_call by by rewrite Hslot.
      rewrite Hkeep. cbv zeta.
      assert (Hfrom' : calls_from s1 (tr2 ++ [mk_call j (callback (slot j s2))
                                                (arg_of (slot j s2))])).
      { apply Forall_app. split; [done|]. apply Forall_singleton. simpl.
        by rewrite Hslot. }
      assert (Hother : forall m, m <> j ->
                calls_of m (tr2 ++ [mk_call j (callback (slot j s2))
                                           (arg_of (slot j s2))]) = calls_of m tr2).
      { intros m Hmj. rewrite calls_of_app, calls_of_one.
        destruct (Nat.eqb_spec j m); [congruence|lia]. }
      assert (Hown : calls_of j (tr2 ++ [mk_call j (callback (slot j s2))
                                                 (arg_of (slot j s2))]) = 1%nat).
      { rewrite calls_of_app, calls_of_one, Hcalls, Nat.eqb_refl. done. }
      destruct (Z.eqb_spec (toBeCalled (slot j s2)) TIMER_DEFCALL_RUNANDDEL) as [Hdel|Hdel].
      * (* and the timer is deleted *)
        eexists. split; [reflexivity|]. cbn [fst snd].
        split; [by apply consistent_deleteTimer|]. split; [exact Hfrom'|].
        assert (Hn : numTimers s2 <> 0).
        { destruct Hc2 as [Hl2 Hn2]. rewrite Hn2.
          assert (0 < count_in_use (timer s2))%nat; [|lia].
          apply (count_in_use_pos _ j); [lia|].
          apply in_use_true. fold (slot j s2). by rewrite Hslot. }
        rewrite deleteTimer_in_use by (try lia; try done; by rewrite Hslot).
        split.
        -- intros m Hmj. change (slot m (set_numTimers ?v ?s)) with (slot m s).
           rewrite slot_upd_ne by lia. rewrite Hother by lia. apply Hhigh. lia.
        -- intros m Hmj. change (slot m (set_numTimers ?v ?s)) with (slot m s).
           destruct (decide (m = j)) as [->|Hne].
           ++ rewrite Hown. destruct Hc2 as [Hl2 _]. rewrite slot_upd_eq by lia.
              unfold dispatched_slot. rewrite <- Hslot.
              destruct (Z.eqb_spec (toBeCalled (slot j s2)) TIMER_DEFCALL_DONTRUN);
                [by rewrite Hslot in *|].
              destruct (Z.eqb_spec (toBeCalled (slot j s2)) TIMER_DEFCALL_RUNANDDEL);
                [|done].
              split; [|done]. eexists. reflexivity.
           ++ rewrite slot_upd_ne by lia. rewrite Hother by done. apply Hlow. lia.
      * (* and the timer stays *)
        eexists. split; [reflexivity|]. cbn [fst snd].
        split; [done|]. split; [exact Hfrom'|]. split.
        -- intros m Hmj. rewrite Hother by lia. apply Hhigh. lia.
        -- intros m Hmj. destruct (decide (m = j)) as [->|Hne].
           ++ rewrite Hown. unfold dispatched_slot. rewrite <- Hslot.
              destruct (Z.eqb_spec (toBeCalled (slot j s2)) TIMER_DEFCALL_DONTRUN);
                [by rewrite Hslot in *|].
              destruct (Z.eqb_spec (toBeCalled (slot j s2)) TIMER_DEFCALL_RUNANDDEL);
                done.
           ++ rewrite Hother by done. apply Hlow. lia.
  - cbn [fst snd]. split; [done|]. split; [apply Forall_nil_2|].
    split; [intros m _; split; [done|reflexivity]|intros m Hm; lia].
  - exists w', s', tr. cbn [fst snd] in *.
    split; [done|]. split; [done|]. split; [done|].
    intros m Hm. apply Hlow. lia.
Qed.

Lemma run_keeping w s :
  callbacks_keep_scheduler ->
  consistent s -> periods_nonzero s ->
  exists w' s' tr s1,
    run w s = Ok (w', s', tr) /\
    consistent s' /\ periods_nonzero s' /\
    calls_from s1 tr /\
    forall m, (m < MAX_NUMBER_TIMERS)%nat ->
              scan_slot (millis w) (slot m s) = Ok (slot m s1) /\
              dispatched_slot (slot m s1) (slot m s') (calls_of m tr).
Proof.
  intros Hkeep Hcons Hp. unfold run. cbv zeta.
  destruct (scan_ok (millis w) s Hp) as [s1 Hs]. rewrite Hs. simpl.
  assert (Hl : length (timer s) = MAX_NUMBER_TIMERS) by by destruct Hcons.
  assert (Hscan : forall m, (m < MAX_NUMBER_TIMERS)%nat ->
                            scan_slot (millis w) (slot m s) = Ok (slot m s1)).
  { intros m Hm. by apply scan_slot_at. }
  destruct (dispatch_keeping w s1 Hkeep) as (w' & s' & tr & Hd & Hc' & Hfrom & Hslots).
  { by apply (consistent_scan (millis w) s). }
  { intros m Hm. apply (scan_slot_mark (millis w) (slot m s)). by apply Hscan. }
  exists w', s', tr, s1. split; [done|]. split; [done|]. split; [|split; [done|]].
  - intros m Hm Hu Hdelay. specialize (Hslots m Hm). specialize (Hscan m Hm).
    apply scan_slot_fields in Hscan as (Hcb & _ & _ & Hdl & _).
    apply in_use_true in Hu.
    assert (Hsame : slot m s' = slot m s1 \/ exists now, slot m s' = cleared now).
    { unfold dispatched_slot in Hslots.
      destruct (_ =? TIMER_DEFCALL_DONTRUN); [left; by destruct Hslots|].
      destruct (_ =? TIMER_DEFCALL_RUNANDDEL); [right|left]; by destruct Hslots. }
    destruct Hsame as [Hsame|[now Hsame]]; rewrite Hsame in *; [|done].
    apply (Hp m Hm); [|congruence]. apply in_use_true. congruence.
  - intros m Hm. split; [by apply Hscan|by apply Hslots].
Qed.

(** The scan of a timer that has runs left and is due: one more run, and the
    mark that deletes it when that run is the last. *)
Lemma scan_slot_running now f a d n k base t :
  f <> NULL -> d <> 0 -> n <> TIMER_RUN_FOREVER ->
  0 <= k < n -> n < 2 ^ Z.of_nat UINT_BITS ->
  running f a d n k base t ->
  d <= wrapL (now - base) ->
  exists t1,
    scan_slot now t = Ok t1 /\
    running f a d n (k + 1) (wrapL (base + d * (wrapL (now - base) / d))) t1 /\
    toBeCalled t1 = (if k + 1 <? n then TIMER_DEFCALL_RUNONLY
                     else TIMER_DEFCALL_RUNANDDEL).
Proof.
  intros Hf Hd Hn Hk Hn' (Hcb & Ha & Hdl & Hmax & Hruns & Hprev & Hen) Hdue.
  exists (serviced now t). split.
  { apply scan_slot_due; [congruence|congruence|]. by rewrite Hdl, Hprev. }
  unfold serviced. rewrite Hen, Hmax, Hruns, Hdl, Hprev. simpl.
  destruct (Z.eqb_spec n TIMER_RUN_FOREVER); [done|].
  destruct (Z.ltb_spec k n); [|lia].
  rewrite (wrapU_small (k + 1)) by lia.
  assert (Hbase : wrapL (base + wrapL (d * (wrapL (now - base) / d))) =
                  wrapL (base + d * (wrapL (now - base) / d))).
  { unfold wrapL at 1 2. by rewrite Zplus_mod_idemp_r. }
  destruct (Z.leb_spec n (k + 1)), (Z.ltb_spec (k + 1) n); try lia.
  all: unfold running, arg_of in *; simpl; rewrite Hbase; done.
Qed.

Lemma tick_running now f a d n k base t t1 t2 c :
  marks_distinct ->
  f <> NULL -> d <> 0 -> n <> TIMER_RUN_FOREVER ->
  0 <= k < n -> n < 2 ^ Z.of_nat UINT_BITS ->
  running f a d n k base t ->
  scan_slot now t = Ok t1 ->
  dispatched_slot t1 t2 c ->
  if d <=? wrapL (now - base)
  then c = 1%nat /\
       (if k + 1 <? n
        then running f a d n (k + 1)
                     (wrapL (base + d * (wrapL (now - base) / d))) t2
        else callback t2 = NULL)
  else c = 0%nat /\ running f a d n k base t2.
Proof.
  intros (HOD & HAD & HOA) Hf Hd Hn Hk Hn' Hrun Hscan Hdisp.
  destruct (Z.leb_spec d (wrapL (now - base))) as [Hdue|Hearly].
  - destruct (scan_slot_running now f a d n k base t) as (t1' & Hs & Hrun1 & Hmark);
      try done.
    rewrite Hs in Hscan. injection Hscan as ->.
    unfold dispatched_slot in Hdisp. rewrite Hmark in Hdisp.
    destruct (Z.ltb_spec (k + 1) n).
    + destruct (Z.eqb_spec TIMER_DEFCALL_RUNONLY TIMER_DEFCALL_DONTRUN); [done|].
      destruct (Z.eqb_spec TIMER_DEFCALL_RUNONLY TIMER_DEFCALL_RUNANDDEL); [done|].
      destruct Hdisp as [-> ->]. done.
    + destruct (Z.eqb_spec TIMER_DEFCALL_RUNANDDEL TIMER_DEFCALL_DONTRUN); [done|].
      rewrite Z.eqb_refl in Hdisp. destruct Hdisp as [[now' ->] ->]. done.
  - destruct Hrun as (Hcb & Ha & Hdl & Hmax & Hruns & Hprev & Hen).
    rewrite scan_slot_early in Hscan by by rewrite Hdl, Hprev.
    injection Hscan as <-. unfold dispatched_slot in Hdisp. simpl in Hdisp.
    rewrite Z.eqb_refl in Hdisp. destruct Hdisp as [-> ->].
    split; [done|]. unfold running, arg_of. simpl. done.
Qed.

Lemma tick_free now t t1 t2 c :
  callback t = NULL ->
  scan_slot now t = Ok t1 ->
  dispatched_slot t1 t2 c ->
  c = 0%nat /\ callback t2 = NULL.
Proof.
  intros Hcb Hscan Hdisp. rewrite scan_slot_free in Hscan by done.
  injection Hscan as <-. unfold dispatched_slot in Hdisp. simpl in Hdisp.
  rewrite Z.eqb_refl in Hdisp. by destruct Hdisp as [-> ->].
Qed.

(** ** The life of a timer with a finite number of runs *)

Lemma calls_from_calls_are s1 i f a tr :
  calls_from s1 tr ->
  callback (slot i s1) = f -> arg_of (slot i s1) = a ->
  calls_are i f a tr.
Proof.
  intros Hfrom Hf Ha. unfold calls_from, calls_are in *.
  eapply Forall_impl; [exact Hfrom|]. simpl.
  intros c Hc Hi. rewrite Hc. simpl. by rewrite Hi, Hf, Ha.
Qed.

Lemma arg_of_scan_slot now t t1 :
  scan_slot now t = Ok t1 -> callback t1 = callback t /\ arg_of t1 = arg_of t.
Proof.
  intros H. apply scan_slot_fields in H as (Hc & Hp & Hh & _).
  unfold arg_of. by rewrite Hc, Hp, Hh.
Qed.

Lemma calls_of_zero_calls_are i f a tr :
  calls_of i tr = 0%nat -> calls_are i f a tr.
Proof.
  induction tr as [|c tr IH]; intros H; [apply Forall_nil_2|].
  unfold calls_of in H. simpl in H.
  destruct (Nat.eqb_spec (call_slot c) i) as [Hc|Hc]; simpl in H; [lia|].
  apply Forall_cons. split; [done|]. by apply IH.
Qed.

Section Lifetime.

Variable i : nat.
Variable f : Z.
Variable a : option Z.
Variables d n : Z.

Hypothesis Hkeep : callbacks_keep_scheduler.
Hypothesis Hmarks : marks_distinct.
Hypothesis Hi : (i < MAX_NUMBER_TIMERS)%nat.
Hypothesis Hf : f <> NULL.
Hypothesis Hd : d <> 0.
Hypothesis Hforever : n <> TIMER_RUN_FOREVER.
Hypothesis Hn : n < 2 ^ Z.of_nat UINT_BITS.

(** Once the slot is free, ticks leave it free and make no call for it. *)
Lemma ticks_free ws : forall s,
  consistent s -> periods_nonzero s ->
  callback (slot i s) = NULL ->
  exists s' tr,
    run_ticks ws s = Ok (s', tr) /\
    calls_of i tr = 0%nat /\ calls_are i f a tr /\
    callback (slot i s') = NULL.
Proof using Hkeep Hi.
  induction ws as [|w ws IH]; intros s Hcons Hp Hfree; simpl.
  - exists s, []. repeat split; try done. apply Forall_nil_2.
  - destruct (run_keeping w s Hkeep Hcons Hp)
      as (w' & s1 & tr1 & sc & -> & Hc1 & Hp1 & Hfrom & Hslots). simpl.
    destruct (Hslots i Hi) as [Hscan Hdisp].
    destruct (tick_free _ _ _ _ _ Hfree Hscan Hdisp) as [Hcalls Hfree1].
    destruct (IH s1 Hc1 Hp1 Hfree1) as (s' & tr & -> & Hcalls' & Hare & Hfree'). simpl.
    exists s', (tr1 ++ tr). split; [done|].
    rewrite calls_of_app, Hcalls, Hcalls'. split; [done|]. split; [|done].
    apply Forall_app. split; [|done]. by apply calls_of_zero_calls_are.
Qed.

(** While it has runs left, each tick at which the timer is due makes one
    call for it, and the call that completes the count frees the slot. *)
Lemma ticks_running ws : forall s k base,
  consistent s -> periods_nonzero s ->
  running f a d n k base (slot i s) -> 0 <= k < n ->
  exists s' tr,
    run_ticks ws s = Ok (s', tr) /\
    calls_are i f a tr /\
    let c := Z.of_nat (calls_of i tr) in
    c = Z.min (n - k) (Z.of_nat (due_ticks d base (map millis ws))) /\
    (k + c < n -> exists base', running f a d n (k + c) base' (slot i s')) /\
    (k + c = n -> callback (slot i s') = NULL).
Proof using Hkeep Hmarks Hi Hf Hd Hforever Hn.
  induction ws as [|w ws IH]; intros s k base Hcons Hp Hrun Hk; simpl.
  - exists s, []. split; [done|]. split; [apply Forall_nil_2|].
    unfold calls_of. simpl. split; [lia|]. split; [|lia].
    intros _. exists base. by rewrite Z.add_0_r.
  - destruct (run_keeping w s Hkeep Hcons Hp)
      as (w' & s1 & tr1 & sc & -> & Hc1 & Hp1 & Hfrom & Hslots). simpl.
    destruct (Hslots i Hi) as [Hscan Hdisp].
    assert (Hare1 : calls_are i f a tr1).
    { pose proof (arg_of_scan_slot _ _ _ Hscan) as [Hcb Harg].
      pose proof Hrun as (Hf' & Ha' & _).
      apply (calls_from_calls_are sc); [done|congruence|congruence]. }
    pose proof (tick_running _ _ _ _ _ _ _ _ _ _ _ Hmarks Hf Hd Hforever Hk Hn
                             Hrun Hscan Hdisp) as Htick.
    destruct (Z.leb_spec d (wrapL (millis w - base))) as [Hdue|Hearly].
    + destruct Htick as [Hc Hnext].
      destruct (Z.ltb_spec (k + 1) n) as [Hmore|Hlast].
      * (* one more run made, others left *)
        destruct (IH s1 (k + 1) _ Hc1 Hp1 Hnext ltac:(lia))
          as (s' & tr & -> & Hare & Hcount & Hless & Hdone). simpl.
        exists s', (tr1 ++ tr). split; [done|].
        split; [by apply Forall_app|].
        rewrite calls_of_app, Hc. cbv zeta in *.
        split; [lia|]. split.
        -- intros Hlt. destruct Hless as [base' Hb]; [lia|]. exists base'.
           by replace (k + Z.of_nat (1 + calls_of i tr))
             with (k + 1 + Z.of_nat (calls_of i tr)) by lia.
        -- intros Heq. apply Hdone. lia.
      * (* the last run: the slot is free from now on *)
        destruct (ticks_free ws s1 Hc1 Hp1 Hnext)
          as (s' & tr & -> & Hzero & Hare & Hfree). simpl.
        exists s', (tr1 ++ tr). split; [done|].
        split; [by apply Forall_app|].
        rewrite calls_of_app, Hc, Hzero. cbv zeta.
        split; [lia|]. split; [lia|done].
    + destruct Htick as [Hc Hsame].
      destruct (IH s1 k base Hc1 Hp1 Hsame Hk)
        as (s' & tr & -> & Hare & Hcount & Hless & Hdone). simpl.
      exists s', (tr1 ++ tr). split; [done|].
      split; [by apply Forall_app|].
      rewrite calls_of_app, Hc. simpl. done.
Qed.

End Lifetime.

(** ** Free slots hold no completed runs *)

Lemma slot_step_fresh t t' :
  slot_step t t' ->
  (callback t = NULL -> numRuns t = 0) ->
  (callback t' = NULL -> numRuns t' = 0).
Proof. induction 1; simpl; auto. intros _ Hnull. by destruct H. Qed.

Lemma fresh_slot_steps s s' :
  (forall j, slot_step (slot j s) (slot j s')) ->
  fresh_free_slots s -> fresh_free_slots s'.
Proof. intros Hstep Hfresh j. apply (slot_step_fresh _ _ (Hstep j)), Hfresh. Qed.

Lemma fresh_init now mem :
  length mem = MAX_NUMBER_TIMERS ->
  fresh_free_slots (init now (Portenta_H7_ISR_Timer mem)).
Proof.
  intros Hl j _. destruct (init_slots now (Portenta_H7_ISR_Timer mem)) as (_ & Hlen & Hs).
  change (length (timer (Portenta_H7_ISR_Timer mem))) with (length mem) in *.
  destruct (Nat.lt_ge_cases j MAX_NUMBER_TIMERS).
  - rewrite Hs by lia. done.
  - rewrite slot_beyond by lia. done.
Qed.

Lemma fresh_scan now s s' :
  scan now s = Ok s' -> fresh_free_slots s -> fresh_free_slots s'.
Proof.
  intros Hs Hfresh j. pose proof (scan_slots now s) as H. rewrite Hs in H.
  destruct H as (_ & _ & Hslots). specialize (Hslots j).
  case_decide; [|rewrite Hslots; apply Hfresh].
  pose proof (scan_slot_fields _ _ _ Hslots) as (Hcb & _).
  intros Hnull. rewrite Hcb in Hnull.
  rewrite scan_slot_free in Hslots by done. injection Hslots as <-.
  simpl. by apply Hfresh.
Qed.

Lemma fresh_run w s w' s' tr :
  callbacks_use_api ->
  run w s = Ok (w', s', tr) -> fresh_free_slots s -> fresh_free_slots s'.
Proof.
  intros Hapi. unfold run. cbv zeta.
  destruct (scan (millis w) s) as [s1|e] eqn:Hscan; simpl; [|done].
  intros Hd Hfresh. pose proof (fresh_scan _ _ _ Hscan Hfresh) as Hf1.
  unfold dispatch in Hd.
  apply (for_result_inv (fun st => fresh_free_slots (snd (fst st))) dispatch_slot
           MAX_NUMBER_TIMERS) in Hd; [done| |done].
  intros i [[w2 s2] tr2] [[w3 s3] tr3] HP Hb. cbn [fst snd] in *.
  apply (fresh_slot_steps s2); [|done].
  intros j. by apply (slot_step_dispatch_slot i w2 s2 tr2 w3 s3 tr3).
Qed.

Lemma reachable_consistent_fresh s :
  callbacks_use_api -> reachable s -> consistent s /\ fresh_free_slots s.
Proof.
  intros Hapi Hreach.
  induction Hreach as [now mem Hl|now c s _ [IHc IHf]|w s w' s' tr _ [IHc IHf] Hrun].
  - split; [by apply consistent_init|by apply fresh_init].
  - split; [by apply consistent_exec_call|].
    apply (fresh_slot_steps s); [|done]. intros j. apply slot_step_exec_call.
  - split; [by apply (consistent_run w s w' s' tr)|by apply (fresh_run w s w' s' tr)].
Qed.

Lemma keep_scheduler_use_api : callbacks_keep_scheduler -> callbacks_use_api.
Proof. intros Hkeep g a w s. rewrite Hkeep. constructor. Qed.

(** A registration on the object as constructed is one on the object that
    [init] leaves. *)
Lemma setupTimer_lazy_init now d f p h n s :
  numTimers s < 0 ->
  setupTimer now d f p h n s = setupTimer now d f p h n (init now s).
Proof.
  intros Hneg. unfold setupTimer.
  destruct (Z.ltb_spec (numTimers s) 0); [|lia].
  destruct (init_slots now s) as (-> & _). reflexivity.
Qed.

Lemma registrable_reachable now d f p h n s :
  registrable s ->
  exists s0, reachable s0 /\
             setupTimer now d f p h n s = setupTimer now d f p h n s0.
Proof.
  intros [Hr|(mem & Hl & ->)]; [by exists s|].
  exists (init now (Portenta_H7_ISR_Timer mem)).
  split; [by apply reachable_init|]. by apply setupTimer_lazy_init.
Qed.

(** ** The life of a timer that the callbacks and the calls leave alone *)

Lemma periods_nonzero_scan now s s1 :
  length (timer s) = MAX_NUMBER_TIMERS ->
  scan now s = Ok s1 -> periods_nonzero s -> periods_nonzero s1.
Proof.
  intros Hl Hs Hp m Hm Hu.
  pose proof (scan_slot_at now s s1 m Hs Hl Hm) as H.
  apply scan_slot_fields in H as (Hcb & _ & _ & Hdl & _).
  rewrite Hdl. apply (Hp m Hm). apply in_use_true. apply in_use_true in Hu.
  congruence.
Qed.

Lemma periods_nonzero_deleteTimer now id s :
  periods_nonzero s -> periods_nonzero (deleteTimer now id s).
Proof.
  intros Hp. destruct (deleteTimer_cases now id s) as [->|(_ & _ & ->)]; [done|].
  intros m Hm. change (slot m (set_numTimers ?v ?s)) with (slot m s).
  rewrite slot_upd. case_decide; [|by apply Hp].
  intros Hu. unfold in_use in Hu. simpl in Hu. done.
Qed.

Lemma deleteTimer_other_slot now j i s :
  j <> i -> slot i (deleteTimer now (Z.of_nat j) s) = slot i s.
Proof.
  intros Hji.
  destruct (deleteTimer_cases now (Z.of_nat j) s) as [->|(_ & _ & ->)]; [done|].
  change (slot i (set_numTimers ?v ?s)) with (slot i s).
  rewrite Nat2Z.id. by rewrite slot_upd_ne.
Qed.

Section FramedLifetime.

Variable i : nat.

Hypothesis Hapi : callbacks_use_api.
Hypothesis H0 : TIMER_DEFCALL_DONTRUN = 0.
Hypothesis Hleave : callbacks_leave_slot i.
Hypothesis Hper : callbacks_keep_periods.
Hypothesis Hi : (i < MAX_NUMBER_TIMERS)%nat.

(** The second loop of [run], seen from slot [i]: whatever the callbacks of
    the other slots do through the public operations, slot [i] is dispatched
    as the scan left it. *)
Lemma dispatch_framed w s1 :
  consistent s1 -> periods_nonzero s1 -> marks_in_use s1 ->
  exists w' s' tr,
    dispatch (w, s1, []) = Ok (w', s', tr) /\
    consistent s' /\ periods_nonzero s' /\
    calls_are i (callback (slot i s1)) (arg_of (slot i s1)) tr /\
    dispatched_slot (slot i s1) (slot i s') (calls_of i tr).
Proof using Hapi H0 Hleave Hper Hi.
  intros Hcons Hp Hm. unfold dispatch.
  destruct (for_result_total
    (fun j st =>
       let s2 := snd (fst st) in
       let tr2 := snd st in
       consistent s2 /\ periods_nonzero s2 /\ marks_in_use s2 /\
       calls_are i (callback (slot i s1)) (arg_of (slot i s1)) tr2 /\
       ((j <= i)%nat -> slot i s2 = slot i s1 /\ calls_of i tr2 = 0%nat) /\
       ((i < j)%nat ->
        dispatched_slot (slot i s1) (slot i s2) (calls_of i tr2)))
    dispatch_slot MAX_NUMBER_TIMERS 0 (w, s1, []))
    as ([[w' s'] tr] & Hd & Hc' & Hp' & _ & Hare & _ & Hdone).
  - intros j [[w2 s2] tr2] Hj (Hc2 & Hp2 & Hm2 & Hare & Hbefore & Hafter).
    cbn [fst snd] in *.
    destruct (Z.eq_dec (toBeCalled (slot j s2)) TIMER_DEFCALL_DONTRUN)
      as [Hmark|Hmark].
    + (* not marked: skipped *)
      rewrite dispatch_slot_skip by done.
      eexists. split; [done|]. cbn [fst snd].
      split; [done|]. split; [done|]. split; [done|]. split; [done|]. split.
      * intros Hle. apply Hbefore. lia.
      * intros Hlt. destruct (decide (j = i)) as [->|Hne]; [|apply Hafter; lia].
        destruct (Hbefore ltac:(lia)) as [Hs Hc]. rewrite Hs in Hmark |- *.
        rewrite Hc. unfold dispatched_slot. rewrite Hmark, Z.eqb_refl. done.
    + (* marked: the callback is invoked *)
      assert (Hcb : callback (slot j s2) <> NULL) by by apply Hm2.
      rewrite dispatch_slot_call by done. cbv zeta.
      set (g := callback (slot j s2)). set (arg := arg_of (slot j s2)).
      pose proof (Hapi g arg w2 s2) as Hrtc.
      pose proof (Hleave g arg w2 s2) as Hfr.
      pose proof (Hper g arg w2 s2 Hp2) as Hp3.
      destruct (invoke g arg w2 s2) as [w3 s3]. cbn [fst snd] in *.
      assert (Hc3 : consistent s3) by by apply (consistent_api_steps s2).
      assert (Hm3 : marks_in_use s3).
      { apply (marks_in_use_slot_steps s2); [done| |done].
        intros m. by apply slot_step_api_steps. }
      set (s4 := if toBeCalled (slot j s3) =? TIMER_DEFCALL_RUNANDDEL
                 then deleteTimer (millis w3) (Z.of_nat j) s3 else s3).
      assert (Hc4 : consistent s4).
      { unfold s4. destruct (_ =? _); [by apply consistent_deleteTimer|done]. }
      assert (Hp4 : periods_nonzero s4).
      { unfold s4. destruct (_ =? _); [by apply periods_nonzero_deleteTimer|done]. }
      assert (Hm4 : marks_in_use s4).
      { unfold s4. destruct (_ =? _); [|done].
        apply (marks_in_use_slot_steps s3); [done| |done].
        intros m. apply slot_step_deleteTimer. }
      eexists. split; [reflexivity|]. cbn [fst snd].
      split; [done|]. split; [done|]. split; [done|].
      destruct (decide (j = i)) as [->|Hne].
      * (* the slot's own call *)
        destruct (Hbefore ltac:(lia)) as [Hs Hc].
        split.
        { apply Forall_app. split; [done|]. apply Forall_singleton.
          intros _. unfold g, arg. by rewrite Hs. }
        split; [intros Hle; lia|]. intros _.
        rewrite calls_of_app, calls_of_one, Hc, Nat.eqb_refl. simpl.
        unfold dispatched_slot. rewrite <- Hs.
        destruct (Z.eqb_spec (toBeCalled (slot i s2)) TIMER_DEFCALL_DONTRUN);
          [done|].
        unfold s4. rewrite Hfr.
        destruct (Z.eqb_spec (toBeCalled (slot i s2)) TIMER_DEFCALL_RUNANDDEL)
          as [Hdel|Hdel]; [|done].
        split; [|done]. exists (millis w3).
        assert (Hn3 : numTimers s3 <> 0).
        { destruct Hc3 as [Hl3 ->].
          assert (0 < count_in_use (timer s3))%nat; [|lia].
          apply (count_in_use_pos _ i); [lia|].
          apply in_use_true. fold (slot i s3). by rewrite Hfr. }
        rewrite deleteTimer_in_use by (try done; by rewrite Hfr).
        change (slot i (set_numTimers ?v ?s)) with (slot i s).
        destruct Hc3 as [Hl3 _]. by rewrite slot_upd_eq by lia.
      * (* the call of another slot *)
        split.
        { apply Forall_app. split; [done|]. apply Forall_singleton.
          simpl. intros Heq. done. }
        assert (Hsame : slot i s4 = slot i s2).
        { unfold s4. destruct (_ =? _); [rewrite deleteTimer_other_slot by done|];
            exact Hfr. }
        assert (Hcalls : calls_of i (tr2 ++ [mk_call j g arg]) = calls_of i tr2).
        { rewrite calls_of_app, calls_of_one.
          destruct (Nat.eqb_spec j i); [done|lia]. }
        rewrite Hsame, Hcalls. split.
        -- intros Hle. apply Hbefore. lia.
        -- intros Hlt. apply Hafter. lia.
  - cbn [fst snd]. split; [done|]. split; [done|]. split; [done|].
    split; [apply Forall_nil_2|].
    split; [intros _; split; [done|reflexivity]|intros Hlt; lia].
  - exists w', s', tr. cbn [fst snd] in *.
    split; [done|]. split; [done|]. split; [done|]. split; [done|].
    apply Hdone. lia.
Qed.

(** A tick, seen from slot [i]. *)
Lemma run_framed w s :
  consistent s -> periods_nonzero s ->
  exists w' s' tr s1,
    run w s = Ok (w', s', tr) /\
    consistent s' /\ periods_nonzero s' /\
    calls_are i (callback (slot i s1)) (arg_of (slot i s1)) tr /\
    scan_slot (millis w) (slot i s) = Ok (slot i s1) /\
    dispatched_slot (slot i s1) (slot i s') (calls_of i tr).
Proof using Hapi H0 Hleave Hper Hi.
  intros Hcons Hp. unfold run. cbv zeta.
  destruct (scan_ok (millis w) s Hp) as [s1 Hs]. rewrite Hs. simpl.
  assert (Hl : length (timer s) = MAX_NUMBER_TIMERS) by by destruct Hcons.
  destruct (dispatch_framed w s1)
    as (w' & s' & tr & Hd & Hc' & Hp' & Hare & Hdisp).
  { by apply (consistent_scan (millis w) s). }
  { by apply (periods_nonzero_scan (millis w) s). }
  { by apply (marks_in_use_scan (millis w) s). }
  exists w', s', tr, s1.
  split; [done|]. split; [done|]. split; [done|]. split; [done|].
  split; [by apply scan_slot_at|done].
Qed.

(** The step of the second loop of [run] on a slot marked for deletion:
    the callback is invoked, and right after it the slot is free, the counter
    is one less than the callback left it and [changeInterval] on the slot
    fails. *)
Lemma dispatch_slot_last_run w s tr :
  TIMER_DEFCALL_RUNANDDEL <> TIMER_DEFCALL_DONTRUN ->
  Z.of_nat MAX_NUMBER_TIMERS < 2 ^ Z.of_nat UINT_BITS ->
  consistent s ->
  toBeCalled (slot i s) = TIMER_DEFCALL_RUNANDDEL ->
  callback (slot i s) <> NULL ->
  exists w' s2 s',
    invoke (callback (slot i s)) (arg_of (slot i s)) w s = (w', s2) /\
    dispatch_slot i (w, s, tr) =
      Ok (w', s', tr ++ [mk_call i (callback (slot i s)) (arg_of (slot i s))]) /\
    s' = deleteTimer (millis w') (Z.of_nat i) s2 /\
    callback (slot i s') = NULL /\
    numTimers s' = numTimers s2 - 1 /\
    getNumTimers s' = getNumTimers s2 - 1 /\
    forall now d, changeInterval now (Z.of_nat i) d s' = (s', false).
Proof using Hapi Hleave Hi.
  intros HAD Hcap Hcons Hmark Hcb.
  rewrite dispatch_slot_call by (try done; by rewrite Hmark). cbv zeta.
  pose proof (Hapi (callback (slot i s)) (arg_of (slot i s)) w s) as Hrtc.
  pose proof (Hleave (callback (slot i s)) (arg_of (slot i s)) w s) as Hfr.
  destruct (invoke (callback (slot i s)) (arg_of (slot i s)) w s) as [w' s2].
  cbn [fst snd] in *. rewrite Hfr, Hmark, Z.eqb_refl.
  assert (Hc2 : consistent s2) by by apply (consistent_api_steps s).
  assert (Hpos : 0 < numTimers s2).
  { destruct Hc2 as [Hl ->].
    assert (0 < count_in_use (timer s2))%nat; [|lia].
    apply (count_in_use_pos _ i); [lia|].
    apply in_use_true. fold (slot i s2). by rewrite Hfr. }
  pose proof (consistent_bounds s2 Hc2) as Hb.
  exists w', s2, (deleteTimer (millis w') (Z.of_nat i) s2).
  split; [done|]. split; [done|]. split; [done|].
  rewrite deleteTimer_in_use by (try done; try lia; by rewrite Hfr).
  assert (Hnull : callback (slot i (set_numTimers (numTimers s2 - 1)
                    (upd i (fun _ => cleared (millis w')) s2))) = NULL).
  { change (slot i (set_numTimers ?v ?s)) with (slot i s).
    destruct Hc2 as [Hl _]. rewrite slot_upd_eq by lia. done. }
  split; [done|]. split; [done|]. split.
  - unfold getNumTimers. simpl. rewrite !wrapU_small by lia. done.
  - intros now d. unfold changeInterval.
    destruct (Z.leb_spec (Z.of_nat MAX_NUMBER_TIMERS) (Z.of_nat i)); [lia|].
    rewrite Nat2Z.id, Hnull. done.
Qed.

Variable f : Z.
Variable a : option Z.
Variables d n : Z.

Hypothesis Hmarks : marks_distinct.
Hypothesis Hf : f <> NULL.
Hypothesis Hd : d <> 0.
Hypothesis Hforever : n <> TIMER_RUN_FOREVER.
Hypothesis Hn : n < 2 ^ Z.of_nat UINT_BITS.

(** Once the slot is free, the events leave it free and make no call for
    it. *)
Lemma events_free es : forall s,
  consistent s -> periods_nonzero s -> calls_leave_slot i es s ->
  callback (slot i s) = NULL ->
  exists s' tr,
    run_events es s = Ok (s', tr) /\
    calls_of i tr = 0%nat /\ calls_are i f a tr /\
    callback (slot i s') = NULL.
Proof using Hapi H0 Hleave Hper Hi.
  induction es as [|[w|now c] es IH]; intros s Hcons Hp Hcalls Hfree; simpl.
  - exists s, []. repeat split; try done. apply Forall_nil_2.
  - destruct (run_framed w s Hcons Hp)
      as (w' & s1 & tr1 & sc & Hrun & Hc1 & Hp1 & _ & Hscan & Hdisp).
    simpl in Hcalls. rewrite Hrun in Hcalls |- *. simpl in Hcalls |- *.
    destruct (tick_free _ _ _ _ _ Hfree Hscan Hdisp) as [Hz Hfree1].
    destruct (IH s1 Hc1 Hp1 Hcalls Hfree1)
      as (s' & tr & -> & Hz' & Hare & Hfree'). simpl.
    exists s', (tr1 ++ tr). split; [done|].
    rewrite calls_of_app, Hz, Hz'. split; [done|]. split; [|done].
    apply Forall_app. split; [|done]. by apply calls_of_zero_calls_are.
  - simpl in Hcalls. destruct Hcalls as (Hsame & Hp1 & Hrest).
    apply IH; [by apply consistent_exec_call|done|done|by rewrite Hsame].
Qed.

(** While it has runs left, each tick at which the timer is due makes one
    call for it, and the call that completes the count frees the slot. *)
Lemma events_running es : forall s k base,
  consistent s -> periods_nonzero s -> calls_leave_slot i es s ->
  running f a d n k base (slot i s) -> 0 <= k < n ->
  exists s' tr,
    run_events es s = Ok (s', tr) /\
    calls_are i f a tr /\
    let c := Z.of_nat (calls_of i tr) in
    c = Z.min (n - k) (Z.of_nat (due_ticks d base (tick_clocks es))) /\
    (k + c < n -> exists base', running f a d n (k + c) base' (slot i s')) /\
    (k + c = n -> callback (slot i s') = NULL).
Proof using Hapi H0 Hleave Hper Hi Hmarks Hf Hd Hforever Hn.
  induction es as [|[w|now c] es IH]; intros s k base Hcons Hp Hcalls Hrun Hk;
    simpl.
  - exists s, []. split; [done|]. split; [apply Forall_nil_2|].
    unfold calls_of. simpl. split; [lia|]. split; [|lia].
    intros _. exists base. by rewrite Z.add_0_r.
  - destruct (run_framed w s Hcons Hp)
      as (w' & s1 & tr1 & sc & Hrun1 & Hc1 & Hp1 & Hare1 & Hscan & Hdisp).
    simpl in Hcalls. rewrite Hrun1 in Hcalls |- *. simpl in Hcalls |- *.
    assert (Hare1' : calls_are i f a tr1).
    { pose proof (arg_of_scan_slot _ _ _ Hscan) as [Hcb Harg].
      pose proof Hrun as (Hf' & Ha' & _).
      by rewrite Hcb, Harg, Hf', Ha' in Hare1. }
    pose proof (tick_running _ _ _ _ _ _ _ _ _ _ _ Hmarks Hf Hd Hforever Hk Hn
                             Hrun Hscan Hdisp) as Htick.
    destruct (Z.leb_spec d (wrapL (millis w - base))) as [Hdue|Hearly].
    + destruct Htick as [Hc Hnext].
      destruct (Z.ltb_spec (k + 1) n) as [Hmore|Hlast].
      * (* one more run made, others left *)
        destruct (IH s1 (k + 1) _ Hc1 Hp1 Hcalls Hnext ltac:(lia))
          as (s' & tr & -> & Hare & Hcount & Hless & Hdone). simpl.
        exists s', (tr1 ++ tr). split; [done|].
        split; [by apply Forall_app|].
        rewrite calls_of_app, Hc. cbv zeta in *.
        split; [lia|]. split.
        -- intros Hlt. destruct Hless as [base' Hb]; [lia|]. exists base'.
           by replace (k + Z.of_nat (1 + calls_of i tr))
             with (k + 1 + Z.of_nat (calls_of i tr)) by lia.
        -- intros Heq. apply Hdone. lia.
      * (* the last run: the slot is free from now on *)
        destruct (events_free es s1 Hc1 Hp1 Hcalls Hnext)
          as (s' & tr & -> & Hzero & Hare & Hfree). simpl.
        exists s', (tr1 ++ tr). split; [done|].
        split; [by apply Forall_app|].
        rewrite calls_of_app, Hc, Hzero. cbv zeta.
        split; [lia|]. split; [lia|done].
    + destruct Htick as [Hc Hsame].
      destruct (IH s1 k base Hc1 Hp1 Hcalls Hsame Hk)
        as (s' & tr & -> & Hare & Hcount & Hless & Hdone). simpl.
      exists s', (tr1 ++ tr). split; [done|].
      split; [by apply Forall_app|].
      rewrite calls_of_app, Hc. simpl. done.
  - simpl in Hcalls. destruct Hcalls as (Hsame & Hp1 & Hrest).
    apply IH; [by apply consistent_exec_call|done|done|by rewrite Hsame|done].
Qed.

End FramedLifetime.

(** C2.  A timer registered (after [init], or on the object as constructed)
    with a finite number of runs [n], [n >= 1], that stays enabled: the
    callbacks may use the public operations, and the program may call them
    between the ticks, as long as they leave the slot of the timer as it is
    and register no period of zero.  Over any such sequence of ticks and
    calls the callback of the timer is invoked once at each tick at which it
    is due, until it has been invoked [n] times, and never again; as long as
    fewer than [n] invocations were made the slot holds the timer with
    [numRuns] equal to their number, and from the [n]-th on the slot is free
    and [changeInterval] on its id returns [false].  The scan marks the
    [n]-th run for deletion, and the dispatch step of a slot so marked
    invokes the callback and, right after it, frees the slot and takes one
    off [getNumTimers ()]. *)
Theorem finite_timer_runs_n_times now d f p h n s0 s1 id :
  callbacks_use_api ->
  callbacks_leave_slot (Z.to_nat id) ->
  callbacks_keep_periods ->
  TIMER_DEFCALL_DONTRUN = 0 ->
  marks_distinct ->
  Z.of_nat MAX_NUMBER_TIMERS < 2 ^ Z.of_nat UINT_BITS ->
  registrable s0 ->
  n <> TIMER_RUN_FOREVER ->
  1 <= n < 2 ^ Z.of_nat UINT_BITS ->
  setupTimer now d f p h n s0 = (s1, id) ->
  0 <= id ->
  periods_nonzero s1 ->
  let i := Z.to_nat id in
  let a := if h then Some p else None in
  (forall es,
     calls_leave_slot i es s1 ->
     exists s' tr,
       run_events es s1 = Ok (s', tr) /\
       calls_are i f a tr /\
       let c := Z.of_nat (calls_of i tr) in
       c = Z.min n (Z.of_nat (due_ticks d now (tick_clocks es))) /\
       (c < n ->
        callback (slot i s') = f /\ numRuns (slot i s') = c /\
        maxNumRuns (slot i s') = n /\ enabled (slot i s') = true) /\
       (c = n ->
        callback (slot i s') = NULL /\
        forall now' d', changeInterval now' id d' s' = (s', false))) /\
  (forall now' t,
     callback t <> NULL -> delay t <> 0 -> enabled t = true ->
     maxNumRuns t = n -> numRuns t = n - 1 ->
     delay t <= wrapL (now' - prev_millis t) ->
     exists t1, scan_slot now' t = Ok t1 /\
                toBeCalled t1 = TIMER_DEFCALL_RUNANDDEL /\ numRuns t1 = n) /\
  (forall w s tr,
     consistent s ->
     toBeCalled (slot i s) = TIMER_DEFCALL_RUNANDDEL ->
     callback (slot i s) <> NULL ->
     exists w' s2 s',
       invoke (callback (slot i s)) (arg_of (slot i s)) w s = (w', s2) /\
       dispatch_slot i (w, s, tr) =
         Ok (w', s', tr ++ [mk_call i (callback (slot i s)) (arg_of (slot i s))]) /\
       s' = deleteTimer (millis w') id s2 /\
       callback (slot i s') = NULL /\
       numTimers s' = numTimers s2 - 1 /\
       getNumTimers s' = getNumTimers s2 - 1 /\
       forall now' d', changeInterval now' id d' s' = (s', false)).
Proof.
  intros Hapi Hleave Hper H0 Hmarks Hcap Hreg Hforever Hn Hsetup Hid Hp i a.
  destruct (registrable_reachable now d f p h n s0 Hreg) as (s0' & Hreach & Heq).
  rewrite Heq in Hsetup. clear Heq Hreg s0. rename s0' into s0.
  destruct (reachable_consistent_fresh s0 Hapi Hreach) as [Hcons Hfresh].
  pose proof (consistent_bounds s0 Hcons) as Hb.
  (* the registration took the slot [id] *)
  destruct (setupTimer_initialised now d f p h n s0) as [[Hfail _]|(k & Hk & Hf & Hs)];
    [lia| |].
  { rewrite Hfail in Hsetup. injection Hsetup as _ <-. lia. }
  rewrite Hs in Hsetup. injection Hsetup as <- <-.
  destruct (findFirstFreeSlot_range s0) as [Hr|(k' & Hr & Hk' & Hfree)]; [lia|].
  assert (k' = k) as -> by lia.
  assert (Hik : i = k) by (unfold i; apply Nat2Z.id).
  fold i in Hleave. rewrite Hik in *. clear Hik i.
  set (s1 := set_numTimers (numTimers s0 + 1) (upd k (filled now d f p h n) s0)) in *.
  assert (Hc1 : consistent s1) by by apply consistent_fill.
  assert (Hl0 : length (timer s0) = MAX_NUMBER_TIMERS) by by destruct Hcons.
  assert (Hslot : slot k s1 = filled now d f p h n (slot k s0)).
  { unfold s1. change (slot k (set_numTimers ?v ?s)) with (slot k s).
    rewrite slot_upd_eq by lia. done. }
  assert (Hrun : running f a d n 0 now (slot k s1)).
  { rewrite Hslot. unfold running, arg_of, a. simpl.
    repeat split. by apply Hfresh. }
  assert (Hd : d <> 0).
  { destruct Hrun as (Hcb & _ & Hdl & _). rewrite <- Hdl.
    apply (Hp k Hk'). apply in_use_true. by rewrite Hcb. }
  pose proof Hmarks as (HOD & HAD & HOA).
  split; [|split].
  - intros es Hcalls.
    destruct (events_running k Hapi H0 Hleave Hper Hk' f a d n Hmarks Hf Hd
                             Hforever ltac:(lia) es s1 0 now Hc1 Hp Hcalls Hrun
                             ltac:(lia))
      as (s' & tr & Hticks & Hare & Hcount & Hless & Hdone).
    exists s', tr. split; [done|]. split; [done|]. cbv zeta in *.
    rewrite Z.sub_0_r in Hcount. split; [done|]. split.
    + intros Hlt. destruct Hless as [base' Hb']; [lia|].
      rewrite Z.add_0_l in Hb'.
      destruct Hb' as (? & _ & _ & ? & ? & _ & ?). done.
    + intros Heq. assert (Hnull : callback (slot k s') = NULL) by (apply Hdone; lia).
      split; [done|]. intros now' d'. unfold changeInterval.
      destruct (Z.leb_spec (Z.of_nat MAX_NUMBER_TIMERS) (Z.of_nat k)); [lia|].
      rewrite Nat2Z.id, Hnull. done.
  - intros now' t Hcb Hdl Hen Hmax Hruns Hdue.
    destruct (scan_slot_running now' (callback t) (arg_of t) (delay t) n (n - 1)
                                (prev_millis t) t)
      as (t1 & Hscan & Hrun1 & Hmark); try done; try lia.
    exists t1. split; [done|].
    destruct (Z.ltb_spec (n - 1 + 1) n); [lia|]. split; [done|].
    destruct Hrun1 as (_ & _ & _ & _ & -> & _). lia.
  - intros w s tr Hcs Hmark Hcb.
    by apply dispatch_slot_last_run.
Qed.

(** A check that computes, for [periods_nonzero]. *)
Lemma periods_nonzero_check s :
  forallb (fun t => implb (in_use t) (negb (delay t =? 0))) (timer s) = true ->
  periods_nonzero s.
Proof.
  intros H i _ Hu Hd.
  destruct (Nat.lt_ge_cases i (length (timer s))) as [Hi|Hi].
  - rewrite forallb_forall in H.
    assert (Hin : In (slot i s) (timer s)).
    { apply list_elem_of_In. apply list_elem_of_lookup. exists i.
      by apply list_lookup_lookup_total_lt. }
    apply H in Hin. rewrite Hu, Hd in Hin. done.
  - rewrite slot_beyond in Hu by done. done.
Qed.

(** ** Before the first [init] *)

Lemma untouched_upd i g s :
  (forall t, callback (g t) = callback t) -> untouched s -> untouched (upd i g s).
Proof.
  intros Hg (Hn & Hl & Hfree). split; [done|]. split; [by rewrite length_upd|].
  intros j. rewrite slot_upd. case_decide; [|done]. by rewrite Hg.
Qed.

Lemma untouched_flag_all b s :
  untouched s -> untouched (if b : bool then enableAll s else disableAll s).
Proof.
  intros (Hn & Hl & Hfree). destruct (flag_all_slots b s) as (Hn' & Hl' & Hs).
  split; [lia|]. split; [lia|]. intros j.
  destruct (Nat.lt_ge_cases j MAX_NUMBER_TIMERS).
  - rewrite Hs by done. unfold flag_slot. destruct (_ && _); simpl; apply Hfree.
  - rewrite slot_beyond by lia. done.
Qed.

Lemma untouched_exec_call now c s :
  initialises c = false -> untouched s -> untouched (exec_call now c s).
Proof.
  intros Hc Hu. pose proof Hu as (Hn & Hl & Hfree). destruct c; simpl in *; try done.
  - unfold changeInterval. destruct (_ <=? _); [done|]. by rewrite Hfree.
  - destruct (deleteTimer_cases now timerId s) as [->|(_ & Hcb & _)]; [done|].
    by rewrite Hfree in Hcb.
  - unfold restartTimer. destruct (_ <=? _); [done|]. by apply untouched_upd.
  - unfold enable. destruct (_ <=? _); [done|]. by apply untouched_upd.
  - unfold disable. destruct (_ <=? _); [done|]. by apply untouched_upd.
  - unfold toggle. destruct (_ <=? _); [done|]. by apply untouched_upd.
  - by apply (untouched_flag_all true).
  - by apply (untouched_flag_all false).
Qed.

Lemma dispatch_nothing_marked st :
  (forall j, (j < MAX_NUMBER_TIMERS)%nat ->
             toBeCalled (slot j (snd (fst st))) = TIMER_DEFCALL_DONTRUN) ->
  dispatch st = Ok st.
Proof.
  intros Hm. unfold dispatch.
  destruct (for_result_total (fun _ st' => st' = st) dispatch_slot
                             MAX_NUMBER_TIMERS 0 st) as (st' & -> & ->); [|done..].
  intros j st' Hj ->. exists st. split; [|done].
  destruct st as [[w s] tr]. apply dispatch_slot_skip. apply Hm. lia.
Qed.

Lemma untouched_run w s w' s' tr :
  run w s = Ok (w', s', tr) -> untouched s -> untouched s'.
Proof.
  intros Hrun (Hn & Hl & Hfree). unfold run in Hrun. cbv zeta in Hrun.
  pose proof (scan_slots (millis w) s) as Hscan.
  destruct (scan (millis w) s) as [s1|e]; simpl in Hrun; [|done].
  destruct Hscan as (Hn1 & Hl1 & Hs).
  assert (Hslots : forall j, (j < MAX_NUMBER_TIMERS)%nat ->
            slot j s1 = set_toBeCalled TIMER_DEFCALL_DONTRUN (slot j s)).
  { intros j Hj. specialize (Hs j). case_decide; [|lia].
    rewrite scan_slot_free in Hs by done. by injection Hs as <-. }
  rewrite dispatch_nothing_marked in Hrun.
  2:{ intros j Hj. simpl. by rewrite Hslots. }
  injection Hrun as <- <- <-. split; [lia|]. split; [lia|]. intros j.
  destruct (Nat.lt_ge_cases j MAX_NUMBER_TIMERS).
  - rewrite Hslots by done. simpl. done.
  - rewrite slot_beyond by lia. done.
Qed.

Lemma never_initialised_untouched s : never_initialised s -> untouched s.
Proof.
  induction 1 as [mem Hl Hmem|now c s _ IH Hc|w s w' s' tr _ IH Hrun].
  - split; [done|]. split; [done|]. intros j. simpl.
    destruct (Nat.lt_ge_cases j (length mem)) as [Hj|Hj].
    + rewrite Forall_forall in Hmem. apply Hmem.
      apply list_elem_of_lookup. exists j. unfold slot. simpl.
      by apply list_lookup_lookup_total_lt.
    + rewrite slot_beyond by done. done.
  - by apply untouched_exec_call.
  - by apply (untouched_run w s w' s' tr).
Qed.

(** C10.  On an object that was constructed and never initialised,
    [getNumTimers] returns the [-1] of the constructor converted to
    [unsigned]: [2 ^ UINT_BITS - 1], whatever the slot array holds; and for an
    object in zeroed storage it keeps returning it after any calls other than
    [init] and the registrations, ticks included. *)
Theorem getNumTimers_uninitialised :
  (forall mem,
     getNumTimers (Portenta_H7_ISR_Timer mem) = 2 ^ Z.of_nat UINT_BITS - 1) /\
  (forall s,
     never_initialised s -> getNumTimers s = 2 ^ Z.of_nat UINT_BITS - 1).
Proof.
  assert (Hconv : wrapU (-1) = 2 ^ Z.of_nat UINT_BITS - 1).
  { unfold wrapU.
    assert (0 < 2 ^ Z.of_nat UINT_BITS) by (apply Z.pow_pos_nonneg; lia).
    rewrite <- (Z.mod_unique_pos (-1) (2 ^ Z.of_nat UINT_BITS) (-1)
                                 (2 ^ Z.of_nat UINT_BITS - 1)); [done|lia|lia]. }
  split.
  - intros mem. exact Hconv.
  - intros s Hs. apply never_initialised_untouched in Hs as (Hn & _).
    unfold getNumTimers. by rewrite Hn.
Qed.


(** ** Further properties: initialisation and registration *)

(** Two objects with the same counter and the same slots are the same. *)
Lemma sched_ext s s' :
  numTimers s = numTimers s' ->
  length (timer s) = length (timer s') ->
  (forall j, (j < length (timer s))%nat -> slot j s = slot j s') ->
  s = s'.
Proof.
  destruct s as [l n], s' as [l' n']. simpl. intros -> Hlen Hs. f_equal.
  apply (list_eq_same_length _ _ (length l)); [done..|].
  intros j x y Hj Hx Hy. specialize (Hs j Hj). unfold slot in Hs. simpl in Hs.
  apply list_lookup_total_correct in Hx, Hy. congruence.
Qed.

(** X1.  [init] leaves the same object whatever it held before: every slot
    zeroed and stamped with the clock, [numTimers] at zero.  Timers that were
    registered are lost, and a second [init] at the same clock changes
    nothing. *)
Theorem init_forgets_everything now s :
  length (timer s) = MAX_NUMBER_TIMERS ->
  init now s = mk_sched (replicate MAX_NUMBER_TIMERS (cleared now)) 0 /\
  (forall s2, length (timer s2) = MAX_NUMBER_TIMERS -> init now s2 = init now s) /\
  init now (init now s) = init now s /\
  getNumTimers (init now s) = 0 /\
  findFirstFreeSlot (init now s) =
    (if (MAX_NUMBER_TIMERS =? 0)%nat then -1 else 0).
Proof.
  intros Hl.
  assert (Hform : forall s0, length (timer s0) = MAX_NUMBER_TIMERS ->
            init now s0 = mk_sched (replicate MAX_NUMBER_TIMERS (cleared now)) 0).
  { intros s0 Hl0. destruct (init_slots now s0) as (Hn & Hlen & Hs).
    apply sched_ext.
    - exact Hn.
    - rewrite Hlen. simpl. rewrite length_replicate. done.
    - intros j Hj. rewrite Hlen in Hj. rewrite Hs by lia. unfold slot. simpl.
      symmetry. apply lookup_total_replicate_2. lia. }
  rewrite (Hform s Hl). split; [done|]. split; [intros s2 Hl2; by apply Hform|].
  split.
  { apply Hform. simpl. apply length_replicate. }
  split.
  { unfold getNumTimers, wrapU. simpl. apply Z.mod_0_l.
    apply Z.pow_nonzero; lia. }
  unfold findFirstFreeSlot. simpl.
  destruct MAX_NUMBER_TIMERS as [|m]; [done|].
  destruct (Z.leb_spec (Z.of_nat (S m)) 0); [lia|]. done.
Qed.

(** X2.  A registration fails with [-1] when the callback is [NULL], and on
    every failure the object is the one [setupTimer] started from, after the
    [init] it runs first when [numTimers] is negative: a failed registration
    on an object that was never initialised leaves it initialised.  The
    number returned is [-1] or a slot number. *)
Theorem setupTimer_failure now d f p h n s :
  (f = NULL -> snd (setupTimer now d f p h n s) = -1) /\
  (snd (setupTimer now d f p h n s) = -1 ->
   fst (setupTimer now d f p h n s) = (if numTimers s <? 0 then init now s else s)) /\
  (snd (setupTimer now d f p h n s) = -1 \/
   0 <= snd (setupTimer now d f p h n s) < Z.of_nat MAX_NUMBER_TIMERS).
Proof.
  unfold setupTimer.
  set (s0 := if numTimers s <? 0 then init now s else s). cbv zeta.
  destruct (findFirstFreeSlot_range s0) as [Hr|(k & Hr & Hk & Hc)]; rewrite Hr.
  - simpl. repeat split; auto.
  - destruct (Z.ltb_spec (Z.of_nat k) 0); [lia|].
    destruct (Z.eqb_spec f NULL) as [Hf|Hf]; simpl.
    + repeat split; auto.
    + repeat split; [done|lia|right; lia].
Qed.

(** X3.  A registration that succeeds on an initialised object writes the
    period, the callback, its argument, the number of runs, [enabled] and
    the clock into a slot that was free, and nothing else: the slot keeps the
    [numRuns] and the mark it had, the other slots stay as they are,
    [numTimers] grows by one and the slot reads as enabled. *)
Theorem setupTimer_fills_free_slot now d f p h n s s' id :
  length (timer s) = MAX_NUMBER_TIMERS ->
  0 <= numTimers s ->
  setupTimer now d f p h n s = (s', id) ->
  0 <= id ->
  let i := Z.to_nat id in
  id < Z.of_nat MAX_NUMBER_TIMERS /\
  f <> NULL /\
  callback (slot i s) = NULL /\
  slot i s' = mk_timer now f p h d n (numRuns (slot i s)) true (toBeCalled (slot i s)) /\
  (forall j, j <> i -> slot j s' = slot j s) /\
  numTimers s' = numTimers s + 1 /\
  isEnabled id s' = true.
Proof.
  intros Hl Hn Hsetup Hid i.
  destruct (setupTimer_initialised now d f p h n s Hn) as [[Hfail _]|(k & Hk & Hf & Hs)].
  { rewrite Hfail in Hsetup. injection Hsetup as _ <-. lia. }
  rewrite Hs in Hsetup. injection Hsetup as <- <-.
  destruct (findFirstFreeSlot_range s) as [Hr|(k' & Hr & Hk' & Hfree)]; [lia|].
  assert (k' = k) as -> by lia.
  assert (i = k) as -> by (unfold i; apply Nat2Z.id).
  split; [lia|]. split; [done|]. split; [done|].
  change (slot ?j (set_numTimers ?v ?s)) with (slot j s).
  split; [by rewrite slot_upd_eq by lia|].
  split; [intros j Hj; by rewrite slot_upd_ne|]. split; [done|].
  unfold isEnabled. destruct (Z.leb_spec (Z.of_nat MAX_NUMBER_TIMERS) (Z.of_nat k)); [lia|].
  rewrite Nat2Z.id. change (slot ?j (set_numTimers ?v ?s)) with (slot j s).
  by rewrite slot_upd_eq by lia.
Qed.


(** ** Further properties: removal and the enable flag *)

(** X4.  Removing a timer that is in use zeroes its slot and stamps the
    clock in it, so that the slot reads as disabled with no completed run,
    takes one off [numTimers] and leaves the other slots as they are; when
    the slots below it are taken, the next registration gets the slot that
    was just freed. *)
Theorem deleteTimer_frees_lowest_slot now i s :
  consistent s ->
  (i < MAX_NUMBER_TIMERS)%nat ->
  callback (slot i s) <> NULL ->
  let s' := deleteTimer now (Z.of_nat i) s in
  slot i s' = mk_timer now NULL NULL false 0 0 0 false 0 /\
  (forall j, j <> i -> slot j s' = slot j s) /\
  numTimers s' = numTimers s - 1 /\
  isEnabled (Z.of_nat i) s' = false /\
  consistent s' /\
  ((forall j, (j < i)%nat -> callback (slot j s) <> NULL) ->
   forall now' d f p h n,
     f <> NULL -> snd (setupTimer now' d f p h n s') = Z.of_nat i).
Proof.
  intros Hcons Hi Hc s'.
  assert (Hpos : numTimers s <> 0).
  { destruct Hcons as [Hl ->].
    assert (0 < count_in_use (timer s))%nat; [|lia].
    apply (count_in_use_pos _ i); [lia|]. by apply in_use_true. }
  assert (Hcons' : consistent s') by by apply consistent_deleteTimer.
  assert (Hl : length (timer s) = MAX_NUMBER_TIMERS) by by destruct Hcons.
  assert (Hs' : s' = set_numTimers (numTimers s - 1)
                       (upd i (fun _ => cleared now) s))
    by by apply deleteTimer_in_use.
  assert (Hslot : slot i s' = cleared now).
  { rewrite Hs'. change (slot ?j (set_numTimers ?v ?s)) with (slot j s).
    by rewrite slot_upd_eq by lia. }
  assert (Hother : forall j, j <> i -> slot j s' = slot j s).
  { intros j Hj. rewrite Hs'.
    change (slot ?j (set_numTimers ?v ?s)) with (slot j s).
    by rewrite slot_upd_ne. }
  split; [done|]. split; [done|]. split; [by rewrite Hs'|]. split.
  { unfold isEnabled.
    destruct (Z.leb_spec (Z.of_nat MAX_NUMBER_TIMERS) (Z.of_nat i)); [done|].
    by rewrite Nat2Z.id, Hslot. }
  split; [done|].
  intros Hlow now' d f p h n Hf.
  pose proof (consistent_bounds s Hcons) as Hb.
  assert (Hn' : numTimers s' = numTimers s - 1) by by rewrite Hs'.
  destruct (findFirstFreeSlot_finds s' Hcons') as (k & Hr & Hk & Hfree & Hused);
    [lia|].
  assert (k = i) as ->.
  { destruct (Nat.lt_trichotomy k i) as [Hlt|[->|Hgt]]; [|done|].
    - exfalso. rewrite Hother in Hfree by lia. by apply (Hlow k).
    - exfalso. apply (Hused i Hgt). by rewrite Hslot. }
  destruct (setupTimer_initialised now' d f p h n s')
    as [[_ [Hno|Hno]]|(k' & Hr' & _ & ->)]; [lia|lia|done|].
  simpl. lia.
Qed.

Lemma deleteTimer_same_any_clock now now' id s :
  deleteTimer now id s = s -> deleteTimer now' id s = s.
Proof.
  intros H. unfold deleteTimer in *.
  destruct (_ <=? _); [done|]. destruct (numTimers s =? 0); [done|].
  destruct (negb _); [|done].
  exfalso. apply (f_equal numTimers) in H. simpl in H. lia.
Qed.

(** X5.  A second [deleteTimer] on the same id changes nothing, whatever the
    first one did. *)
Theorem deleteTimer_twice now now' id s :
  deleteTimer now' id (deleteTimer now id s) = deleteTimer now id s.
Proof.
  destruct (deleteTimer_cases now id s) as [Hsame|(Hn & Hc & Hdel)].
  - rewrite Hsame. by apply (deleteTimer_same_any_clock now).
  - rewrite Hdel.
    destruct (deleteTimer_cases now' id
                (set_numTimers (numTimers s - 1)
                   (upd (Z.to_nat id) (fun _ => cleared now) s)))
      as [->|(_ & Hc' & _)]; [done|].
    exfalso. apply Hc'.
    change (slot ?j (set_numTimers ?v ?s)) with (slot j s).
    rewrite slot_upd_eq by by apply slot_in_use_in_range. done.
Qed.

(** X6.  For a slot number in range, [isEnabled] reads what [enable],
    [disable] and [toggle] wrote; toggling twice gives the object back, and
    [disable] followed by [enable] is [enable].  None of them looks at the
    callback: on a free slot the flag changes all the same, while the slot
    stays free and [numTimers] stays as it is. *)
Theorem enable_flag_algebra id s :
  0 <= id < Z.of_nat MAX_NUMBER_TIMERS ->
  length (timer s) = MAX_NUMBER_TIMERS ->
  let i := Z.to_nat id in
  isEnabled id (enable id s) = true /\
  isEnabled id (disable id s) = false /\
  isEnabled id (toggle id s) = negb (isEnabled id s) /\
  toggle id (toggle id s) = s /\
  enable id (disable id s) = enable id s /\
  callback (slot i (enable id s)) = callback (slot i s) /\
  numTimers (enable id s) = numTimers s /\
  numTimers (toggle id s) = numTimers s.
Proof.
  intros Hid Hl i. unfold isEnabled, enable, disable, toggle.
  destruct (Z.leb_spec (Z.of_nat MAX_NUMBER_TIMERS) id); [lia|]. fold i.
  assert (Hi : (i < length (timer s))%nat) by (unfold i; lia).
  rewrite !slot_upd_eq by (rewrite ?length_upd; done).
  repeat split.
  - rewrite upd_upd. apply upd_same.
    destruct (slot i s) as [? ? ? ? ? ? ? e ?]. simpl.
    by rewrite negb_involutive.
  - rewrite upd_upd. apply upd_ext. done.
Qed.


(** ** Further properties: the scan and the clock *)

Lemma wrapL_shift_elapsed now prev k :
  wrapL (now + k - wrapL (prev + k)) = wrapL (now - prev).
Proof.
  unfold wrapL. rewrite Zminus_mod_idemp_r. f_equal. lia.
Qed.

Lemma wrapL_shift_sum prev k x :
  wrapL (wrapL (prev + k) + x) = wrapL (wrapL (prev + x) + k).
Proof.
  unfold wrapL. rewrite !Zplus_mod_idemp_l. f_equal. lia.
Qed.

(** X7.  The scan sees the clock only through the difference
    [millis () - prev_millis], taken as [unsigned long]: with the clock and
    the stamp of a slot both moved by the same [k], across a wrap-around as
    well, the slot is serviced the same way and its new stamp is moved by
    [k] too. *)
Theorem scan_slot_clock_shift now k t :
  scan_slot (now + k) (shift_clock k t) = result_map (shift_clock k) (scan_slot now t).
Proof.
  unfold scan_slot, shift_clock. simpl.
  rewrite wrapL_shift_elapsed.
  repeat (match goal with
          | |- context [if ?c then _ else _] => destruct c eqn:?
          end; simpl); try done.
  all: unfold set_prev_millis, set_toBeCalled, set_numRuns; simpl.
  all: f_equal; f_equal; apply wrapL_shift_sum.
Qed.


Lemma upd_comm i j f g s :
  i <> j -> upd i f (upd j g s) = upd j g (upd i f s).
Proof. intros Hij. unfold upd. simpl. f_equal. by apply list_alter_alter_ne. Qed.

(** A change to slot [k] that the loop body does not see is overwritten when
    the loop comes to [k]. *)
Lemma for_result_upd_unseen (F : timer_t -> result timer_t) (g : timer_t -> timer_t) k n :
  (forall t, F (g t) = F t) ->
  forall i s, (i <= k < i + n)%nat ->
    for_result (fun i s => let* t := F (slot i s) in Ok (upd i (fun _ => t) s))
               i n (upd k g s) =
    for_result (fun i s => let* t := F (slot i s) in Ok (upd i (fun _ => t) s))
               i n s.
Proof.
  intros HF. induction n as [|n IH]; intros i s Hk; [lia|]. simpl.
  destruct (decide (i = k)) as [->|Hik].
  - assert (F (slot k (upd k g s)) = F (slot k s)) as ->.
    { rewrite slot_upd. case_decide; [apply HF|done]. }
    destruct (F (slot k s)) as [t|e]; simpl; [|done].
    by rewrite upd_upd.
  - rewrite slot_upd_ne by done.
    destruct (F (slot i s)) as [t|e]; simpl; [|done].
    rewrite upd_comm by done. apply IH. lia.
Qed.

(** X8.  The mark [toBeCalled] carries nothing from one tick to the next:
    [run] gives the same result whatever mark a slot held on entry. *)
Theorem run_ignores_old_marks w i v s :
  (i < MAX_NUMBER_TIMERS)%nat ->
  run w (upd i (set_toBeCalled v) s) = run w s.
Proof.
  intros Hi. unfold run, scan. cbv zeta.
  rewrite (for_result_upd_unseen (scan_slot (millis w)) (set_toBeCalled v) i);
    [done| |lia].
  intros t. reflexivity.
Qed.

(** X9.  After the scan a timer in use has less than one period behind it:
    the time elapsed since its new [prev_millis] is the remainder of the
    elapsed time by the period, whether the timer is enabled or not and
    whether it was due or not. *)
Theorem scan_leaves_less_than_a_period now s i :
  length (timer s) = MAX_NUMBER_TIMERS ->
  periods_nonzero s ->
  (i < MAX_NUMBER_TIMERS)%nat ->
  callback (slot i s) <> NULL ->
  0 <= delay (slot i s) ->
  exists s',
    scan now s = Ok s' /\
    delay (slot i s') = delay (slot i s) /\
    wrapL (now - prev_millis (slot i s')) =
      wrapL (now - prev_millis (slot i s)) mod delay (slot i s) /\
    wrapL (now - prev_millis (slot i s')) < delay (slot i s').
Proof.
  intros Hl Hp Hi Hc Hd0.
  destruct (scan_ok now s Hp) as [s' Hs]. exists s'. split; [done|].
  pose proof (scan_slot_at now s s' i Hs Hl Hi) as Hslot.
  pose proof (scan_slot_fields _ _ _ Hslot) as (_ & _ & _ & Hdl & _).
  assert (Hd : delay (slot i s) <> 0) by (apply Hp; [done|by apply in_use_true]).
  split; [done|]. rewrite Hdl.
  set (t := slot i s) in *.
  pose proof (wrapL_range (now - prev_millis t)) as Hr.
  assert (Hres : wrapL (now - prev_millis (slot i s')) =
                 wrapL (now - prev_millis t) mod delay t).
  { destruct (Z.lt_ge_cases (wrapL (now - prev_millis t)) (delay t)) as [Hlt|Hge].
    - rewrite scan_slot_early in Hslot by done. injection Hslot as <-. simpl.
      rewrite Z.mod_small; [done|lia].
    - rewrite scan_slot_due in Hslot by done. injection Hslot as <-.
      rewrite <- (residual_elapsed now (prev_millis t) (delay t)) by (lia || done).
      unfold serviced. destruct (negb (enabled t)); simpl; [done|].
      destruct (maxNumRuns t =? TIMER_RUN_FOREVER); [done|].
      destruct (numRuns t <? maxNumRuns t); done. }
  split; [done|]. rewrite Hres. apply Z.mod_pos_bound. lia.
Qed.

(** A slot that is free, or whose period has not elapsed, is left unmarked
    by the scan and is not called by the tick. *)
Lemma run_not_due w s i :
  callbacks_use_api ->
  TIMER_DEFCALL_DONTRUN = 0 ->
  length (timer s) = MAX_NUMBER_TIMERS ->
  periods_nonzero s ->
  (i < MAX_NUMBER_TIMERS)%nat ->
  callback (slot i s) = NULL \/
  wrapL (millis w - prev_millis (slot i s)) < delay (slot i s) ->
  exists s1 w' s' tr,
    scan (millis w) s = Ok s1 /\
    slot i s1 = set_toBeCalled TIMER_DEFCALL_DONTRUN (slot i s) /\
    run w s = Ok (w', s', tr) /\
    calls_of i tr = 0%nat.
Proof.
  intros Hapi H0 Hl Hp Hi Hwhy.
  destruct (scan_ok (millis w) s Hp) as [s1 Hs].
  pose proof (scan_slot_at _ s s1 i Hs Hl Hi) as Hslot.
  assert (Hs1 : slot i s1 = set_toBeCalled TIMER_DEFCALL_DONTRUN (slot i s)).
  { destruct Hwhy as [Hfree|Hearly].
    - rewrite scan_slot_free in Hslot by done. by injection Hslot.
    - rewrite scan_slot_early in Hslot by done. by injection Hslot. }
  pose proof (marks_in_use_scan _ _ _ H0 Hl Hs) as Hmarks.
  destruct (dispatch_unmarked w s1 i Hapi H0 Hmarks) as (w' & s' & tr & Hd & Hcalls).
  { by rewrite Hs1. }
  exists s1, w', s', tr. unfold run. cbv zeta. rewrite Hs. simpl. done.
Qed.

(** X10.  A tick does not call a slot that is free, nor a timer whose period
    has not elapsed, whatever the other callbacks do through the public
    operations; the scan changes nothing in such a slot but the mark. *)
Theorem free_or_early_slot_is_not_called w s i :
  callbacks_use_api ->
  TIMER_DEFCALL_DONTRUN = 0 ->
  length (timer s) = MAX_NUMBER_TIMERS ->
  periods_nonzero s ->
  (i < MAX_NUMBER_TIMERS)%nat ->
  callback (slot i s) = NULL \/
  wrapL (millis w - prev_millis (slot i s)) < delay (slot i s) ->
  exists s1 w' s' tr,
    scan (millis w) s = Ok s1 /\
    slot i s1 = set_toBeCalled TIMER_DEFCALL_DONTRUN (slot i s) /\
    run w s = Ok (w', s', tr) /\
    calls_of i tr = 0%nat.
Proof. apply run_not_due. Qed.


(** ** Further properties: restarting and changing the period *)


(** X12.  After [changeInterval] has given a timer the period [d], a tick
    that comes less than [d] later does not call it, however long the timer
    had been waiting under its old period. *)
Theorem changeInterval_starts_a_new_period now id d s w :
  callbacks_use_api ->
  TIMER_DEFCALL_DONTRUN = 0 ->
  length (timer s) = MAX_NUMBER_TIMERS ->
  periods_nonzero s ->
  0 <= id < Z.of_nat MAX_NUMBER_TIMERS ->
  callback (slot (Z.to_nat id) s) <> NULL ->
  wrapL (millis w - now) < d ->
  let i := Z.to_nat id in
  exists s1 w' s' tr,
    changeInterval now id d s = (s1, true) /\
    run w s1 = Ok (w', s', tr) /\
    calls_of i tr = 0%nat.
Proof.
  intros Hapi H0 Hl Hp Hid Hc Hearly i.
  assert (Hi : (i < MAX_NUMBER_TIMERS)%nat) by (unfold i; lia).
  assert (Hs1 : changeInterval now id d s =
                (upd i (fun t => set_prev_millis now (set_delay d t)) s, true)).
  { unfold changeInterval.
    destruct (Z.leb_spec (Z.of_nat MAX_NUMBER_TIMERS) id); [lia|]. fold i.
    destruct (Z.eqb_spec (callback (slot i s)) NULL); [done|]. simpl.
    by rewrite upd_upd. }
  set (s1 := upd i (fun t => set_prev_millis now (set_delay d t)) s) in *.
  assert (Hslot : slot i s1 = set_prev_millis now (set_delay d (slot i s))).
  { unfold s1. by rewrite slot_upd_eq by lia. }
  assert (Hother : forall j, j <> i -> slot j s1 = slot j s).
  { intros j Hj. unfold s1. by rewrite slot_upd_ne. }
  pose proof (wrapL_range (millis w - now)) as Hr.
  destruct (run_not_due w s1 i Hapi H0) as (_ & w' & s' & tr & _ & _ & Hrun & Hcalls).
  - unfold s1. rewrite length_upd. done.
  - intros j Hj Hu. destruct (decide (j = i)) as [->|Hji].
    + rewrite Hslot. simpl. lia.
    + rewrite Hother in * by done. by apply (Hp j).
  - done.
  - right. rewrite Hslot. simpl. done.
  - by exists s1, w', s', tr.
Qed.

(** ** Further properties: ticks on an empty scheduler *)

(** X13.  A tick on an object with no timer in use calls nothing and
    changes nothing but the marks: no clock stamp moves, the counter stays,
    and every slot is still free. *)
Theorem run_without_timers w s :
  length (timer s) = MAX_NUMBER_TIMERS ->
  (forall j, callback (slot j s) = NULL) ->
  exists s',
    run w s = Ok (w, s', []) /\
    numTimers s' = numTimers s /\
    forall j, (j < MAX_NUMBER_TIMERS)%nat ->
              slot j s' = set_toBeCalled TIMER_DEFCALL_DONTRUN (slot j s).
Proof.
  intros Hl Hfree.
  assert (Hp : periods_nonzero s).
  { intros j _ Hu. apply in_use_true in Hu. by rewrite Hfree in Hu. }
  destruct (scan_ok (millis w) s Hp) as [s1 Hs].
  assert (Hslots : forall j, (j < MAX_NUMBER_TIMERS)%nat ->
            slot j s1 = set_toBeCalled TIMER_DEFCALL_DONTRUN (slot j s)).
  { intros j Hj. pose proof (scan_slot_at _ s s1 j Hs Hl Hj) as Hslot.
    rewrite scan_slot_free in Hslot by done. by injection Hslot. }
  exists s1. unfold run. cbv zeta. rewrite Hs. simpl.
  rewrite dispatch_nothing_marked.
  2:{ intros j Hj. simpl. by rewrite Hslots. }
  split; [done|]. split; [|done].
  pose proof (scan_slots (millis w) s) as H. rewrite Hs in H. by destruct H.
Qed.


(** ** Further properties: intervals and timeouts *)

(** The timer a successful registration leaves in its slot. *)
Lemma registered_running now d f p h n s0 s1 id :
  callbacks_use_api ->
  registrable s0 ->
  setupTimer now d f p h n s0 = (s1, id) ->
  0 <= id ->
  consistent s1 /\ (Z.to_nat id < MAX_NUMBER_TIMERS)%nat /\ f <> NULL /\
  running f (if h then Some p else None) d n 0 now (slot (Z.to_nat id) s1).
Proof.
  intros Hapi Hreg Hsetup Hid.
  destruct (registrable_reachable now d f p h n s0 Hreg) as (s0' & Hreach & Heq).
  rewrite Heq in Hsetup. clear Heq Hreg s0. rename s0' into s0.
  destruct (reachable_consistent_fresh s0 Hapi Hreach) as [Hcons Hfresh].
  pose proof (consistent_bounds s0 Hcons) as Hb.
  destruct (setupTimer_initialised now d f p h n s0) as [[Hfail _]|(k & Hk & Hf & Hs)];
    [lia| |].
  { rewrite Hfail in Hsetup. injection Hsetup as _ <-. lia. }
  rewrite Hs in Hsetup. injection Hsetup as <- <-.
  destruct (findFirstFreeSlot_range s0) as [Hr|(k' & Hr & Hk' & Hfree)]; [lia|].
  assert (k' = k) as -> by lia. rewrite Nat2Z.id.
  split; [by apply consistent_fill|]. split; [done|]. split; [done|].
  change (slot ?j (set_numTimers ?v ?s)) with (slot j s).
  destruct Hcons as [Hl _]. rewrite slot_upd_eq by lia.
  unfold running, arg_of. simpl. repeat split. by apply Hfresh.
Qed.

(** One tick of a timer that runs forever. *)
Lemma tick_forever now f a d k base t t1 t2 c :
  TIMER_DEFCALL_RUNONLY <> TIMER_DEFCALL_DONTRUN ->
  TIMER_DEFCALL_RUNONLY <> TIMER_DEFCALL_RUNANDDEL ->
  f <> NULL -> d <> 0 ->
  running f a d TIMER_RUN_FOREVER k base t ->
  scan_slot now t = Ok t1 ->
  dispatched_slot t1 t2 c ->
  if d <=? wrapL (now - base)
  then c = 1%nat /\
       running f a d TIMER_RUN_FOREVER k
               (wrapL (base + d * (wrapL (now - base) / d))) t2
  else c = 0%nat /\ running f a d TIMER_RUN_FOREVER k base t2.
Proof.
  intros HOD HOA Hf Hd (Hcb & Ha & Hdl & Hmax & Hruns & Hprev & Hen) Hscan Hdisp.
  destruct (Z.leb_spec d (wrapL (now - base))) as [Hdue|Hearly].
  - rewrite scan_slot_due in Hscan by (try congruence; by rewrite Hdl, Hprev).
    injection Hscan as <-. unfold dispatched_slot, serviced in Hdisp.
    rewrite Hen, Hmax, Z.eqb_refl in Hdisp. simpl in Hdisp.
    destruct (Z.eqb_spec TIMER_DEFCALL_RUNONLY TIMER_DEFCALL_DONTRUN); [done|].
    destruct (Z.eqb_spec TIMER_DEFCALL_RUNONLY TIMER_DEFCALL_RUNANDDEL); [done|].
    destruct Hdisp as [-> ->]. split; [done|].
    unfold running, arg_of in *. simpl. rewrite Hdl, Hprev.
    repeat split; try done.
    unfold wrapL at 1 2. by rewrite Zplus_mod_idemp_r.
  - rewrite scan_slot_early in Hscan by by rewrite Hdl, Hprev.
    injection Hscan as <-. unfold dispatched_slot in Hdisp. simpl in Hdisp.
    rewrite Z.eqb_refl in Hdisp. destruct Hdisp as [-> ->].
    split; [done|]. unfold running, arg_of. simpl. done.
Qed.

(** Ticks of a timer that runs forever: one call at each tick at which it is
    due, and the timer stays. *)
Lemma ticks_forever i f a d ws :
  callbacks_keep_scheduler ->
  TIMER_DEFCALL_RUNONLY <> TIMER_DEFCALL_DONTRUN ->
  TIMER_DEFCALL_RUNONLY <> TIMER_DEFCALL_RUNANDDEL ->
  (i < MAX_NUMBER_TIMERS)%nat -> f <> NULL -> d <> 0 ->
  forall s k base,
    consistent s -> periods_nonzero s ->
    running f a d TIMER_RUN_FOREVER k base (slot i s) ->
    exists s' tr base',
      run_ticks ws s = Ok (s', tr) /\
      consistent s' /\
      calls_are i f a tr /\
      calls_of i tr = due_ticks d base (map millis ws) /\
      running f a d TIMER_RUN_FOREVER k base' (slot i s').
Proof.
  intros Hkeep HOD HOA Hi Hf Hd.
  induction ws as [|w ws IH]; intros s k base Hcons Hp Hrun; simpl.
  - exists s, [], base. split; [done|]. split; [done|].
    split; [apply Forall_nil_2|]. split; done.
  - destruct (run_keeping w s Hkeep Hcons Hp)
      as (w' & s1 & tr1 & sc & -> & Hc1 & Hp1 & Hfrom & Hslots). simpl.
    destruct (Hslots i Hi) as [Hscan Hdisp].
    assert (Hare1 : calls_are i f a tr1).
    { pose proof (arg_of_scan_slot _ _ _ Hscan) as [Hcb Harg].
      pose proof Hrun as (Hf' & Ha' & _).
      apply (calls_from_calls_are sc); [done|congruence|congruence]. }
    pose proof (tick_forever _ _ _ _ _ _ _ _ _ _ HOD HOA Hf Hd Hrun Hscan Hdisp)
      as Htick.
    destruct (d <=? wrapL (millis w - base)); destruct Htick as [Hc Hnext];
      destruct (IH s1 k _ Hc1 Hp1 Hnext)
        as (s' & tr & base' & -> & Hc' & Hare & Hcount & Hfin); simpl;
      exists s', (tr1 ++ tr), base'; rewrite calls_of_app, Hc, Hcount;
      (split; [done|]); (split; [done|]); (split; [by apply Forall_app|]); done.
Qed.

(** X14.  A timer registered with [setInterval], with or without an
    argument, is called once at each tick at which it is due, with the
    argument it was registered with, and is never removed by [run]; its
    [numRuns] stays at zero, so that with [TIMER_RUN_FOREVER] equal to zero
    [disableAll] and [enableAll] do act on it. *)
Theorem setInterval_runs_forever (with_param : bool) now d f p s0 s1 id :
  callbacks_keep_scheduler ->
  TIMER_DEFCALL_RUNONLY <> TIMER_DEFCALL_DONTRUN ->
  TIMER_DEFCALL_RUNONLY <> TIMER_DEFCALL_RUNANDDEL ->
  registrable s0 ->
  (if with_param then setInterval_p now d f p s0 else setInterval now d f s0)
    = (s1, id) ->
  0 <= id ->
  periods_nonzero s1 ->
  let i := Z.to_nat id in
  let a := if with_param then Some p else None in
  forall ws,
    exists s' tr,
      run_ticks ws s1 = Ok (s', tr) /\
      calls_of i tr = due_ticks d now (map millis ws) /\
      calls_are i f a tr /\
      callback (slot i s') = f /\
      numRuns (slot i s') = 0 /\
      enabled (slot i s') = true /\
      (TIMER_RUN_FOREVER = 0 ->
       isEnabled id (disableAll s') = false /\
       isEnabled id (enableAll (disableAll s')) = true).
Proof.
  intros Hkeep HOD HOA Hreg Hsetup Hid Hp i a ws.
  assert (Hrun : consistent s1 /\ (i < MAX_NUMBER_TIMERS)%nat /\ f <> NULL /\
                 running f a d TIMER_RUN_FOREVER 0 now (slot i s1)).
  { destruct with_param; unfold setInterval, setInterval_p in Hsetup;
      by apply (registered_running _ _ _ _ _ _ _ _ _
                  (keep_scheduler_use_api Hkeep) Hreg Hsetup). }
  destruct Hrun as (Hc1 & Hi & Hf & Hrun).
  assert (Hd : d <> 0).
  { destruct Hrun as (Hcb & _ & Hdl & _). rewrite <- Hdl.
    apply (Hp i Hi). apply in_use_true. by rewrite Hcb. }
  destruct (ticks_forever i f a d ws Hkeep HOD HOA Hi Hf Hd s1 0 now Hc1 Hp Hrun)
    as (s' & tr & base' & Hticks & Hc' & Hare & Hcount & Hfin).
  exists s', tr. split; [done|]. split; [done|]. split; [done|].
  destruct Hfin as (Hcb & _ & _ & Hmax & Hruns & _ & Hen).
  split; [done|]. split; [done|]. split; [done|].
  intros Hzero.
  assert (Hidz : Z.of_nat i = id) by (unfold i; lia).
  assert (Hflag : forall b s, callback (slot i s) = f -> numRuns (slot i s) = 0 ->
            isEnabled id (if b : bool then enableAll s else disableAll s) = b).
  { intros b s Hcbs Hrs. unfold isEnabled.
    destruct (Z.leb_spec (Z.of_nat MAX_NUMBER_TIMERS) id); [lia|]. fold i.
    destruct (flag_all_slots b s) as (_ & _ & Hs). rewrite Hs by done.
    unfold flag_slot. rewrite Hcbs, Hrs, Hzero.
    destruct (Z.eqb_spec f NULL); [done|]. done. }
  split; [by apply (Hflag false)|].
  apply (Hflag true).
  - destruct (flag_all_slots false s') as (_ & _ & Hs). rewrite Hs by done.
    unfold flag_slot. by destruct (_ && _).
  - destruct (flag_all_slots false s') as (_ & _ & Hs). rewrite Hs by done.
    unfold flag_slot. by destruct (_ && _).
Qed.

(** X15.  A timer registered with [setTimeout], with or without an
    argument, is called at the first tick at which it is due, with the
    argument it was registered with, and its slot is free from then on;
    until then the slot holds it. *)
Theorem setTimeout_runs_once (with_param : bool) now d f p s0 s1 id :
  callbacks_keep_scheduler ->
  marks_distinct ->
  TIMER_RUN_FOREVER <> 1 ->
  (0 < UINT_BITS)%nat ->
  registrable s0 ->
  (if with_param then setTimeout_p now d f p s0 else setTimeout now d f s0)
    = (s1, id) ->
  0 <= id ->
  periods_nonzero s1 ->
  let i := Z.to_nat id in
  let a := if with_param then Some p else None in
  forall ws,
    exists s' tr,
      run_ticks ws s1 = Ok (s', tr) /\
      calls_are i f a tr /\
      let due := due_ticks d now (map millis ws) in
      (due = 0%nat -> calls_of i tr = 0%nat /\ callback (slot i s') = f) /\
      ((0 < due)%nat -> calls_of i tr = 1%nat /\ callback (slot i s') = NULL).
Proof.
  intros Hkeep Hmarks Hforever Hbits Hreg Hsetup Hid Hp i a ws.
  assert (Hrun : consistent s1 /\ (i < MAX_NUMBER_TIMERS)%nat /\ f <> NULL /\
                 running f a d 1 0 now (slot i s1)).
  { destruct with_param; unfold setTimeout, setTimeout_p, TIMER_RUN_ONCE in Hsetup;
      by apply (registered_running _ _ _ _ _ _ _ _ _
                  (keep_scheduler_use_api Hkeep) Hreg Hsetup). }
  destruct Hrun as (Hc1 & Hi & Hf & Hrun).
  assert (Hd : d <> 0).
  { destruct Hrun as (Hcb & _ & Hdl & _). rewrite <- Hdl.
    apply (Hp i Hi). apply in_use_true. by rewrite Hcb. }
  assert (Hone : 1 < 2 ^ Z.of_nat UINT_BITS).
  { apply (Z.pow_gt_1 2); lia. }
  destruct (ticks_running i f a d 1 Hkeep Hmarks Hi Hf Hd ltac:(congruence) Hone
                          ws s1 0 now Hc1 Hp Hrun ltac:(lia))
    as (s' & tr & Hticks & Hare & Hcount & Hless & Hdone).
  exists s', tr. split; [done|]. split; [done|]. cbv zeta in *.
  split.
  - intros Hz. rewrite Hz in Hcount. simpl in Hcount.
    assert (Hc0 : calls_of i tr = 0%nat) by lia. split; [done|].
    destruct Hless as [base' Hb]; [lia|]. by destruct Hb as (? & _).
  - intros Hpos. assert (Hc1' : calls_of i tr = 1%nat) by lia.
    split; [done|]. apply Hdone. lia.
Qed.


(** ** Further properties: the search, the flags of all timers, and what a
    tick leaves *)

(** A free slot somewhere means a count below the size. *)
Lemma count_in_use_free l i :
  (i < length l)%nat -> in_use (l !!! i) = false ->
  (count_in_use l < length l)%nat.
Proof.
  revert i. induction l as [|t l IH]; intros [|i] Hi Hu; simpl in *; try lia.
  - rewrite Hu. pose proof (count_in_use_le l). lia.
  - specialize (IH i ltac:(lia) Hu). destruct (in_use t); lia.
Qed.

(** X16.  In an object whose [numTimers] counts its slots in use,
    [findFirstFreeSlot] returns -1 exactly when every slot is taken, and
    otherwise the lowest free slot: no free slot lies below the one it
    returns. *)
Theorem findFirstFreeSlot_lowest_free s :
  consistent s ->
  (findFirstFreeSlot s = -1 <-> numTimers s = Z.of_nat MAX_NUMBER_TIMERS) /\
  (forall j, (j < MAX_NUMBER_TIMERS)%nat -> callback (slot j s) = NULL ->
             0 <= findFirstFreeSlot s <= Z.of_nat j /\
             callback (slot (Z.to_nat (findFirstFreeSlot s)) s) = NULL).
Proof.
  intros Hcons. pose proof (consistent_bounds s Hcons) as Hb.
  destruct (Z.eq_dec (numTimers s) (Z.of_nat MAX_NUMBER_TIMERS)) as [Hfull|Hroom].
  - split; [split; [done|intros _; apply findFirstFreeSlot_full; lia]|].
    intros j Hj Hfree. exfalso. destruct Hcons as [Hl Hn].
    assert (count_in_use (timer s) < length (timer s))%nat; [|lia].
    apply (count_in_use_free _ j); [lia|]. by apply in_use_false.
  - destruct (findFirstFreeSlot_finds s Hcons ltac:(lia))
      as (k & Hk & Hlt & Hfree & Hlow).
    split; [split; [lia|done]|].
    intros j Hj Hjfree. rewrite Hk, Nat2Z.id. split; [|done].
    destruct (Nat.le_gt_cases k j); [lia|]. by destruct (Hlow j).
Qed.

Lemma flag_slot_flag_slot b b' t : flag_slot b (flag_slot b' t) = flag_slot b t.
Proof.
  unfold flag_slot.
  destruct (negb (callback t =? NULL) && (numRuns t =? TIMER_RUN_FOREVER)) eqn:E;
    simpl; by rewrite E.
Qed.

(** X17.  Of two calls in a row among [enableAll] and [disableAll], only
    the last one counts. *)
Theorem enableAll_disableAll_last_wins s :
  length (timer s) = MAX_NUMBER_TIMERS ->
  enableAll (disableAll s) = enableAll s /\
  disableAll (enableAll s) = disableAll s /\
  enableAll (enableAll s) = enableAll s /\
  disableAll (disableAll s) = disableAll s.
Proof.
  intros Hl.
  assert (H : forall b b',
    (if b : bool then enableAll (if b' : bool then enableAll s else disableAll s)
     else disableAll (if b' then enableAll s else disableAll s)) =
    (if b then enableAll s else disableAll s)).
  { intros b b'.
    destruct (flag_all_slots b s) as (Hn & Hlen & Hs).
    destruct (flag_all_slots b' s) as (Hn' & Hlen' & Hs').
    destruct (flag_all_slots b (if b' then enableAll s else disableAll s))
      as (Hn2 & Hlen2 & Hs2).
    cbv zeta in *. apply sched_ext.
    - congruence.
    - congruence.
    - intros j Hj. rewrite Hlen2, Hlen', Hl in Hj.
      rewrite Hs2, Hs', Hs by done. apply flag_slot_flag_slot. }
  split; [apply (H true false)|]. split; [apply (H false true)|].
  split; [apply (H true true)|apply (H false false)].
Qed.

Lemma count_in_use_mono l : forall l',
  length l = length l' ->
  (forall j, (j < length l)%nat -> in_use (l' !!! j) = true -> in_use (l !!! j) = true) ->
  (count_in_use l' <= count_in_use l)%nat.
Proof.
  induction l as [|t l IH]; intros [|t' l'] Hlen H; simpl in *; try lia.
  assert (Hrest : (count_in_use l' <= count_in_use l)%nat).
  { apply IH; [lia|]. intros j Hj. apply (H (S j)). lia. }
  specialize (H O ltac:(lia)). simpl in H.
  destruct (in_use t') eqn:E'; [rewrite H by done|destruct (in_use t)]; lia.
Qed.

(** X18.  A tick whose callbacks leave the scheduler alone registers no
    timer and calls each timer at most once; a timer it removes is one it
    has just called, and a timer that stays keeps its callback, argument,
    period, number of runs allowed and enable flag. *)
Theorem run_adds_no_timer w s :
  callbacks_keep_scheduler ->
  consistent s -> periods_nonzero s ->
  exists w' s' tr,
    run w s = Ok (w', s', tr) /\
    numTimers s' <= numTimers s /\
    forall m, (m < MAX_NUMBER_TIMERS)%nat ->
      (calls_of m tr <= 1)%nat /\
      (callback (slot m s) = NULL -> callback (slot m s') = NULL) /\
      (callback (slot m s) <> NULL -> callback (slot m s') = NULL ->
       calls_of m tr = 1%nat) /\
      (callback (slot m s') <> NULL ->
       callback (slot m s') = callback (slot m s) /\
       param (slot m s') = param (slot m s) /\
       hasParam (slot m s') = hasParam (slot m s) /\
       delay (slot m s') = delay (slot m s) /\
       maxNumRuns (slot m s') = maxNumRuns (slot m s) /\
       enabled (slot m s') = enabled (slot m s)).
Proof.
  intros Hkeep Hcons Hp.
  destruct (run_keeping w s Hkeep Hcons Hp)
    as (w' & s' & tr & s1 & Hrun & Hc' & _ & _ & Hslots).
  exists w', s', tr. split; [done|].
  assert (Hall : forall m, (m < MAX_NUMBER_TIMERS)%nat ->
      (calls_of m tr <= 1)%nat /\
      (callback (slot m s) = NULL -> callback (slot m s') = NULL) /\
      (callback (slot m s) <> NULL -> callback (slot m s') = NULL ->
       calls_of m tr = 1%nat) /\
      (callback (slot m s') <> NULL ->
       callback (slot m s') = callback (slot m s) /\
       param (slot m s') = param (slot m s) /\
       hasParam (slot m s') = hasParam (slot m s) /\
       delay (slot m s') = delay (slot m s) /\
       maxNumRuns (slot m s') = maxNumRuns (slot m s) /\
       enabled (slot m s') = enabled (slot m s))).
  { intros m Hm. destruct (Hslots m Hm) as [Hscan Hdisp].
    pose proof (scan_slot_fields _ _ _ Hscan) as (Hcb & Hpa & Hh & Hd & Hmx & Hen).
    unfold dispatched_slot in Hdisp.
    destruct (toBeCalled (slot m s1) =? TIMER_DEFCALL_DONTRUN);
      [|destruct (toBeCalled (slot m s1) =? TIMER_DEFCALL_RUNANDDEL)].
    - destruct Hdisp as [-> ->]. split; [lia|]. split; [congruence|].
      split; [congruence|]. intros _. done.
    - destruct Hdisp as [[now ->] ->]. split; [lia|]. split; [done|].
      split; [done|]. intros Hne. by destruct Hne.
    - destruct Hdisp as [-> ->]. split; [lia|]. split; [congruence|].
      split; [done|]. intros _. done. }
  split; [|done].
  destruct Hcons as [Hl Hn], Hc' as [Hl' Hn']. rewrite Hn, Hn'.
  apply inj_le. apply count_in_use_mono; [congruence|].
  intros j Hj Hu. apply in_use_true. apply in_use_true in Hu.
  intros Hnull. apply Hu. apply (Hall j); [lia|done].
Qed.


(** ** Further properties: a callback that removes its own timer *)

(** X19.  A callback may remove the timer it is called for.  The second
    loop of [run] then leaves the object as that [deleteTimer] left it,
    whatever mark the slot holds afterwards: the slot is free and
    [numTimers] has gone down by one, not by two. *)
Theorem callback_may_delete_its_own_timer i w s tr w1 now :
  consistent s ->
  (i < MAX_NUMBER_TIMERS)%nat ->
  toBeCalled (slot i s) <> TIMER_DEFCALL_DONTRUN ->
  callback (slot i s) <> NULL ->
  invoke (callback (slot i s)) (arg_of (slot i s)) w s
    = (w1, deleteTimer now (Z.of_nat i) s) ->
  let s' := deleteTimer now (Z.of_nat i) s in
  dispatch_slot i (w, s, tr)
    = Ok (w1, s', tr ++ [mk_call i (callback (slot i s)) (arg_of (slot i s))]) /\
  callback (slot i s') = NULL /\
  numTimers s' = numTimers s - 1 /\
  (forall j, j <> i -> slot j s' = slot j s).
Proof.
  intros Hcons Hi Hmark Hc Hinv s'.
  assert (Hpos : numTimers s <> 0).
  { destruct Hcons as [Hl ->].
    assert (0 < count_in_use (timer s))%nat; [|lia].
    apply (count_in_use_pos _ i); [lia|]. by apply in_use_true. }
  assert (Hl : length (timer s) = MAX_NUMBER_TIMERS) by by destruct Hcons.
  assert (Hs' : s' = set_numTimers (numTimers s - 1)
                       (upd i (fun _ => cleared now) s))
    by by apply deleteTimer_in_use.
  assert (Hslot : slot i s' = cleared now).
  { rewrite Hs'. change (slot ?j (set_numTimers ?v ?s)) with (slot j s).
    by rewrite slot_upd_eq by lia. }
  split; [|split; [by rewrite Hslot|split; [by rewrite Hs'|]]].
  - unfold dispatch_slot.
    destruct (Z.eqb_spec (toBeCalled (slot i s)) TIMER_DEFCALL_DONTRUN); [done|].
    destruct (Z.eqb_spec (callback (slot i s)) NULL); [done|].
    rewrite Hinv. fold s'.
    destruct (toBeCalled (slot i s') =? TIMER_DEFCALL_RUNANDDEL); [|done].
    do 2 f_equal. f_equal.
    destruct (deleteTimer_cases (millis w1) (Z.of_nat i) s')
      as [->|(_ & Hc' & _)]; [done|].
    exfalso. apply Hc'. by rewrite Nat2Z.id, Hslot.
  - intros j Hj. rewrite Hs'.
    change (slot ?j (set_numTimers ?v ?s)) with (slot j s).
    by rewrite slot_upd_ne.
Qed.

End Scheduler.

(** ** Examples on a board with 16 slots and 32-bit integers *)

Lemma empty_state_is_init :
  init 16 0 (Portenta_H7_ISR_Timer (repeat zero_timer 16)) = empty_state.
Proof. reflexivity. Qed.

Lemma empty_state_reachable World millis invoke :
  reachable 16 0 0 1 2 32 32 World millis invoke empty_state.
Proof. rewrite <- empty_state_is_init. apply reachable_init. reflexivity. Qed.

Lemma example_invoke_uses_api : callbacks_use_api 16 0 Z example_invoke.
Proof.
  intros f a w s. unfold example_invoke. destruct (f =? 2); simpl.
  - apply rtc_once. exists 0, (CallDisable 0). reflexivity.
  - constructor.
Qed.

Lemma quiet_invoke_keeps_scheduler : callbacks_keep_scheduler Z quiet_invoke.
Proof. intros f a w s. reflexivity. Qed.

(** With a period of 10 and 35 ms elapsed, [prev_millis] advances by 30. *)
Lemma scan_advances_by_whole_periods_example :
  exists s',
    scan 16 0 0 1 2 32 32 135 (example_state true) = Ok s' /\
    prev_millis (slot 0 s') = 130 /\
    wrapL 32 (prev_millis (slot 0 s') - 100) = 30.
Proof.
  destruct (scan_advances_by_whole_periods 16 0 0 1 2 32 32 Z (fun w => w)
                                           quiet_invoke 135 (example_state true) 0)
    as (s' & Hs & Hprev & Hadv & _).
  - reflexivity.
  - apply periods_nonzero_check. reflexivity.
  - lia.
  - vm_compute. discriminate.
  - vm_compute. discriminate.
  - vm_compute. discriminate.
  - exists s'. split; [exact Hs|]. split; [exact Hprev|exact Hadv].
Defined.

Lemma example_invoke_leaves_slot_1 : callbacks_leave_slot Z example_invoke 1.
Proof.
  intros f a w s. unfold example_invoke. destruct (f =? 2); simpl; [|done].
  by apply slot_upd_ne.
Qed.

Lemma example_invoke_keeps_periods : callbacks_keep_periods 16 Z example_invoke.
Proof.
  intros f a w s Hp. unfold example_invoke. destruct (f =? 2); simpl; [|done].
  intros m Hm. rewrite slot_upd. case_decide as Hd; [|by apply Hp].
  destruct Hd as [<- _]. apply (Hp 0%nat Hm).
Qed.

(** Slot 0 holds an interval whose callback disables it at its first call;
    slot 1 holds a timer of three runs; a third timer is registered between
    two ticks. *)
Lemma example_calls_leave_slot_1 :
  let s0 := exec_call 16 0 0 (CallSetupTimer 10 2 0 false 0) empty_state in
  let s1 := fst (setupTimer 16 0 10 1 0 false 3 s0) in
  calls_leave_slot 16 0 0 1 2 32 32 Z (fun w => w) example_invoke 1
    [Tick Z 10; Call Z 15 (CallSetupTimer 7 3 0 false 0);
     Tick Z 20; Tick Z 30; Tick Z 40] s1.
Proof.
  intros s0 s1. cbn [calls_leave_slot].
  destruct (run _ _ _ _ _ _ _ _ _ _ 10 s1) as [r|e] eqn:E; [|exact I].
  vm_compute in E. injection E as <-. cbn [fst snd].
  split; [reflexivity|]. split; [apply periods_nonzero_check; reflexivity|].
  destruct (run _ _ _ _ _ _ _ _ _ _ 20 _) as [r|e] eqn:E; [|exact I].
  vm_compute in E. injection E as <-. cbn [fst snd].
  destruct (run _ _ _ _ _ _ _ _ _ _ 30 _) as [r|e] eqn:E; [|exact I].
  vm_compute in E. injection E as <-. cbn [fst snd].
  destruct (run _ _ _ _ _ _ _ _ _ _ 40 _) as [r|e] eqn:E; [|exact I].
  exact I.
Qed.

(** On that board, ticked every 10 ms: the callback of slot 0 disables its
    own timer, the timer of slot 1 is called three times, and then its slot
    is free. *)
Lemma finite_timer_runs_n_times_example :
  let s0 := exec_call 16 0 0 (CallSetupTimer 10 2 0 false 0) empty_state in
  let s1 := fst (setupTimer 16 0 10 1 0 false 3 s0) in
  exists s' tr,
    run_events 16 0 0 1 2 32 32 Z (fun w => w) example_invoke
      [Tick Z 10; Call Z 15 (CallSetupTimer 7 3 0 false 0);
       Tick Z 20; Tick Z 30; Tick Z 40] s1
      = Ok (s', tr) /\
    Z.of_nat (calls_of 1 tr) = 3 /\
    callback (slot 1 s') = NULL /\
    changeInterval 16 50 1 5 s' = (s', false).
Proof.
  intros s0 s1.
  destruct (finite_timer_runs_n_times 16 0 0 1 2 32 32 Z (fun w => w) example_invoke
              0 10 1 0 false 3 s0 s1 1)
    as [Hlife _].
  - exact example_invoke_uses_api.
  - exact example_invoke_leaves_slot_1.
  - exact example_invoke_keeps_periods.
  - reflexivity.
  - repeat split; discriminate.
  - vm_compute. reflexivity.
  - left. apply reachable_call. apply empty_state_reachable.
  - discriminate.
  - split; [lia|vm_compute; reflexivity].
  - reflexivity.
  - lia.
  - apply periods_nonzero_check. reflexivity.
  - destruct (Hlife [Tick Z 10; Call Z 15 (CallSetupTimer 7 3 0 false 0);
                     Tick Z 20; Tick Z 30; Tick Z 40]
                    example_calls_leave_slot_1)
      as (s' & tr & Hticks & _ & Hcount & _ & Hdone).
    exists s', tr. split; [exact Hticks|]. split; [exact Hcount|].
    destruct (Hdone Hcount) as [Hnull Hfail]. split; [exact Hnull|apply Hfail].
Defined.

(** Sixteen registrations return 0 to 15; a seventeenth returns [-1]. *)
Lemma registration_up_to_capacity_example :
  let rs := repeat (mk_request 0 10 1 0 false 0) 16 in
  snd (register_all 16 rs empty_state) = map Z.of_nat (seq 0 16) /\
  register 16 (mk_request 7 10 1 0 false 0) (fst (register_all 16 rs empty_state))
  = (fst (register_all 16 rs empty_state), -1).
Proof.
  intros rs.
  rewrite <- empty_state_is_init.
  destruct (registration_up_to_capacity 16 0 (repeat zero_timer 16) rs)
    as (Hids & _ & _ & _ & Hfull).
  - reflexivity.
  - vm_compute. lia.
  - unfold rs. simpl. repeat (constructor; [discriminate|]). constructor.
  - split; [exact Hids|]. apply Hfull. reflexivity.
Defined.

(** [disableAll] passes over a timer that has run once. *)
Lemma enableAll_disableAll_on_numRuns_example :
  slot 0 (disableAll 16 0 (example_state true)) = example_timer false /\
  slot 0 (disableAll 16 0 (upd 0 (set_numRuns 1) (example_state true)))
  = set_numRuns 1 (example_timer true).
Proof.
  split.
  - destruct (enableAll_disableAll_on_numRuns 16 0 (example_state true) 0) as (_ & H & _);
      [lia|exact H].
  - destruct (enableAll_disableAll_on_numRuns 16 0
                (upd 0 (set_numRuns 1) (example_state true)) 0) as (_ & H & _);
      [lia|exact H].
Defined.

(** Disabled and 35 ms late: not called, and 5 ms into the next period. *)
Lemma disabled_timer_is_not_dispatched_example :
  (exists s1,
     scan 16 0 0 1 2 32 32 135 (example_state false) = Ok s1 /\
     toBeCalled (slot 0 s1) = 0 /\ prev_millis (slot 0 s1) = 130) /\
  (exists w' s' tr,
     run 16 0 0 1 2 32 32 Z (fun w => w) example_invoke 135 (example_state false)
       = Ok (w', s', tr) /\
     calls_of 0 tr = 0%nat).
Proof.
  destruct (disabled_timer_is_not_dispatched 16 0 0 1 2 32 32 Z (fun w => w)
              example_invoke 135 (example_state false) 0)
    as [(s1 & Hs & Hmark & _ & _ & Hdue & _) (w' & s' & tr & Hrun & Hcalls & _)].
  - exact example_invoke_uses_api.
  - reflexivity.
  - reflexivity.
  - apply periods_nonzero_check. reflexivity.
  - lia.
  - vm_compute. discriminate.
  - vm_compute. discriminate.
  - reflexivity.
  - split.
    + exists s1. split; [exact Hs|]. split; [exact Hmark|].
      apply Hdue. vm_compute. discriminate.
    + exists w', s', tr. split; [exact Hrun|exact Hcalls].
Defined.

(** After a registration and a removal the counter is back at zero. *)
Lemma numTimers_counts_slots_in_use_example :
  let s := exec_call 16 0 9 (CallDeleteTimer 0)
             (exec_call 16 0 5 (CallSetupTimer 10 1 0 false 0) empty_state) in
  numTimers s = Z.of_nat (count_in_use (timer s)) /\ numTimers s <= 16.
Proof.
  intros s.
  apply (numTimers_counts_slots_in_use 16 0 0 1 2 32 32 Z (fun w => w)
                                       example_invoke s).
  - exact example_invoke_uses_api.
  - unfold s. apply reachable_call. apply reachable_call.
    apply empty_state_reachable.
Defined.

(** A new period for the timer in slot 0; none for the free slot 1. *)
Lemma changeInterval_example :
  changeInterval 16 135 1 50 (example_state true) = (example_state true, false) /\
  exists s',
    changeInterval 16 135 0 50 (example_state true) = (s', true) /\
    slot 0 s' = mk_timer 135 1 0 false 50 0 0 true 0.
Proof.
  split.
  - destruct (changeInterval_spec 16 135 1 50 (example_state true)) as [Hfail _];
      [lia|reflexivity|].
    apply Hfail. right. reflexivity.
  - destruct (changeInterval_spec 16 135 0 50 (example_state true)) as [_ Hok];
      [lia|reflexivity|].
    destruct Hok as (s' & Hs & Hslot & _); [lia|vm_compute; discriminate|].
    exists s'. split; [exact Hs|exact Hslot].
Defined.

(** Slot 16 does not exist. *)
Lemma out_of_range_example :
  isEnabled 16 16 (example_state true) = false /\
  deleteTimer 16 135 16 (example_state true) = example_state true /\
  numTimers (deleteTimer 16 135 1 (example_state true)) = 1.
Proof.
  destruct (out_of_range_is_no_op 16 135 16 (example_state true)) as [Hout _].
  destruct (out_of_range_is_no_op 16 135 1 (example_state true)) as [_ Hfree].
  destruct Hout as (He & _ & _ & _ & _ & Hd); [lia|].
  destruct Hfree as [_ Hn]; [reflexivity|].
  split; [exact He|]. split; [exact Hd|exact Hn].
Defined.

(** A period of zero is registered, and the next tick divides by it. *)
Lemma zero_period_example :
  exists k s',
    setupTimer 16 0 0 1 0 false 0 empty_state = (s', Z.of_nat k) /\
    run 16 0 0 1 2 32 32 Z (fun w => w) quiet_invoke 1 s' = Fault DivByZero.
Proof.
  destruct (zero_period_is_accepted_then_divides 16 0 0 1 2 32 32 Z (fun w => w)
              quiet_invoke 0 1 0 false 0 empty_state 1)
    as [(k & s' & Hs & _ & _ & _ & Hrun) _].
  - split; reflexivity.
  - vm_compute. reflexivity.
  - discriminate.
  - exists k, s'. split; [exact Hs|exact Hrun].
Defined.

(** Registered, disabled, enabled again and ticked at the deadline: the
    callback is invoked once. *)
Example round_trip_fires_once :
  let s1 := fst (setInterval 16 0 0 10 1 empty_state) in
  let s2 := enable 16 0 (disable 16 0 s1) in
  exists w' s',
    run 16 0 0 1 2 32 32 Z (fun w => w) quiet_invoke 10 s2
      = Ok (w', s', [mk_call 0 1 None]) /\
    prev_millis (slot 0 s') = 10.
Proof. eexists _, _. split; vm_compute; reflexivity. Qed.

(** A tick that comes 35 ms after the registration of a 10 ms interval makes
    one call and leaves the baseline at 30; the clock wrapping around in
    between changes nothing. *)
Example missed_ticks_one_call :
  let s1 := fst (setInterval 16 0 (2 ^ 32 - 5) 10 1 empty_state) in
  exists w' s',
    run 16 0 0 1 2 32 32 Z (fun w => w) quiet_invoke 30 s1
      = Ok (w', s', [mk_call 0 1 None]) /\
    prev_millis (slot 0 s') = 25 /\
    numTimers s' = 1.
Proof. eexists _, _. repeat split; vm_compute; reflexivity. Qed.

(** A one-shot timer is gone after its call. *)
Example timeout_runs_once :
  let s1 := fst (setTimeout 16 0 10 1 empty_state) in
  exists w' s',
    run 16 0 0 1 2 32 32 Z (fun w => w) quiet_invoke 10 s1
      = Ok (w', s', [mk_call 0 1 None]) /\
    callback (slot 0 s') = NULL /\
    getNumTimers 32 s' = 0.
Proof. eexists _, _. repeat split; vm_compute; reflexivity. Qed.

(** ** Examples for the further properties *)

(** [init] at time 7 on a board that held a timer: sixteen cleared slots. *)
Lemma init_forgets_everything_example :
  init 16 7 (example_state true) = mk_sched (replicate 16 (cleared 7)) 0 /\
  findFirstFreeSlot 16 (init 16 7 (example_state true)) = 0.
Proof.
  destruct (init_forgets_everything 16 32 7 (example_state true))
    as (H & _ & _ & _ & Hf).
  - reflexivity.
  - split; [exact H|exact Hf].
Defined.

(** A second timer goes into slot 1. *)
Lemma setupTimer_fills_free_slot_example :
  let s' := fst (setupTimer 16 5 10 1 0 false 3 (example_state true)) in
  slot 1 s' = mk_timer 5 1 0 false 10 3 0 true 0 /\ numTimers s' = 2.
Proof.
  intros s'.
  destruct (setupTimer_fills_free_slot 16 5 10 1 0 false 3 (example_state true) s' 1)
    as (_ & _ & _ & Hslot & _ & Hn & _).
  - reflexivity.
  - vm_compute. discriminate.
  - reflexivity.
  - lia.
  - split; [exact Hslot|exact Hn].
Defined.

(** The only timer removed: the next registration takes slot 0 again. *)
Lemma deleteTimer_frees_lowest_slot_example :
  let s' := deleteTimer 16 9 0 (example_state true) in
  numTimers s' = 0 /\ snd (setupTimer 16 12 10 1 0 false 0 s') = 0.
Proof.
  intros s'.
  destruct (deleteTimer_frees_lowest_slot 16 9 0 (example_state true))
    as (_ & _ & Hn & _ & _ & Hnext).
  - split; reflexivity.
  - lia.
  - vm_compute. discriminate.
  - split; [exact Hn|]. apply (Hnext ltac:(intros j Hj; lia) 12 10 1 0 false 0).
    vm_compute. discriminate.
Defined.

(** The flag of the free slot 3. *)
Lemma enable_flag_algebra_example :
  isEnabled 16 3 (enable 16 3 empty_state) = true /\
  toggle 16 3 (toggle 16 3 empty_state) = empty_state /\
  callback (slot 3 (enable 16 3 empty_state)) = NULL.
Proof.
  destruct (enable_flag_algebra 16 3 empty_state) as (He & _ & _ & Ht & _ & Hc & _).
  - lia.
  - reflexivity.
  - split; [exact He|]. split; [exact Ht|exact Hc].
Defined.

(** A mark left in slot 0 makes no difference to the next tick. *)
Lemma run_ignores_old_marks_example :
  run 16 0 0 1 2 32 32 Z (fun w => w) quiet_invoke 135
      (upd 0 (set_toBeCalled 2) (example_state true))
  = run 16 0 0 1 2 32 32 Z (fun w => w) quiet_invoke 135 (example_state true).
Proof.
  apply (run_ignores_old_marks 16 0 0 1 2 32 32 Z (fun w => w) quiet_invoke
                               135 0%nat 2 (example_state true)).
  lia.
Defined.

(** 35 ms late with a period of 10: 5 ms into the next period. *)
Lemma scan_leaves_less_than_a_period_example :
  exists s',
    scan 16 0 0 1 2 32 32 135 (example_state true) = Ok s' /\
    wrapL 32 (135 - prev_millis (slot 0 s')) = 5.
Proof.
  destruct (scan_leaves_less_than_a_period 16 0 0 1 2 32 32 135
              (example_state true) 0)
    as (s' & Hs & _ & Hres & _).
  - reflexivity.
  - apply periods_nonzero_check. reflexivity.
  - lia.
  - vm_compute. discriminate.
  - vm_compute. discriminate.
  - exists s'. split; [exact Hs|exact Hres].
Defined.

(** 5 ms after the last service, with a period of 10: no call. *)
Lemma free_or_early_slot_is_not_called_example :
  exists w' s' tr,
    run 16 0 0 1 2 32 32 Z (fun w => w) example_invoke 105 (example_state true)
      = Ok (w', s', tr) /\
    calls_of 0 tr = 0%nat.
Proof.
  destruct (free_or_early_slot_is_not_called 16 0 0 1 2 32 32 Z (fun w => w)
              example_invoke 105 (example_state true) 0)
    as (s1 & w' & s' & tr & _ & _ & Hrun & Hc).
  - exact example_invoke_uses_api.
  - reflexivity.
  - reflexivity.
  - apply periods_nonzero_check. reflexivity.
  - lia.
  - right. vm_compute. reflexivity.
  - exists w', s', tr. split; [exact Hrun|exact Hc].
Defined.


(** A period of 50 set at 135 and a tick at 150: no call. *)
Lemma changeInterval_starts_a_new_period_example :
  exists s1 w' s' tr,
    changeInterval 16 135 0 50 (example_state true) = (s1, true) /\
    run 16 0 0 1 2 32 32 Z (fun w => w) example_invoke 150 s1 = Ok (w', s', tr) /\
    calls_of 0 tr = 0%nat.
Proof.
  destruct (changeInterval_starts_a_new_period 16 0 0 1 2 32 32 Z (fun w => w)
              example_invoke 135 0 50 (example_state true) 150)
    as (s1 & w' & s' & tr & Hs & Hrun & Hc).
  - exact example_invoke_uses_api.
  - reflexivity.
  - reflexivity.
  - apply periods_nonzero_check. reflexivity.
  - lia.
  - vm_compute. discriminate.
  - vm_compute. reflexivity.
  - exists s1, w', s', tr. split; [exact Hs|]. split; [exact Hrun|exact Hc].
Defined.

(** A tick on the empty board. *)
Lemma run_without_timers_example :
  exists s',
    run 16 0 0 1 2 32 32 Z (fun w => w) quiet_invoke 50 empty_state
      = Ok (50, s', []) /\
    numTimers s' = 0.
Proof.
  destruct (run_without_timers 16 0 0 1 2 32 32 Z (fun w => w) quiet_invoke
              50 empty_state)
    as (s' & Hrun & Hn & _).
  - reflexivity.
  - intros j. do 16 (destruct j as [|j]; [reflexivity|]). reflexivity.
  - exists s'. split; [exact Hrun|exact Hn].
Defined.

(** An interval of 10 ms registered at 0 and ticked at 5, 10, 35 and 38:
    two calls, and the timer is still there. *)
Lemma setInterval_runs_forever_example :
  let s1 := fst (setInterval 16 0 0 10 1 empty_state) in
  exists s' tr,
    run_ticks 16 0 0 1 2 32 32 Z (fun w => w) quiet_invoke [5; 10; 35; 38] s1
      = Ok (s', tr) /\
    calls_of 0 tr = 2%nat /\
    callback (slot 0 s') = 1 /\
    isEnabled 16 0 (disableAll 16 0 s') = false.
Proof.
  intros s1.
  destruct (setInterval_runs_forever 16 0 0 1 2 32 32 Z (fun w => w) quiet_invoke
              false 0 10 1 0 empty_state s1 0
              quiet_invoke_keeps_scheduler
              ltac:(discriminate) ltac:(discriminate)
              (or_introl (empty_state_reachable Z (fun w => w) quiet_invoke))
              eq_refl ltac:(lia)
              (periods_nonzero_check 16 s1 eq_refl)
              [5; 10; 35; 38])
    as (s' & tr & Hticks & Hcount & _ & Hcb & _ & _ & Hflags).
  exists s', tr. split; [exact Hticks|]. split; [exact Hcount|].
  split; [exact Hcb|]. destruct (Hflags eq_refl) as [Hoff _]. exact Hoff.
Defined.

(** A timeout of 10 ms registered at 0 and ticked at 5, 10 and 35: one
    call, and the slot is free. *)
Lemma setTimeout_runs_once_example :
  let s1 := fst (setTimeout 16 0 10 1 empty_state) in
  exists s' tr,
    run_ticks 16 0 0 1 2 32 32 Z (fun w => w) quiet_invoke [5; 10; 35] s1
      = Ok (s', tr) /\
    calls_of 0 tr = 1%nat /\
    callback (slot 0 s') = NULL.
Proof.
  intros s1.
  destruct (setTimeout_runs_once 16 0 0 1 2 32 32 Z (fun w => w) quiet_invoke
              false 0 10 1 0 empty_state s1 0
              quiet_invoke_keeps_scheduler
              ltac:(repeat split; discriminate)
              ltac:(discriminate) ltac:(lia)
              (or_introl (empty_state_reachable Z (fun w => w) quiet_invoke))
              eq_refl ltac:(lia)
              (periods_nonzero_check 16 s1 eq_refl)
              [5; 10; 35])
    as (s' & tr & Hticks & _ & _ & Hdue).
  destruct Hdue as [Hc Hfree]; [vm_compute; lia|].
  exists s', tr. split; [exact Hticks|]. split; [exact Hc|exact Hfree].
Defined.

(** With slot 0 taken, the search returns slot 1. *)
Lemma findFirstFreeSlot_lowest_free_example :
  0 <= findFirstFreeSlot 16 (example_state true) <= 1 /\
  callback (slot (Z.to_nat (findFirstFreeSlot 16 (example_state true)))
                 (example_state true)) = NULL.
Proof.
  destruct (findFirstFreeSlot_lowest_free 16 (example_state true)) as [_ H].
  - split; reflexivity.
  - apply (H 1%nat); [lia|reflexivity].
Defined.

(** [enableAll] after [disableAll] on the board with one timer. *)
Lemma enableAll_disableAll_last_wins_example :
  enableAll 16 0 (disableAll 16 0 (example_state true))
  = enableAll 16 0 (example_state true).
Proof.
  destruct (enableAll_disableAll_last_wins 16 0 (example_state true)) as [H _];
    [reflexivity|exact H].
Defined.

(** A tick on the board with one timer: one timer at most afterwards, and
    one call at most. *)
Lemma run_adds_no_timer_example :
  exists w' s' tr,
    run 16 0 0 1 2 32 32 Z (fun w => w) quiet_invoke 135 (example_state true)
      = Ok (w', s', tr) /\
    numTimers s' <= 1 /\
    (calls_of 0 tr <= 1)%nat.
Proof.
  destruct (run_adds_no_timer 16 0 0 1 2 32 32 Z (fun w => w) quiet_invoke
              135 (example_state true))
    as (w' & s' & tr & Hrun & Hn & Hall).
  - exact quiet_invoke_keeps_scheduler.
  - split; reflexivity.
  - apply periods_nonzero_check. reflexivity.
  - exists w', s', tr. split; [exact Hrun|]. split; [exact Hn|].
    destruct (Hall 0%nat ltac:(lia)) as [Hone _]. exact Hone.
Defined.

(** The callback of slot 0 removes the timer of slot 0: one call, and an
    empty board. *)
Lemma callback_may_delete_its_own_timer_example :
  let s := upd 0 (set_toBeCalled 1) (example_state true) in
  exists s',
    dispatch_slot 16 0 2 Z (fun w => w) self_deleting_invoke 0 (135, s, [])
      = Ok (136, s', [mk_call 0 1 None]) /\
    numTimers s' = 0 /\
    callback (slot 0 s') = NULL.
Proof.
  intros s.
  destruct (callback_may_delete_its_own_timer 16 0 2 Z (fun w => w)
              self_deleting_invoke 0 135 s [] 136 135)
    as (Hd & Hc & Hn & _).
  - split; reflexivity.
  - lia.
  - vm_compute. discriminate.
  - vm_compute. discriminate.
  - reflexivity.
  - exists (deleteTimer 16 135 0 s). split; [exact Hd|]. split; [exact Hn|exact Hc].
Defined.
